(** * Placeholder rewriting in the Bonterms and employment template scripts

    A shallow embedding of [scripts/prepare-bonterms-templates.py] (the
    raw-OOXML text rewriter) and of the license step of
    [scripts/aspose_style_employment_templates.py], with the properties the
    specification states about them.

    Python values are modelled as follows.
    - [str] is a list of characters; [s.find], [s.replace(old, new, 1)],
      [old in s], [s.index] and slices are written out below.
    - An [xml.etree.ElementTree.Element] is a tree node with a tag, an
      attribute dictionary (insertion ordered), an optional text and a list
      of children.  The [tail] field is left out: no function of the scripts
      reads or writes it.
    - The trees come from [ET.fromstring], so no element occurs twice in a
      tree; the identity of an element ([is], [list.index], [remove]) is
      therefore its position in the tree.
    - A mutation through a reference into a tree ([t.text = ...],
      [rpr.remove(found)]) is a function from the tree before to the tree
      after, applied at the position the reference stands for.
    - A Python exception is a constructor of [exn]; a function that may raise
      returns a [result]. *)

From Stdlib Require Import ZArith Ascii String.
From stdpp Require Import base list.

Local Open Scope string_scope.
Local Open Scope list_scope.
Local Open Scope nat_scope.

(** ** Python strings *)

Abbreviation str := (list ascii).

Definition s_ (x : string) : str := list_ascii_of_string x.

Module Py.

(** [old] is a prefix of [s] ([s.startswith(old)]). *)
Fixpoint starts_with (old s : str) : bool :=
  match old, s with
  | [], _ => true
  | _ :: _, [] => false
  | a :: old', b :: s' => if Ascii.eqb a b then starts_with old' s' else false
  end.

(** Offset of the first occurrence of [old] in [s], scanning from the
    left. *)
Fixpoint find_nat (s old : str) : option nat :=
  if starts_with old s then Some 0
  else match s with
       | [] => None
       | _ :: s' => S <$> find_nat s' old
       end.

(** [s.find(old)]: the lowest index where [old] occurs, or [-1]. *)
Definition find (s old : str) : Z :=
  match find_nat s old with
  | Some p => Z.of_nat p
  | None => (-1)%Z
  end.

(** [old in s]. *)
Definition contains (s old : str) : bool :=
  match find_nat s old with Some _ => true | None => false end.

(** [s.replace(old, new, 1)]: only the first occurrence is replaced. *)
Definition replace1 (s old new : str) : str :=
  match find_nat s old with
  | Some p => take p s ++ new ++ drop (p + length old) s
  | None => s
  end.

(** [l[i]] for a Python list and an integer index: a negative index counts
    from the end, an index out of range raises [IndexError] (here [None]). *)
Definition getitem {A} (l : list A) (i : Z) : option A :=
  if (0 <=? i)%Z then l !! Z.to_nat i
  else if (0 <=? Z.of_nat (length l) + i)%Z
       then l !! Z.to_nat (Z.of_nat (length l) + i)
       else None.

End Py.

(** ** Exceptions and results *)

Inductive exn : Type :=
| IndexError
| ValueError
| KeyError (key : string)
| NameError (name : string).

Inductive result (A : Type) : Type :=
| Ok (a : A)
| Raise (e : exn).
Arguments Ok {A} a.
Arguments Raise {A} e.

(** ** ElementTree *)

#[local] Set Warnings "-register-all".

Inductive Element : Type :=
  mkElement {
    e_tag : string;
    e_attrib : list (string * str);
    e_text : option str;
    e_children : list Element
  }.

Module ET.

Definition with_text (e : Element) (t : option str) : Element :=
  mkElement (e_tag e) (e_attrib e) t (e_children e).

Definition with_children (e : Element) (cs : list Element) : Element :=
  mkElement (e_tag e) (e_attrib e) (e_text e) cs.

Definition has_tag (tg : string) (e : Element) : bool :=
  String.eqb (e_tag e) tg.

(** [e.find(tg)]: the first direct child with that tag. *)
Definition find (e : Element) (tg : string) : option Element :=
  List.find (has_tag tg) (e_children e).

(** [e.findall(tg)]: every direct child with that tag, in order. *)
Definition findall (e : Element) (tg : string) : list Element :=
  List.filter (has_tag tg) (e_children e).

(** [e.iter(tg)]: [e] and every element below it, in document order,
    restricted to those with tag [tg]. *)
Fixpoint iter (tg : string) (e : Element) : list Element :=
  (if has_tag tg e then [e] else []) ++
  flat_map (iter tg) (e_children e).

(** [e.iter()]: [e] and every element below it, in document order. *)
Fixpoint iter_all (e : Element) : list Element :=
  e :: flat_map iter_all (e_children e).

(** [e.set(key, value)] on the attribute dictionary: an existing key keeps
    its place, a new key goes last. *)
Fixpoint set_attr (key : string) (value : str) (a : list (string * str))
  : list (string * str) :=
  match a with
  | [] => [(key, value)]
  | (k, v) :: a' =>
      if String.eqb k key then (k, value) :: a'
      else (k, v) :: set_attr key value a'
  end.

Definition set (e : Element) (key : string) (value : str) : Element :=
  mkElement (e_tag e) (set_attr key value (e_attrib e)) (e_text e)
            (e_children e).

(** The first element of [l] that satisfies [P] is replaced by its image
    under [f]: a mutation through the reference that [find] returned. *)
Fixpoint alter_first (P : Element -> bool) (f : Element -> Element)
         (l : list Element) : list Element :=
  match l with
  | [] => []
  | x :: l' => if P x then f x :: l' else x :: alter_first P f l'
  end.

(** [found = e.find(tg); if found is not None: e.remove(found)] on the
    list of children. *)
Fixpoint remove_first (tg : string) (l : list Element) : list Element :=
  match l with
  | [] => []
  | x :: l' => if has_tag tg x then l' else x :: remove_first tg l'
  end.

(** The first element of [l] on which [f] succeeds, with its index
    (counted from [i]). *)
Fixpoint first_index {A B} (f : A -> option B) (l : list A) (i : nat)
  : option (nat * B) :=
  match l with
  | [] => None
  | c :: l' =>
      match f c with
      | Some p => Some (i, p)
      | None => first_index f l' (S i)
      end
  end.

(** Position of the first element, in document order, with tag [tg] at or
    below [e]: the path of child indices leading to it. *)
Fixpoint first_path (tg : string) (e : Element) : option (list nat) :=
  if has_tag tg e then Some []
  else
    match first_index (first_path tg) (e_children e) 0 with
    | Some (i, p) => Some (i :: p)
    | None => None
    end.

(** The element at a path, and a mutation of the element at a path. *)
Fixpoint get_at (p : list nat) (e : Element) : option Element :=
  match p with
  | [] => Some e
  | i :: p' =>
      match e_children e !! i with
      | Some c => get_at p' c
      | None => None
      end
  end.

Fixpoint alter_at (f : Element -> Element) (p : list nat) (e : Element)
  : Element :=
  match p with
  | [] => f e
  | i :: p' => with_children e (alter (alter_at f p') i (e_children e))
  end.

End ET.

(** ** Values a function returns, and what it prints *)

Inductive pyval : Type :=
| PyNone
| PyBool (b : bool).

(** The lines the rewriter prints to standard output, one constructor per
    [print] call of the script. *)
Inductive printed : Type :=
| PrintedReplacedCell (old_text_40 new_text : str)
| PrintedAdded (template_tag label : str)
| PrintedReplaced (old new : str).

(** * scripts/prepare-bonterms-templates.py *)

Module Bonterms.

Definition NSMAP : list (string * string) :=
  [ ("w", "http://schemas.openxmlformats.org/wordprocessingml/2006/main");
    ("r", "http://schemas.openxmlformats.org/officeDocument/2006/relationships");
    ("w14", "http://schemas.microsoft.com/office/word/2010/wordml");
    ("mc", "http://schemas.openxmlformats.org/markup-compatibility/2006");
    ("a", "http://schemas.openxmlformats.org/drawingml/2006/main") ].

Fixpoint NSMAP_get (m : list (string * string)) (ns : string) : option string :=
  match m with
  | [] => None
  | (k, v) :: m' => if String.eqb k ns then Some v else NSMAP_get m' ns
  end.

(** [tag(ns, local)]: the Clark-notation tag.  A prefix missing from
    [NSMAP] is a [KeyError]. *)
Definition tag (ns local : string) : result string :=
  match NSMAP_get NSMAP ns with
  | Some uri => Ok (String.append "{" (String.append uri (String.append "}" local)))
  | None => Raise (KeyError ns)
  end.

(** Every call site passes the prefix ["w"], which [NSMAP] holds; the tags
    the script uses are therefore plain strings. *)
Definition w (local : string) : string :=
  match tag "w" local with Ok t => t | Raise _ => "" end.

Definition w_p : string := Eval vm_compute in w "p".
Definition w_r : string := Eval vm_compute in w "r".
Definition w_t : string := Eval vm_compute in w "t".
Definition w_rPr : string := Eval vm_compute in w "rPr".
Definition w_i : string := Eval vm_compute in w "i".
Definition w_iCs : string := Eval vm_compute in w "iCs".
Definition w_color : string := Eval vm_compute in w "color".
Definition w_b : string := Eval vm_compute in w "b".
Definition w_bCs : string := Eval vm_compute in w "bCs".
Definition w_hyperlink : string := Eval vm_compute in w "hyperlink".
Definition w_tc : string := Eval vm_compute in w "tc".
Definition xml_space : string := "{http://www.w3.org/XML/1998/namespace}space".

(** [t.text or ""]. *)
Definition text_or_empty (t : Element) : str :=
  match e_text t with
  | Some s => s
  | None => []
  end.

(** [get_paragraph_text]: the text of every [w:t] at or below [para]. *)
Definition get_paragraph_text (para : Element) : str :=
  concat (map text_or_empty (List.filter (ET.has_tag w_t) (ET.iter_all para))).

(** [get_run_texts]: every [w:r] at or below [para] whose first [w:t] has a
    non-empty text, with that text.  (No function of the script calls it.) *)
Definition get_run_texts (para : Element) : list (Element * str) :=
  flat_map (fun r =>
              match ET.find r w_t with
              | Some t_elem =>
                  match e_text t_elem with
                  | Some (c :: s) => [(r, c :: s)]
                  | _ => []
                  end
              | None => []
              end) (ET.iter w_r para).

(** The italic and colour markers are taken off the run properties of a
    run:
<<
    rpr = r_elem.find(tag("w", "rPr"))
    if rpr is not None:
        for fmt_tag in [tag("w","i"), tag("w","iCs"), tag("w","color")]:
            found = rpr.find(fmt_tag)
            if found is not None: rpr.remove(found)
>> *)
Definition strip_rpr (rpr : Element) : Element :=
  ET.with_children rpr
    (ET.remove_first w_color
       (ET.remove_first w_iCs
          (ET.remove_first w_i (e_children rpr)))).

Definition strip_placeholder_format (r_elem : Element) : Element :=
  ET.with_children r_elem
    (ET.alter_first (ET.has_tag w_rPr) strip_rpr (e_children r_elem)).

(** [t.text = s] where [t = r.find(tag("w", "t"))]. *)
Definition set_run_text (s : str) (r : Element) : Element :=
  ET.with_children r
    (ET.alter_first (ET.has_tag w_t) (fun t => ET.with_text t (Some s))
                    (e_children r)).

(** [(t.text or "")] where [t = r.find(tag("w", "t"))]. *)
Definition run_text (r : Element) : str :=
  match ET.find r w_t with
  | Some t => text_or_empty t
  | None => []
  end.

(** *** replace_bracketed_in_para *)

(** The runs one hyperlink contributes:
<<
    for r in child.findall(tag("w", "r")):
        t = r.find(tag("w", "t"))
        if t is not None: runs.append((r, t))
>> *)
Fixpoint link_runs (rs : list Element) : list Element :=
  match rs with
  | [] => []
  | r :: rs' =>
      match ET.find r w_t with
      | Some _ => r :: link_runs rs'
      | None => link_runs rs'
      end
  end.

(** The runs one child of the paragraph contributes. *)
Definition runs_of_child (child : Element) : list Element :=
  if ET.has_tag w_r child then
    match ET.find child w_t with
    | Some _ => [child]
    | None => []
    end
  else if ET.has_tag w_hyperlink child then
    link_runs (ET.findall child w_r)
  else [].

(** The list [runs], collected afresh at every iteration.  Each entry
    stands for the pair [(r, t)]: [t] is [r]'s first [w:t] child. *)
Fixpoint collect_runs_in (children : list Element) : list Element :=
  match children with
  | [] => []
  | child :: rest => runs_of_child child ++ collect_runs_in rest
  end.

Definition collect_runs (para : Element) : list Element :=
  collect_runs_in (e_children para).

(** A [w:r] with a [w:t] child: what the two loops above collect. *)
Definition is_link_run (r : Element) : bool :=
  ET.has_tag w_r r && bool_decide (is_Some (ET.find r w_t)).

(** The entries of [runs] are references into the tree of the paragraph: a
    mutation made through [runs[k]] changes the element in the tree.
    [alter_run f k para] applies [f] to the element that [runs[k]] refers
    to, the [k]-th collected run in document order, where it sits: among
    the children of the paragraph or among those of a hyperlink. *)
Fixpoint alter_nth_sat (P : Element -> bool) (f : Element -> Element)
         (k : nat) (l : list Element) : list Element :=
  match l with
  | [] => []
  | x :: l' =>
      if P x then
        match k with
        | 0 => f x :: l'
        | S k' => x :: alter_nth_sat P f k' l'
        end
      else x :: alter_nth_sat P f k l'
  end.

Definition alter_in_child (f : Element -> Element) (k : nat)
           (child : Element) : Element :=
  if ET.has_tag w_r child then f child
  else ET.with_children child
         (alter_nth_sat is_link_run f k (e_children child)).

Fixpoint alter_run_in (f : Element -> Element) (k : nat)
         (children : list Element) : list Element :=
  match children with
  | [] => []
  | child :: rest =>
      let n := length (runs_of_child child) in
      if k <? n then alter_in_child f k child :: rest
      else child :: alter_run_in f (k - n) rest
  end.

Definition alter_run (f : Element -> Element) (k : nat) (para : Element)
  : Element :=
  ET.with_children para (alter_run_in f k (e_children para)).

(** The character map:
<<
    for i, (_, t) in enumerate(runs):
        text = t.text or ""
        for j in range(len(text)): char_map.append((i, j))
        full_text += text
>> *)
Fixpoint char_map_from (i : nat) (texts : list str) : list (nat * nat) :=
  match texts with
  | [] => []
  | text :: rest =>
      map (pair i) (seq 0 (length text)) ++ char_map_from (S i) rest
  end.

Definition build_char_map (runs : list Element) : list (nat * nat) :=
  char_map_from 0 (map run_text runs).

Definition build_full_text (runs : list Element) : str :=
  concat (map run_text runs).

(** [range(a, b)] for non-negative [a] and [b]. *)
Definition range (a b : nat) : list nat := seq a (b - a).

(** The state a call works on: the element it was given (a paragraph or a
    table cell) and standard output. *)
Record state : Type := mkState { st_elem : Element; st_out : list printed }.

(** How one pass through the loop body ends. *)
Inductive flow : Type :=
| Continue (s : state)     (* [continue], or the end of the body *)
| Return (s : state)       (* [return] *)
| Raised (e : exn).

(** [runs[idx]]; an index out of range is an [IndexError]. *)
Definition run_at (para : Element) (idx : nat) : option Element :=
  collect_runs para !! idx.

(** [t.text = g(t.text or "")] for the [t] of one entry of [runs]: the
    text is read and written through the same reference. *)
Definition update_run_text (g : str -> str) (r : Element) : Element :=
  set_run_text (g (run_text r)) r.

(** The body of the loop, for one pair [(old, new)]. *)
Definition replace_step (old new : str) (s : state) : flow :=
  let para := st_elem s in
  let runs := collect_runs para in
  match runs with
  | [] => Return s
  | _ :: _ =>
      let char_map := build_char_map runs in
      let full_text := build_full_text runs in
      let pos := Py.find full_text old in
      if (pos =? -1)%Z then Continue s
      else
        match Py.getitem char_map pos with
        | None => Raised IndexError
        | Some (start_run_idx, start_char) =>
        match Py.getitem char_map (pos + Z.of_nat (length old) - 1)%Z with
        | None => Raised IndexError
        | Some (end_run_idx, end_char) =>
        match run_at para start_run_idx, run_at para end_run_idx with
        | Some _, Some _ =>
            let para1 :=
              if start_run_idx =? end_run_idx then
                (* simple case: all in one run *)
                alter_run (update_run_text (fun text => Py.replace1 text old new))
                          start_run_idx para
              else
                (* multi-run case *)
                let p1 :=
                  alter_run
                    (update_run_text
                       (fun old_first_text => take start_char old_first_text ++ new))
                    start_run_idx para in
                let p2 :=
                  foldl (fun p mid_idx => alter_run (set_run_text []) mid_idx p)
                        p1 (range (start_run_idx + 1) end_run_idx) in
                alter_run
                  (update_run_text
                     (fun old_last_text => drop (end_char + 1) old_last_text))
                  end_run_idx p2 in
            let para2 :=
              foldl (fun p idx => alter_run strip_placeholder_format idx p)
                    para1 (range start_run_idx (end_run_idx + 1)) in
            Continue (mkState para2 (st_out s ++ [PrintedReplaced old new]))
        | _, _ => Raised IndexError
        end end end
  end.

(** [for old, new in replacements.items(): ...]; the dictionary is the list
    of its items in insertion order. *)
Fixpoint replace_loop (items : list (str * str)) (s : state) : result state :=
  match items with
  | [] => Ok s
  | (old, new) :: rest =>
      match replace_step old new s with
      | Continue s' => replace_loop rest s'
      | Return s' => Ok s'
      | Raised e => Raise e
      end
  end.

(** The function returns [None] on every path; the result carries that
    value and the state it leaves. *)
Definition replace_bracketed_in_para (para : Element)
           (replacements : list (str * str)) (out : list printed)
  : result (pyval * state) :=
  match replace_loop replacements (mkState para out) with
  | Ok s => Ok (PyNone, s)
  | Raise e => Raise e
  end.

(** *** append_tag_after_label *)

(** [direct_runs]: the direct-child runs that have a [w:t], each with its
    position among the children of the paragraph (the identity that
    [children.index(last_run_elem)] recovers). *)
Fixpoint direct_runs_from (i : nat) (children : list Element)
  : list (nat * Element) :=
  match children with
  | [] => []
  | child :: rest =>
      (if ET.has_tag w_r child then
         match ET.find child w_t with
         | Some _ => [(i, child)]
         | None => []
         end
       else []) ++ direct_runs_from (S i) rest
  end.

Definition direct_runs (para : Element) : list (nat * Element) :=
  direct_runs_from 0 (e_children para).

(** The search for the last run of the label:
<<
    for r_elem, t in direct_runs:
        char_count += len(t.text or "")
        if char_count >= label_end:
            last_run_elem = r_elem
            break
>> *)
Fixpoint last_label_run (runs : list (nat * Element)) (char_count label_end : nat)
         (last_run_elem : nat * Element) : nat * Element :=
  match runs with
  | [] => last_run_elem
  | (i, r_elem) :: rest =>
      let char_count := char_count + length (run_text r_elem) in
      if label_end <=? char_count then (i, r_elem)
      else last_label_run rest char_count label_end last_run_elem
  end.

(** The run that is inserted: a deep copy of the run properties without
    the bold markers, then the text. *)
Definition new_tag_run (last_run_elem : Element) (template_tag : str) : Element :=
  let new_rpr :=
    match ET.find last_run_elem w_rPr with
    | Some rpr =>
        [ET.with_children rpr
           (ET.remove_first w_bCs (ET.remove_first w_b (e_children rpr)))]
    | None => []
    end in
  let new_t :=
    ET.set (mkElement w_t [] (Some (s_ " " ++ template_tag)) [])
           xml_space (s_ "preserve") in
  mkElement w_r [] None (new_rpr ++ [new_t]).

(** [l.insert(i, x)] for [0 <= i]. *)
Definition list_insert_at {A} (i : nat) (x : A) (l : list A) : list A :=
  take i l ++ x :: drop i l.

Definition append_tag_after_label (para : Element) (label template_tag : str)
           (out : list printed) : result (pyval * state) :=
  let runs := direct_runs para in
  match last runs with
  | None => Ok (PyNone, mkState para out)       (* [if not direct_runs: return] *)
  | Some last_direct =>
      let full_text := concat (map (fun ir => run_text (snd ir)) runs) in
      if negb (Py.contains full_text label) then Ok (PyNone, mkState para out)
      else
        match Py.find_nat full_text label with
        | None => Raise ValueError                (* [full_text.index(label)] *)
        | Some at_ =>
            let label_end := at_ + length label in
            let '(idx, last_run_elem) :=
              last_label_run runs 0 label_end last_direct in
            let new_run := new_tag_run last_run_elem template_tag in
            let para' :=
              ET.with_children para
                (list_insert_at (idx + 1) new_run (e_children para)) in
            Ok (PyNone, mkState para' (out ++ [PrintedAdded template_tag label]))
        end
  end.

(** *** replace_cell_text *)

(** What is done to [first_run]: its first [w:t] (created at the end of
    the run when there is none) receives [new_text] and
    [xml:space="preserve"], and the placeholder formatting is removed. *)
Definition fill_t (new_text : str) (t : Element) : Element :=
  ET.set (ET.with_text t (Some new_text)) xml_space (s_ "preserve").

Definition fill_first_run (new_text : str) (first_run : Element) : Element :=
  let filled :=
    match ET.find first_run w_t with
    | Some _ =>
        ET.with_children first_run
          (ET.alter_first (ET.has_tag w_t) (fill_t new_text)
                          (e_children first_run))
    | None =>
        ET.with_children first_run
          (e_children first_run ++ [fill_t new_text (mkElement w_t [] None [])])
    end in
  strip_placeholder_format filled.

(** The removal loop; [first_run] is the position of the first run and [i]
    the position of [child]:
<<
    for child in list(para):
        if child.tag == tag("w", "r") and child is not first_run:
            para.remove(child)
        elif child.tag == tag("w", "hyperlink"):
            para.remove(child)
>> *)
Fixpoint remove_other_runs (first_run : list nat) (i : nat)
         (children : list Element) : list Element :=
  match children with
  | [] => []
  | child :: rest =>
      if ET.has_tag w_r child && negb (bool_decide (first_run = [i]))
      then remove_other_runs first_run (S i) rest
      else if ET.has_tag w_hyperlink child
      then remove_other_runs first_run (S i) rest
      else child :: remove_other_runs first_run (S i) rest
  end.

(** One pass through the loop over the paragraphs of the cell: [None] is
    [continue], [Some para'] is the rewritten paragraph (the function then
    returns). *)
Definition replace_in_cell_para (old_text new_text : str) (para : Element)
  : option Element :=
  match ET.iter w_r para with
  | [] => None
  | _ :: _ =>
      let full_text := get_paragraph_text para in
      if negb (Py.contains full_text old_text) then None
      else
        match ET.first_path w_r para with      (* [first_run = runs[0]] *)
        | None => None
        | Some first_run =>
            let para1 := ET.alter_at (fill_first_run new_text) first_run para in
            Some (ET.with_children para1
                    (remove_other_runs first_run 0 (e_children para1)))
        end
  end.

(** [for para in cell.findall(tag("w", "p")): ...] over the children of the
    cell; [None] when no paragraph was rewritten. *)
Fixpoint replace_cell_children (old_text new_text : str)
         (children : list Element) : option (list Element) :=
  match children with
  | [] => None
  | child :: rest =>
      if ET.has_tag w_p child then
        match replace_in_cell_para old_text new_text child with
        | Some para' => Some (para' :: rest)
        | None => cons child <$> replace_cell_children old_text new_text rest
        end
      else cons child <$> replace_cell_children old_text new_text rest
  end.

Definition replace_cell_text (cell : Element) (old_text new_text : str)
           (out : list printed) : pyval * state :=
  match replace_cell_children old_text new_text (e_children cell) with
  | Some children' =>
      (PyNone,
       mkState (ET.with_children cell children')
               (out ++ [PrintedReplacedCell (take 40 old_text) new_text]))
  | None => (PyNone, mkState cell out)
  end.

(** *** Building test paragraphs *)

Definition t_elem (text : option str) : Element :=
  mkElement w_t [] text [].

Definition leaf (tg : string) : Element := mkElement tg [] None [].

Definition rPr_elem (fmt : list string) : Element :=
  mkElement w_rPr [] None (map leaf fmt).

(** A run with the given formatting markers and text. *)
Definition run_elem (fmt : list string) (text : string) : Element :=
  mkElement w_r [] None [rPr_elem fmt; t_elem (Some (s_ text))].

(** A run with a text and no run properties. *)
Definition plain_run (text : string) : Element :=
  mkElement w_r [] None [t_elem (Some (s_ text))].

Definition para_elem (children : list Element) : Element :=
  mkElement w_p [] None children.

Definition hyperlink_elem (children : list Element) : Element :=
  mkElement w_hyperlink [] None children.

(** The paragraphs of the scenarios of the specification. *)
Definition customer_para : Element :=
  para_elem [plain_run "["; plain_run "Customer"; plain_run "]"].

Definition party_para : Element :=
  para_elem [plain_run "Party Name"; plain_run ":"].

Definition fill_in_para : Element :=
  para_elem [run_elem [w_i] "[Fill in]"].

Definition cell_elem (children : list Element) : Element :=
  mkElement w_tc [] None children.

(** A cell whose second paragraph holds the placeholder across two runs,
    with text before it and a hyperlink after it. *)
Definition key_terms_cell : Element :=
  cell_elem
    [ para_elem [plain_run "a"];
      para_elem [plain_run "see "; run_elem [w_i] "[Fill"; plain_run " in]";
                 hyperlink_elem [plain_run "zz"]];
      fill_in_para ].

(** A paragraph whose first run sits inside a hyperlink. *)
Definition linked_first_para : Element :=
  para_elem [hyperlink_elem [plain_run "[Fill in]"]; plain_run " (date)"].

End Bonterms.

(** * scripts/aspose_style_employment_templates.py *)

Module Aspose.

(** The part of the world the license step touches: the environment
    variables, which paths exist, the license Aspose has been given, and
    the two output streams. *)
Record world : Type :=
  mkWorld {
    environ : list (string * string);
    existing_paths : list string;
    license : option string;
    stdout : list string;
    stderr : list string
  }.

(** The names bound in the module's global namespace once the file has
    been executed: the imports of lines 2 to 8, the constants and the
    functions.  [from pathlib import Path] binds [Path] only and
    [import aspose.words as aw] binds [aw] only. *)
Definition module_globals : list string :=
  [ "annotations"; "os"; "re"; "Path"; "aw";
    "ROOT"; "JUNIOR_ROOT"; "TARGETS"; "CLAUSE_HEADING_RE";
    "_clean_text"; "try_apply_license"; "style_tables"; "style_paragraphs";
    "remove_blank_spacer_paragraphs"; "process"; "main" ].

(** The builtins the license step names. *)
Definition builtins : list string := [ "print"; "str" ].

Definition string_in (n : string) (l : list string) : bool :=
  existsb (String.eqb n) l.

(** Evaluation of a global name inside a function: the module globals,
    then the builtins, else [NameError]. *)
Definition lookup_name (n : string) : result unit :=
  if string_in n module_globals then Ok tt
  else if string_in n builtins then Ok tt
  else Raise (NameError n).

Definition JUNIOR_ROOT : string :=
  "/Users/stevenobiajulu/Projects/junior-AI-email-bot".

(** [os.environ.get(name)]. *)
Fixpoint environ_get (env : list (string * string)) (name : string)
  : option string :=
  match env with
  | [] => None
  | (k, v) :: env' => if String.eqb k name then Some v else environ_get env' name
  end.

Definition candidates (w : world) : list (option string) :=
  [ environ_get (environ w) "JUNIOR_ASPOSE_LICENSE_PATH";
    environ_get (environ w) "ASPOSE_LICENSE_PATH";
    Some (String.append JUNIOR_ROOT "/licenses/Aspose.Words.Python.NET.lic") ].

(** [Path(candidate).exists()]. *)
Definition path_exists (w : world) (p : string) : bool :=
  string_in p (existing_paths w).

(** The loop over the candidates: the first non-empty candidate whose
    path exists, if any. *)
Fixpoint first_license (w : world) (cands : list (option string))
  : option string :=
  match cands with
  | [] => None
  | None :: rest => first_license w rest
  | Some c :: rest =>
      if String.eqb c "" then first_license w rest        (* [if not candidate] *)
      else if negb (path_exists w c) then first_license w rest
      else Some c
  end.

Definition print_to_stdout (line : string) (w : world) : world :=
  mkWorld (environ w) (existing_paths w) (license w) (stdout w ++ [line]) (stderr w).

Definition print_to_stderr (line : string) (w : world) : world :=
  mkWorld (environ w) (existing_paths w) (license w) (stdout w) (stderr w ++ [line]).

Definition set_license (p : string) (w : world) : world :=
  mkWorld (environ w) (existing_paths w) (Some p) (stdout w) (stderr w).

(** [try_apply_license].  In the last statement,
    [print("[warn] ...", file=sys.stderr)], the argument [sys.stderr] is
    evaluated before [print] is called. *)
Definition try_apply_license (w : world) : result world :=
  match first_license w (candidates w) with
  | Some path =>
      Ok (print_to_stdout (String.append "[ok] Aspose license applied from " path)
                          (set_license path w))
  | None =>
      match lookup_name "sys" with
      | Raise e => Raise e
      | Ok _ =>
          Ok (print_to_stderr
                "[warn] Aspose license not found; running in evaluation mode" w)
      end
  end.

(** [main]: the license step, then every target is processed.  [process]
    works through the Aspose library and is a parameter here. *)
Fixpoint process_all (process : string -> world -> result world)
         (targets : list string) (w : world) : result world :=
  match targets with
  | [] => Ok w
  | path :: rest =>
      match process path w with
      | Ok w' => process_all process rest w'
      | Raise e => Raise e
      end
  end.

Definition main (process : string -> world -> result world)
           (targets : list string) (w : world) : result world :=
  match try_apply_license w with
  | Ok w' => process_all process targets w'
  | Raise e => Raise e
  end.

End Aspose.

(** * More of Python's [str] *)

Module PyText.

(** [c.isspace()] for a character below 256: tab to carriage return, the
    four separators 28 to 31, the space, and the two Latin-1 spaces. *)
Definition is_space (c : ascii) : bool :=
  let n := nat_of_ascii c in
  ((9 <=? n) && (n <=? 13)) || ((28 <=? n) && (n <=? 32))
  || (n =? 133) || (n =? 160).

(** [s.lstrip()], [s.rstrip()] and [s.strip()]. *)
Fixpoint lstrip (s : str) : str :=
  match s with
  | [] => []
  | c :: s' => if is_space c then lstrip s' else s
  end.

Definition rstrip (s : str) : str := rev (lstrip (rev s)).

Definition strip (s : str) : str := rstrip (lstrip s).

(** [a == b] on strings. *)
Fixpoint eqb (a b : str) : bool :=
  match a, b with
  | [], [] => true
  | x :: a', y :: b' => Ascii.eqb x y && eqb a' b'
  | _, _ => false
  end.

End PyText.

(** * scripts/prepare-bonterms-templates.py: the document level *)

Module BontermsDoc.

Import Bonterms.

Definition w_body : string := Eval vm_compute in w "body".
Definition w_tbl : string := Eval vm_compute in w "tbl".
Definition w_tr : string := Eval vm_compute in w "tr".
Definition w_pPr : string := Eval vm_compute in w "pPr".

(** The exceptions of the document level: an attribute looked up on
    [None], a key missing from a dictionary, the XML parser's error, what
    reading or writing an archive raises, [sys.exit], and the exceptions of
    the rewriter. *)
Inductive doc_exn : Type :=
| NoneAttributeError (attr : string)
| MissingKey (key : string)
| XmlParseError
| ArchiveError
| SystemExit (code : Z)
| RewriterError (e : exn).

Inductive doc_result (A : Type) : Type :=
| DocOk (a : A)
| DocRaise (e : doc_exn).
Arguments DocOk {A} a.
Arguments DocRaise {A} e.

(** The lines printed at the document level, one constructor per [print]
    call; [Rewriter] carries a line of the rewriter. *)
Inductive doc_line : Type :=
| Rewriter (p : printed)
| LineRemovedParagraph (text_60 : str)
| LineProcessing (kind source : string)
| LineCleared
| LineWritten (dest : string)
| LineDone
| LinePath (path : string).

(** *** remove_first_paragraph *)

Section WithUpper.

(** [str.upper] follows the Unicode case mapping; it is a parameter. *)
Variable upper : str -> str.

Definition has_example_marker (text : str) : bool :=
  Py.contains text (s_ "[Example:") || Py.contains (upper text) (s_ "[EXAMPLE:").

Definition remove_first_paragraph (root : Element) (out : list doc_line)
  : Element * list doc_line :=
  match ET.find root w_body with
  | None => (root, out)
  | Some body =>
      match ET.find body w_p with
      | None => (root, out)
      | Some first_p =>
          let text := get_paragraph_text first_p in
          if has_example_marker text then
            (ET.with_children root
               (ET.alter_first (ET.has_tag w_body)
                  (fun body =>
                     ET.with_children body (ET.remove_first w_p (e_children body)))
                  (e_children root)),
             out ++ [LineRemovedParagraph (take 60 text)])
          else (root, out)
      end
  end.

End WithUpper.

(** *** Loops over [findall] *)

(** [for x in parent.findall(tg): body(x)], where the body mutates [x] in
    place, threads a state and may raise: the children of [parent] with
    the tag [tg] are visited in order, the others are left alone. *)
Fixpoint for_each_tagged {S : Type} (tg : string)
         (body : Element -> S -> doc_result (Element * S))
         (children : list Element) (s : S) : doc_result (list Element * S) :=
  match children with
  | [] => DocOk ([], s)
  | c :: rest =>
      if ET.has_tag tg c then
        match body c s with
        | DocOk (c', s') =>
            match for_each_tagged tg body rest s' with
            | DocOk (rest', s'') => DocOk (c' :: rest', s'')
            | DocRaise e => DocRaise e
            end
        | DocRaise e => DocRaise e
        end
      else
        match for_each_tagged tg body rest s with
        | DocOk (rest', s') => DocOk (c :: rest', s')
        | DocRaise e => DocRaise e
        end
  end.

Definition in_children {S : Type} (tg : string)
           (body : Element -> S -> doc_result (Element * S))
           (parent : Element) (s : S) : doc_result (Element * S) :=
  match for_each_tagged tg body (e_children parent) s with
  | DocOk (children', s') => DocOk (ET.with_children parent children', s')
  | DocRaise e => DocRaise e
  end.

(** [body = root.find(tag("w", "body")); tables = body.findall(...)]: with
    no [w:body], [body] is [None] and [body.findall] raises
    [AttributeError]. *)
Definition on_body_tables {S : Type}
           (table_body : Element -> S -> doc_result (Element * S))
           (root : Element) (s : S) : doc_result (Element * S) :=
  match ET.find root w_body with
  | None => DocRaise (NoneAttributeError "findall")
  | Some body =>
      match in_children w_tbl table_body body s with
      | DocOk (body', s') =>
          DocOk (ET.with_children root
                   (ET.alter_first (ET.has_tag w_body) (fun _ => body')
                                   (e_children root)),
                 s')
      | DocRaise e => DocRaise e
      end
  end.

(** *** process_nda_key_terms and process_psa_key_terms *)

(** A context map: label, then the template tag and the placeholder. *)
Definition NDA_CONTEXT_MAP : list (str * (str * str)) :=
  [ (s_ "Purpose",
     (s_ "{purpose}", s_ "[How Confidential Information may be used]"));
    (s_ "Effective Date", (s_ "{effective_date}", s_ "[Fill in]"));
    (s_ "Term of NDA",
     (s_ "{nda_term}", s_ "[Agreement term and disclosure period]"));
    (s_ "Confidentiality Period",
     (s_ "{confidentiality_period}",
      s_ "[How long Confidential Information is protected]"));
    (s_ "Governing Law", (s_ "{governing_law}", s_ "[Fill in]"));
    (s_ "Courts", (s_ "{courts}", s_ "[Fill in]")) ].

Definition PSA_CONTEXT_MAP : list (str * (str * str)) :=
  [ (s_ "Effective Date", (s_ "{effective_date}", s_ "[Fill in]"));
    (s_ "Governing Law", (s_ "{governing_law}", s_ "[Fill in]"));
    (s_ "Courts", (s_ "{courts}", s_ "[Fill in]")) ].

(** [key in m] and [m[key]] together. *)
Fixpoint context_get (m : list (str * (str * str))) (key : str)
  : option (str * str) :=
  match m with
  | [] => None
  | (k, v) :: m' => if PyText.eqb k key then Some v else context_get m' key
  end.

(** The body of the loop over the rows:
<<
    cells = row.findall(tag("w", "tc"))
    if len(cells) == 2:
        label_text = get_paragraph_text(cells[0]).strip()
        if label_text in CONTEXT_MAP:
            template_tag, expected_placeholder = CONTEXT_MAP[label_text]
            replace_cell_text(cells[1], expected_placeholder, template_tag)
>>
    [cells[1]] is the second [w:tc] child of the row.  (The source also
    computes [value_text], which it never uses.) *)
Definition key_terms_row (context_map : list (str * (str * str)))
           (row : Element) (out : list doc_line) : Element * list doc_line :=
  match ET.findall row w_tc with
  | [cell0; cell1] =>
      let label_text := PyText.strip (get_paragraph_text cell0) in
      match context_get context_map label_text with
      | Some (template_tag, expected_placeholder) =>
          let st :=
            snd (replace_cell_text cell1 expected_placeholder template_tag []) in
          (ET.with_children row
             (alter_nth_sat (ET.has_tag w_tc) (fun _ => st_elem st) 1
                            (e_children row)),
           out ++ map Rewriter (st_out st))
      | None => (row, out)
      end
  | _ => (row, out)
  end.

Definition process_key_terms (context_map : list (str * (str * str)))
           (root : Element) (out : list doc_line)
  : doc_result (Element * list doc_line) :=
  on_body_tables
    (in_children w_tr (fun row out => DocOk (key_terms_row context_map row out)))
    root out.

Definition process_nda_key_terms := process_key_terms NDA_CONTEXT_MAP.
Definition process_psa_key_terms := process_key_terms PSA_CONTEXT_MAP.

(** *** process_nda_signatures *)

(** The body of the innermost loop; the state is [party_count] and
    standard output. *)
Definition nda_signature_para (para : Element) (s : nat * list doc_line)
  : doc_result (Element * (nat * list doc_line)) :=
  let '(party_count, out) := s in
  let text := get_paragraph_text para in
  if Py.contains text (s_ "Party Name:") then
    let party_count := party_count + 1 in
    let tag_name :=
      if party_count =? 1 then s_ "{party_1_name}" else s_ "{party_2_name}" in
    match append_tag_after_label para (s_ "Party Name:") tag_name [] with
    | Ok (_, st) =>
        DocOk (st_elem st, (party_count, out ++ map Rewriter (st_out st)))
    | Raise e => DocRaise (RewriterError e)
    end
  else DocOk (para, s).

Definition process_nda_signatures (root : Element) (out : list doc_line)
  : doc_result (Element * list doc_line) :=
  match on_body_tables
          (in_children w_tr (in_children w_tc (in_children w_p nda_signature_para)))
          root (0, out) with
  | DocOk (root', (_, out')) => DocOk (root', out')
  | DocRaise e => DocRaise e
  end.

(** *** process_psa_name_of_agreement *)

Definition psa_replacements : list (str * str) :=
  [ (s_ "[Customer]", s_ "{customer_name}");
    (s_ "[Provider]", s_ "{provider_name}");
    (s_ "[Effective Date]", s_ "{effective_date}") ].

Definition psa_name_para (para : Element) (out : list doc_line)
  : doc_result (Element * list doc_line) :=
  let full_text := get_paragraph_text para in
  if Py.contains full_text (s_ "[Customer]")
     || Py.contains full_text (s_ "[Provider]")
     || Py.contains full_text (s_ "[Effective Date]") then
    match replace_bracketed_in_para para psa_replacements [] with
    | Ok (_, st) => DocOk (st_elem st, out ++ map Rewriter (st_out st))
    | Raise e => DocRaise (RewriterError e)
    end
  else DocOk (para, out).

Definition process_psa_name_of_agreement (root : Element) (out : list doc_line)
  : doc_result (Element * list doc_line) :=
  on_body_tables
    (in_children w_tr (in_children w_tc (in_children w_p psa_name_para)))
    root out.

(** *** process_psa_signatures *)

Inductive party : Type := Customer | Provider.

(** The first loop over the paragraphs of a cell: which block this is. *)
Fixpoint signature_party (paras : list Element) : option party :=
  match paras with
  | [] => None
  | p :: rest =>
      let pt := PyText.strip (get_paragraph_text p) in
      if PyText.eqb pt (s_ "Customer:") || Py.starts_with (s_ "Customer:") pt
      then Some Customer
      else if PyText.eqb pt (s_ "Provider:") || Py.starts_with (s_ "Provider:") pt
      then Some Provider
      else signature_party rest
  end.

Definition is_company_para (p : Element) : bool :=
  ET.has_tag w_p p
  && Py.starts_with (s_ "Company:") (PyText.strip (get_paragraph_text p)).

(** The second loop: the first paragraph that starts with ["Company:"] gets
    the tag, then [break]. *)
Fixpoint tag_company_para (tag_name : str) (children : list Element)
         (out : list doc_line) : doc_result (list Element * list doc_line) :=
  match children with
  | [] => DocOk ([], out)
  | c :: rest =>
      if is_company_para c then
        match append_tag_after_label c (s_ "Company:") tag_name [] with
        | Ok (_, st) =>
            DocOk (st_elem st :: rest, out ++ map Rewriter (st_out st))
        | Raise e => DocRaise (RewriterError e)
        end
      else
        match tag_company_para tag_name rest out with
        | DocOk (rest', out') => DocOk (c :: rest', out')
        | DocRaise e => DocRaise e
        end
  end.

Definition psa_signature_cell (cell : Element) (out : list doc_line)
  : doc_result (Element * list doc_line) :=
  let paras := ET.findall cell w_p in
  match signature_party paras with
  | None => DocOk (cell, out)
  | Some who =>
      let tag_name :=
        match who with
        | Customer => s_ "{customer_name}"
        | Provider => s_ "{provider_name}"
        end in
      match tag_company_para tag_name (e_children cell) out with
      | DocOk (children', out') => DocOk (ET.with_children cell children', out')
      | DocRaise e => DocRaise e
      end
  end.

Definition psa_signature_table (tbl : Element) (out : list doc_line)
  : doc_result (Element * list doc_line) :=
  match ET.findall tbl w_tr with
  | [] => DocOk (tbl, out)
  | first_row :: _ =>
      let first_row_text := PyText.strip (get_paragraph_text first_row) in
      if negb (Py.contains first_row_text (s_ "Signature")) then DocOk (tbl, out)
      else in_children w_tr (in_children w_tc psa_signature_cell) tbl out
  end.

Definition process_psa_signatures (root : Element) (out : list doc_line)
  : doc_result (Element * list doc_line) :=
  on_body_tables psa_signature_table root out.

(** *** The archive: clear_header_footer, process_nda, process_psa, main *)

(** A Python dictionary with string keys, as the list of its items in
    insertion order: [key in d] and [d[key]], and [d[key] = v], where an
    existing key keeps its place and a new key goes last. *)
Fixpoint dict_get {V : Type} (d : list (string * V)) (key : string) : option V :=
  match d with
  | [] => None
  | (k, v) :: d' => if String.eqb k key then Some v else dict_get d' key
  end.

Fixpoint dict_set {V : Type} (d : list (string * V)) (key : string) (v : V)
  : list (string * V) :=
  match d with
  | [] => [(key, v)]
  | (k, v0) :: d' =>
      if String.eqb k key then (k, v) :: d' else (k, v0) :: dict_set d' key v
  end.

(** The paragraph that [clear_header_footer] puts in place of the content:
    a [w:p] with an empty [w:pPr]. *)
Definition empty_paragraph : Element :=
  mkElement w_p [] None [mkElement w_pPr [] None []].

(** What the script sees of the world: the file system, standard output
    and standard error. *)
Record world (FS : Type) : Type :=
  mkWorld { files : FS; stdout : list doc_line; stderr : list string }.
Arguments mkWorld {FS} files stdout stderr.
Arguments files {FS} w.
Arguments stdout {FS} w.
Arguments stderr {FS} w.

Section WithArchive.

(** The parts of the libraries the script goes through are parameters:
    [str.upper], the XML parser and serializer of ElementTree (the parser
    raises on ill-formed input), the content of files ([bytes]), and the
    file system with [read_docx], [write_docx] (which report whether they
    returned or raised) and [Path.exists]. *)
Variable upper : str -> str.
Variable bytes : Type.
Variable parse_xml : bytes -> option Element.
Variable serialize_xml : Element -> bytes.
Variable FS : Type.
Variable read_docx : FS -> string -> option (list (string * bytes)).
Variable write_docx : FS -> list (string * bytes) -> string -> FS * bool.
Variable path_exists : FS -> string -> bool.

Definition clear_header_footer (entries : list (string * bytes)) (filename : string)
  : doc_result (list (string * bytes)) :=
  let key := String.append "word/" filename in
  match dict_get entries key with
  | None => DocOk entries
  | Some data =>
      match parse_xml data with
      | None => DocRaise XmlParseError
      | Some root =>
          let root := ET.with_children root [] in
          let root := ET.with_children root (e_children root ++ [empty_paragraph]) in
          DocOk (dict_set entries key (serialize_xml root))
      end
  end.

(** A computation of the script: it changes the world and returns or
    raises. *)
Definition io (A : Type) : Type := world FS -> doc_result A * world FS.

Definition ret {A} (a : A) : io A := fun w => (DocOk a, w).

Definition bind {A B} (m : io A) (k : A -> io B) : io B :=
  fun w =>
    match m w with
    | (DocOk a, w') => k a w'
    | (DocRaise e, w') => (DocRaise e, w')
    end.

Notation "x <- m ;; k" := (bind m (fun x => k))
  (at level 62, m at next level, right associativity).
Notation "m ;;; k" := (bind m (fun _ => k))
  (at level 62, right associativity).

Definition raise {A} (e : doc_exn) : io A := fun w => (DocRaise e, w).

Definition print (line : doc_line) : io unit :=
  fun w => (DocOk tt, mkWorld (files w) (stdout w ++ [line]) (stderr w)).

Definition print_err (line : string) : io unit :=
  fun w => (DocOk tt, mkWorld (files w) (stdout w) (stderr w ++ [line])).

(** A computation that touches neither the file system nor the streams. *)
Definition lift {A} (r : doc_result A) : io A := fun w => (r, w).

Definition read (path : string) : io (list (string * bytes)) :=
  fun w =>
    match read_docx (files w) path with
    | Some entries => (DocOk entries, w)
    | None => (DocRaise ArchiveError, w)
    end.

Definition write (entries : list (string * bytes)) (path : string) : io unit :=
  fun w =>
    let '(fs, returned) := write_docx (files w) entries path in
    (if returned then DocOk tt else DocRaise ArchiveError,
     mkWorld fs (stdout w) (stderr w)).

(** [entries[key]]. *)
Definition lookup (entries : list (string * bytes)) (key : string) : io bytes :=
  match dict_get entries key with
  | Some data => ret data
  | None => raise (MissingKey key)
  end.

Definition parse (data : bytes) : io Element :=
  match parse_xml data with
  | Some root => ret root
  | None => raise XmlParseError
  end.

(** A step on the document, which prints to standard output.  (What a step
    printed before it raised is not kept.) *)
Definition run_step
           (step : Element -> list doc_line -> doc_result (Element * list doc_line))
           (doc_xml : Element) : io Element :=
  fun w =>
    match step doc_xml (stdout w) with
    | DocOk (doc_xml', out') => (DocOk doc_xml', mkWorld (files w) out' (stderr w))
    | DocRaise e => (DocRaise e, w)
    end.

Definition process_nda (source dest : string) : io unit :=
  print (LineProcessing "NDA" source) ;;;
  entries <- read source ;;
  data <- lookup entries "word/document.xml" ;;
  doc_xml <- parse data ;;
  doc_xml <- run_step (fun d out => DocOk (remove_first_paragraph upper d out)) doc_xml ;;
  entries <- lift (clear_header_footer entries "header2.xml") ;;
  entries <- lift (clear_header_footer entries "footer1.xml") ;;
  entries <- lift (clear_header_footer entries "footer2.xml") ;;
  print LineCleared ;;;
  doc_xml <- run_step process_nda_key_terms doc_xml ;;
  doc_xml <- run_step process_nda_signatures doc_xml ;;
  write (dict_set entries "word/document.xml" (serialize_xml doc_xml)) dest ;;;
  print (LineWritten dest).

Definition process_psa (source dest : string) : io unit :=
  print (LineProcessing "PSA" source) ;;;
  entries <- read source ;;
  data <- lookup entries "word/document.xml" ;;
  doc_xml <- parse data ;;
  doc_xml <- run_step (fun d out => DocOk (remove_first_paragraph upper d out)) doc_xml ;;
  entries <- lift (clear_header_footer entries "header2.xml") ;;
  entries <- lift (clear_header_footer entries "footer1.xml") ;;
  entries <- lift (clear_header_footer entries "footer2.xml") ;;
  print LineCleared ;;;
  doc_xml <- run_step process_psa_name_of_agreement doc_xml ;;
  doc_xml <- run_step process_psa_key_terms doc_xml ;;
  doc_xml <- run_step process_psa_signatures doc_xml ;;
  write (dict_set entries "word/document.xml" (serialize_xml doc_xml)) dest ;;;
  print (LineWritten dest).

(** [main].  The two destinations are built from the place of the script
    in the file system; they are parameters. *)
Variable nda_dest psa_dest : string.

Definition nda_source : string := "/tmp/bonterms-sources/nda-cover-page.docx".
Definition psa_source : string := "/tmp/bonterms-sources/psa-cover-page.docx".

Definition main : io unit :=
  fun w =>
    if negb (path_exists (files w) nda_source) then
      (print_err (String.append "Error: " (String.append nda_source " not found")) ;;;
       raise (SystemExit 1)) w
    else if negb (path_exists (files w) psa_source) then
      (print_err (String.append "Error: " (String.append psa_source " not found")) ;;;
       raise (SystemExit 1)) w
    else
      (process_nda nda_source nda_dest ;;;
       process_psa psa_source psa_dest ;;;
       print LineDone ;;;
       print (LinePath nda_dest) ;;;
       print (LinePath psa_dest)) w.

End WithArchive.

End BontermsDoc.

(** * Notions the properties are stated with *)

(** [old] occurs in [s] at offset [p]. *)
Definition occurs_at (s old : str) (p : nat) : Prop :=
  exists before after, s = before ++ old ++ after /\ length before = p.

(** [old] occurs somewhere in [s]. *)
Definition occurs (s old : str) : Prop := exists p, occurs_at s old p.

(** Offset, in the concatenated text, of the first character of the [k]-th
    text. *)
Definition offset (texts : list str) (k : nat) : nat :=
  length (concat (take k texts)).

(** A function on runs that keeps what makes an element an entry of [runs]:
    its tag, and whether it has a [w:t] child. *)
Definition keeps_run (f : Element -> Element) : Prop :=
  forall r : Element,
    e_tag (f r) = e_tag r /\
    (ET.find (f r) Bonterms.w_t = None <-> ET.find r Bonterms.w_t = None).

(** The text run [k] is given by one replacement whose match starts at
    character [sc] of run [si] and ends at character [ec] of run [ei]; [t] is
    the text the run had. *)
Definition new_text (si sc ei ec : nat) (old new : str) (k : nat) (t : str) : str :=
  if si =? ei then (if k =? si then Py.replace1 t old new else t)
  else if k =? si then take sc t ++ new
  else if (si <? k) && (k <? ei) then []
  else if k =? ei then drop (ec + 1) t
  else t.

(** What one replacement does to run [k]: the runs from [si] to [ei] get
    their new text and lose the placeholder formatting, the others are left
    alone. *)
Definition touch (si sc ei ec : nat) (old new : str) (k : nat) (r : Element)
  : Element :=
  if (si <=? k) && (k <=? ei)
  then Bonterms.strip_placeholder_format
         (Bonterms.set_run_text (new_text si sc ei ec old new k (Bonterms.run_text r)) r)
  else r.

(** The text of a paragraph as the rewriter sees it: the texts of the
    collected runs, concatenated in order. *)
Definition run_texts (para : Element) : list str :=
  map Bonterms.run_text (Bonterms.collect_runs para).

Definition paragraph_text (para : Element) : str := concat (run_texts para).

(** [r'] is the run [r], untouched or with its text rewritten and its
    placeholder formatting removed: the same element after a mutation. *)
Definition rewritten (r r' : Element) : Prop :=
  r' = r \/
  exists s, r' = Bonterms.strip_placeholder_format (Bonterms.set_run_text s r).

(** The children of the run properties of a run (none when the run has
    no [w:rPr]), and how many of them carry a given marker tag. *)
Definition rpr_children (r : Element) : list Element :=
  match ET.find r Bonterms.w_rPr with
  | Some rpr => e_children rpr
  | None => []
  end.

Definition marker_count (m : string) (r : Element) : nat :=
  length (List.filter (ET.has_tag m) (rpr_children r)).

Definition placeholder_markers : list string :=
  [Bonterms.w_i; Bonterms.w_iCs; Bonterms.w_color].

(** The flattening step as the specification words it: the direct runs of
    the paragraph and the runs inside a hyperlink wrapper, in order, without
    the runs whose text is empty. *)
Definition has_text (r : Element) : bool :=
  match Bonterms.run_text r with
  | [] => false
  | _ :: _ => true
  end.

Definition spec_flatten (para : Element) : list Element :=
  flat_map
    (fun child =>
       if ET.has_tag Bonterms.w_r child then
         (if has_text child then [child] else [])
       else if ET.has_tag Bonterms.w_hyperlink child then
         List.filter (fun r => ET.has_tag Bonterms.w_r r && has_text r)
                     (e_children child)
       else [])
    (e_children para).

(** The texts of the direct-child runs, as [append_tag_after_label] reads
    them, and their concatenation. *)
Definition direct_texts (para : Element) : list str :=
  map (fun ir : nat * Element => Bonterms.run_text (snd ir)) (Bonterms.direct_runs para).

Definition direct_text (para : Element) : str := concat (direct_texts para).

(** A paragraph of a cell that [replace_cell_text] rewrites: a [w:p] with
    at least one run at or below it whose text contains [old_text]. *)
Definition qualifies (old_text : str) (c : Element) : bool :=
  ET.has_tag Bonterms.w_p c &&
  match ET.iter Bonterms.w_r c with [] => false | _ :: _ => true end &&
  Py.contains (Bonterms.get_paragraph_text c) old_text.

(** A child that the removal loop of [replace_cell_text] never removes:
    neither a run nor a hyperlink. *)
Definition keep_other (c : Element) : bool :=
  negb (ET.has_tag Bonterms.w_r c) && negb (ET.has_tag Bonterms.w_hyperlink c).

(** Induction on elements, with the property known for every child. *)
Fixpoint Element_children_ind (P : Element -> Prop)
         (H : forall t a x cs, Forall P cs -> P (mkElement t a x cs))
         (e : Element) : P e :=
  match e with
  | mkElement t a x cs =>
      H t a x cs
        ((fix go (cs : list Element) : Forall P cs :=
            match cs with
            | [] => @List.Forall_nil Element P
            | c :: cs' =>
                @List.Forall_cons Element P c cs'
                                  (Element_children_ind P H c) (go cs')
            end) cs)
  end.

(** What a dictionary of replacements does to a text when its entries are
    applied in order, each to the first occurrence of its key. *)
Definition replace_in_order (text : str) (replacements : list (str * str)) : str :=
  foldl (fun t kv => Py.replace1 t (fst kv) (snd kv)) text replacements.

(** [e'] is the node [e] with other children: the tag, the attributes and
    the text are the same. *)
Definition same_node (e e' : Element) : Prop :=
  e_tag e' = e_tag e /\ e_attrib e' = e_attrib e /\ e_text e' = e_text e.

(** ** Notions for the steps on the document *)

(** The steps of the script that walk the tables of the body. *)
Definition table_steps
  : list (Element -> list BontermsDoc.doc_line
          -> BontermsDoc.doc_result (Element * list BontermsDoc.doc_line)) :=
  [ BontermsDoc.process_nda_key_terms; BontermsDoc.process_nda_signatures;
    BontermsDoc.process_psa_name_of_agreement; BontermsDoc.process_psa_key_terms;
    BontermsDoc.process_psa_signatures ].

(** A loop body that never raises, keeps the tag of the element it is given
    and moves the state along [ext]. *)
Definition steady {S : Type} (ext : S -> S -> Prop) (tg : string)
           (body : Element -> S -> BontermsDoc.doc_result (Element * S)) : Prop :=
  forall c s, ET.has_tag tg c = true ->
    exists c' s', body c s = BontermsDoc.DocOk (c', s') /\
                  e_tag c' = e_tag c /\ ext s s'.

(** Standard output only grows. *)
Definition grows {A} (out out' : list A) : Prop := exists lines, out' = out ++ lines.

(** The line that reports a tag added after ["Party Name:"]. *)
Definition party_line (tag_name : string) : BontermsDoc.doc_line :=
  BontermsDoc.Rewriter (PrintedAdded (s_ tag_name) (s_ "Party Name:")).

(** How the state of [process_nda_signatures] (the counter, standard
    output) moves: the counter never goes down, nothing is printed while it
    stands still, and once it has left 0 only [{party_2_name}] lines are
    printed. *)
Definition party_progress (s s' : nat * list BontermsDoc.doc_line) : Prop :=
  fst s <= fst s' /\
  exists lines,
    snd s' = snd s ++ lines /\
    (fst s' = fst s -> lines = []) /\
    exists n,
      lines = repeat (party_line "{party_2_name}") n \/
      (fst s = 0 /\
       lines = party_line "{party_1_name}" :: repeat (party_line "{party_2_name}") n).

(** The template tag of a signature block. *)
Definition party_tag (who : BontermsDoc.party) : str :=
  match who with
  | BontermsDoc.Customer => s_ "{customer_name}"
  | BontermsDoc.Provider => s_ "{provider_name}"
  end.

(** A computation that leaves the file system and standard error alone and
    only adds to standard output. *)
Definition quiet {FS A : Type} (m : BontermsDoc.io FS A) : Prop :=
  forall w r w',
    m w = (r, w') ->
    BontermsDoc.files w' = BontermsDoc.files w /\
    BontermsDoc.stderr w' = BontermsDoc.stderr w /\
    grows (BontermsDoc.stdout w) (BontermsDoc.stdout w').

(** The entries of an archive that [process_nda] and [process_psa] may
    rewrite. *)
Definition rewritten_names : list string :=
  [ "word/document.xml"; "word/header2.xml"; "word/footer1.xml";
    "word/footer2.xml" ].

(** How a run of [process_nda] or [process_psa] from [source] to [dest]
    ends.  Standard error is untouched and standard output only grows.
    Either the run raised with the file system as it was, or the archive was
    read, has an entry [word/document.xml], and [write_docx] was called once
    on [dest], with entries that have the same names in the same order and
    the same content outside [rewritten_names]; the run returns exactly when
    that call does. *)
Definition archive_outcome {bytes FS : Type}
           (read_docx : FS -> string -> option (list (string * bytes)))
           (write_docx : FS -> list (string * bytes) -> string -> FS * bool)
           (source dest : string)
           (w : BontermsDoc.world FS) (r : BontermsDoc.doc_result unit)
           (w' : BontermsDoc.world FS) : Prop :=
  BontermsDoc.stderr w' = BontermsDoc.stderr w /\
  grows (BontermsDoc.stdout w) (BontermsDoc.stdout w') /\
  ((BontermsDoc.files w' = BontermsDoc.files w /\
    exists e, r = BontermsDoc.DocRaise e) \/
   exists entries entries' returned,
     read_docx (BontermsDoc.files w) source = Some entries /\
     is_Some (BontermsDoc.dict_get entries "word/document.xml") /\
     map fst entries' = map fst entries /\
     (forall k, k ∉ rewritten_names ->
                BontermsDoc.dict_get entries' k = BontermsDoc.dict_get entries k) /\
     write_docx (BontermsDoc.files w) entries' dest
     = (BontermsDoc.files w', returned) /\
     r = if returned then BontermsDoc.DocOk tt
         else BontermsDoc.DocRaise BontermsDoc.ArchiveError).

(** The world [w'] is [w] after computations that are [quiet]. *)
Definition follows {FS : Type} (w w' : BontermsDoc.world FS) : Prop :=
  BontermsDoc.files w' = BontermsDoc.files w /\
  BontermsDoc.stderr w' = BontermsDoc.stderr w /\
  grows (BontermsDoc.stdout w) (BontermsDoc.stdout w').

(** * Python strings: [find] returns the first occurrence *)

Section PyFacts.

Lemma starts_with_prefix old s :
  Py.starts_with old s = true <-> exists after, s = old ++ after.
Proof.
  revert s. induction old as [|a old IH]; intros s; simpl.
  - split; eauto.
  - destruct s as [|b s].
    + split; [discriminate | intros [k Hk]; discriminate].
    + destruct (Ascii.eqb a b) eqn:E.
      * apply Ascii.eqb_eq in E. subst b. rewrite IH.
        split; intros [k Hk]; exists k; simpl in *; congruence.
      * apply Ascii.eqb_neq in E.
        split; [discriminate | intros [k Hk]; simpl in Hk; congruence].
Qed.

Lemma occurs_at_0 s old :
  occurs_at s old 0 <-> Py.starts_with old s = true.
Proof.
  rewrite starts_with_prefix. split.
  - intros (b & a & -> & Hb). destruct b; [|discriminate]. eauto.
  - intros [a ->]. exists [], a. auto.
Qed.

Lemma occurs_at_S c s old p :
  occurs_at (c :: s) old (S p) <-> occurs_at s old p.
Proof.
  split.
  - intros (b & a & E & Hb). destruct b as [|c' b]; [discriminate|].
    simpl in *. injection E as -> ->. exists b, a. split; [auto | lia].
  - intros (b & a & -> & Hb). exists (c :: b), a. simpl. split; [auto | lia].
Qed.

Lemma occurs_at_bound s old p :
  occurs_at s old p -> p + length old <= length s.
Proof.
  intros (b & a & -> & <-). rewrite !length_app. lia.
Qed.

Lemma find_nat_Some s old p :
  Py.find_nat s old = Some p ->
  occurs_at s old p /\ forall q, q < p -> ~ occurs_at s old q.
Proof.
  revert p. induction s as [|c s IH]; intros p; simpl.
  - destruct (Py.starts_with old []) eqn:E; [|discriminate].
    intros [= <-]. split; [by apply occurs_at_0 | lia].
  - destruct (Py.starts_with old (c :: s)) eqn:E.
    + intros [= <-]. split; [by apply occurs_at_0 | lia].
    + destruct (Py.find_nat s old) as [p'|] eqn:F; simpl; [|discriminate].
      intros [= <-]. destruct (IH p' eq_refl) as [Hocc Hmin]. split.
      * by apply occurs_at_S.
      * intros [|q] Hq.
        -- rewrite occurs_at_0. congruence.
        -- rewrite occurs_at_S. apply Hmin. lia.
Qed.

Lemma find_nat_None s old :
  Py.find_nat s old = None -> ~ occurs s old.
Proof.
  induction s as [|c s IH]; simpl.
  - destruct (Py.starts_with old []) eqn:E; [discriminate|].
    intros _ [p Hp]. pose proof (occurs_at_bound _ _ _ Hp) as Hb. simpl in Hb.
    assert (p = 0) by lia. subst p. apply occurs_at_0 in Hp. congruence.
  - destruct (Py.starts_with old (c :: s)) eqn:E; [discriminate|].
    destruct (Py.find_nat s old) eqn:F; simpl; [discriminate|].
    intros _ [[|p] Hp].
    + apply occurs_at_0 in Hp. congruence.
    + apply occurs_at_S in Hp. apply IH; [done | by exists p].
Qed.

(** The first occurrence, when there is one, is what [find_nat] returns. *)
Lemma find_nat_first s old p :
  occurs_at s old p -> (forall q, q < p -> ~ occurs_at s old q) ->
  Py.find_nat s old = Some p.
Proof.
  intros Hocc Hmin. destruct (Py.find_nat s old) as [p'|] eqn:F.
  - destruct (find_nat_Some _ _ _ F) as [Hocc' Hmin'].
    destruct (Nat.lt_trichotomy p p') as [H|[H|H]]; [|congruence|].
    + exfalso. by apply (Hmin' p).
    + exfalso. by apply (Hmin p').
  - exfalso. apply (find_nat_None _ _ F). by exists p.
Qed.

Lemma contains_occurs s old : Py.contains s old = true <-> occurs s old.
Proof.
  unfold Py.contains. destruct (Py.find_nat s old) as [p|] eqn:F.
  - split; [|done]. intros _. exists p. by apply find_nat_Some.
  - split; [discriminate|]. intros H. by apply find_nat_None in F.
Qed.

Lemma find_absent s old : Py.find s old = (-1)%Z <-> ~ occurs s old.
Proof.
  unfold Py.find. destruct (Py.find_nat s old) as [p|] eqn:F.
  - split; [lia|]. intros H. exfalso. apply H. exists p. by apply find_nat_Some.
  - split; [|done]. intros _. by apply find_nat_None.
Qed.

(** An occurrence inside the middle part of a concatenation. *)
Lemma occurs_at_middle a t b old c :
  occurs_at (a ++ t ++ b) old (length a + c) ->
  c + length old <= length t ->
  occurs_at t old c.
Proof.
  intros (x & y & E & Hx) Hc.
  rewrite <- (take_drop c t) in E at 1.
  rewrite <- !app_assoc, (app_assoc a) in E.
  apply app_inj_1 in E as [_ E]; [|rewrite length_app, length_take; lia].
  rewrite <- (take_drop (length old) (drop c t)), <- app_assoc in E.
  apply app_inj_1 in E as [E _]; [|rewrite length_take, length_drop; lia].
  exists (take c t), (drop (c + length old) t).
  split; [|rewrite length_take; lia].
  etrans; [symmetry; apply (take_drop c t)|]. f_equal.
  etrans; [symmetry; apply (take_drop (length old) (drop c t))|].
  by rewrite E, drop_drop.
Qed.

Lemma occurs_at_embed a t b old q :
  occurs_at t old q -> occurs_at (a ++ t ++ b) old (length a + q).
Proof.
  intros (x & y & -> & <-). exists (a ++ x), (y ++ b).
  rewrite !length_app. split; [|done]. by rewrite <- !app_assoc.
Qed.

Lemma occurs_at_take_drop s old p :
  occurs_at s old p -> s = take p s ++ old ++ drop (p + length old) s.
Proof.
  intros (x & y & -> & <-).
  by rewrite take_app_length, drop_app_add, drop_app_length.
Qed.

End PyFacts.

(** * The character map *)

Section CharMap.

Import Bonterms.

Lemma getitem_nonneg {A} (l : list A) (i : nat) :
  Py.getitem l (Z.of_nat i) = l !! i.
Proof.
  unfold Py.getitem. destruct (Z.leb_spec 0 (Z.of_nat i)); [|lia].
  by rewrite Nat2Z.id.
Qed.

Lemma length_char_map_from i texts :
  length (char_map_from i texts) = length (concat texts).
Proof.
  revert i. induction texts as [|t texts IH]; intros i; simpl; [done|].
  by rewrite !length_app, length_map, length_seq, IH.
Qed.

Lemma offset_eq texts k : offset texts k = length (concat (take k texts)).
Proof. reflexivity. Qed.

Lemma offset_0 texts : offset texts 0 = 0.
Proof. by rewrite offset_eq, take_0. Qed.

Lemma offset_S t texts m :
  offset (t :: texts) (S m) = length t + offset texts m.
Proof. rewrite !offset_eq. simpl. by rewrite length_app. Qed.

Lemma offset_succ texts m t :
  texts !! m = Some t -> offset texts (S m) = offset texts m + length t.
Proof.
  intros H. rewrite !offset_eq. rewrite (take_S_r _ _ _ H), concat_app, length_app.
  simpl. rewrite length_app. simpl. lia.
Qed.

Lemma offset_mono texts m n : m <= n -> offset texts m <= offset texts n.
Proof.
  intros H. rewrite !offset_eq.
  replace (take m texts) with (take m (take n texts))
    by (rewrite take_take; f_equal; lia).
  rewrite <- (take_drop m (take n texts)) at 2.
  rewrite concat_app, length_app. lia.
Qed.

(** What an entry of the character map says: position [p] of the full text
    is character [c] of text [k]. *)
Lemma char_map_from_lookup i texts p k c :
  char_map_from i texts !! p = Some (k, c) ->
  exists m t, k = i + m /\ texts !! m = Some t /\ c < length t /\
              p = offset texts m + c.
Proof.
  revert i p. induction texts as [|t texts IH]; intros i p; simpl; [done|].
  destruct (decide (p < length t)) as [Hp|Hp].
  - rewrite lookup_app_l by (by rewrite length_map, length_seq).
    rewrite list_lookup_fmap, lookup_seq_lt by done. simpl. intros [= <- <-].
    exists 0, t. rewrite offset_0. repeat split; try done; lia.
  - rewrite lookup_app_r by (rewrite length_map, length_seq; lia).
    rewrite length_map, length_seq. intros H.
    destruct (IH _ _ H) as (m & t' & -> & Hm & Hc & Hp').
    exists (S m), t'. rewrite offset_S. repeat split; try done; lia.
Qed.

Lemma char_map_lookup texts p k c :
  char_map_from 0 texts !! p = Some (k, c) ->
  exists t, texts !! k = Some t /\ c < length t /\ p = offset texts k + c.
Proof.
  intros H. destruct (char_map_from_lookup _ _ _ _ _ H) as (m & t & -> & ?).
  by exists t.
Qed.

Lemma char_map_is_Some texts p :
  p < length (concat texts) -> is_Some (char_map_from 0 texts !! p).
Proof. intros H. apply lookup_lt_is_Some. by rewrite length_char_map_from. Qed.

(** A position of the full text lies in one text only. *)
Lemma offset_unique (texts : list str) k k' t t' p :
  texts !! k = Some t -> texts !! k' = Some t' ->
  offset texts k <= p < offset texts k + length t ->
  offset texts k' <= p < offset texts k' + length t' ->
  k = k'.
Proof.
  intros Hk Hk' Hp Hp'.
  pose proof (offset_succ _ _ _ Hk) as Hs.
  pose proof (offset_succ _ _ _ Hk') as Hs'.
  destruct (Nat.lt_trichotomy k k') as [Hlt|[Heq|Hgt]]; [|done|].
  - pose proof (offset_mono texts (S k) k' ltac:(lia)). lia.
  - pose proof (offset_mono texts (S k') k ltac:(lia)). lia.
Qed.

(** The full text split around text [k]. *)
Lemma concat_split (texts : list str) k t :
  texts !! k = Some t ->
  concat texts = concat (take k texts) ++ t ++ concat (drop (S k) texts).
Proof.
  intros H. rewrite <- (take_drop_middle _ _ _ H) at 1.
  by rewrite concat_app, concat_cons.
Qed.

End CharMap.

(** * Runs: reading and writing through [runs[k]] *)

Section RunFacts.

Import Bonterms.

Lemma has_tag_eq tg e : ET.has_tag tg e = true <-> e_tag e = tg.
Proof. apply String.eqb_eq. Qed.

Lemma has_tag_neq tg e : ET.has_tag tg e = false <-> e_tag e <> tg.
Proof. apply String.eqb_neq. Qed.

Lemma has_tag_ext tg e e' : e_tag e' = e_tag e -> ET.has_tag tg e' = ET.has_tag tg e.
Proof. unfold ET.has_tag. by intros ->. Qed.

Lemma has_tag_with_children tg e cs :
  ET.has_tag tg (ET.with_children e cs) = ET.has_tag tg e.
Proof. reflexivity. Qed.

Lemma w_r_not_hyperlink : w_r <> w_hyperlink.
Proof. apply String.eqb_neq. by vm_compute. Qed.

Lemma w_t_not_rPr : w_t <> w_rPr.
Proof. apply String.eqb_neq. by vm_compute. Qed.

Lemma find_alter_first_same tg g l :
  (forall x, e_tag (g x) = e_tag x) ->
  List.find (ET.has_tag tg) (ET.alter_first (ET.has_tag tg) g l)
  = g <$> List.find (ET.has_tag tg) l.
Proof.
  intros Hg. induction l as [|x l IH]; simpl; [done|].
  destruct (ET.has_tag tg x) eqn:E; simpl.
  - by rewrite (has_tag_ext _ _ _ (Hg x)), E.
  - by rewrite E.
Qed.

Lemma find_alter_first_other tg tg' g l :
  tg <> tg' -> (forall x, e_tag (g x) = e_tag x) ->
  List.find (ET.has_tag tg) (ET.alter_first (ET.has_tag tg') g l)
  = List.find (ET.has_tag tg) l.
Proof.
  intros Hne Hg. induction l as [|x l IH]; simpl; [done|].
  destruct (ET.has_tag tg' x) eqn:E'; simpl.
  - rewrite (has_tag_ext _ _ _ (Hg x)).
    destruct (ET.has_tag tg x) eqn:E; [|done].
    apply has_tag_eq in E, E'. congruence.
  - destruct (ET.has_tag tg x); [done | apply IH].
Qed.

Lemma find_set_run_text s r :
  ET.find (set_run_text s r) w_t
  = (fun t => ET.with_text t (Some s)) <$> ET.find r w_t.
Proof. unfold ET.find, set_run_text. simpl. by apply find_alter_first_same. Qed.

Lemma find_t_strip r :
  ET.find (strip_placeholder_format r) w_t = ET.find r w_t.
Proof.
  unfold ET.find, strip_placeholder_format. simpl.
  apply find_alter_first_other; [apply w_t_not_rPr | done].
Qed.

Lemma run_text_set_run_text s r :
  ET.find r w_t <> None -> run_text (set_run_text s r) = s.
Proof.
  intros H. unfold run_text. rewrite find_set_run_text.
  by destruct (ET.find r w_t).
Qed.

Lemma run_text_strip r : run_text (strip_placeholder_format r) = run_text r.
Proof. unfold run_text. by rewrite find_t_strip. Qed.

Lemma keeps_run_set_run_text s : keeps_run (set_run_text s).
Proof.
  intros r. split; [done|]. rewrite find_set_run_text.
  by destruct (ET.find r w_t).
Qed.

Lemma keeps_run_update g : keeps_run (update_run_text g).
Proof. intros r. apply keeps_run_set_run_text. Qed.

Lemma keeps_run_strip : keeps_run strip_placeholder_format.
Proof. intros r. split; [done|]. by rewrite find_t_strip. Qed.

(** The runs of a hyperlink are its children that are runs with a text
    element. *)
Lemma link_runs_filter cs :
  link_runs (List.filter (ET.has_tag w_r) cs) = List.filter is_link_run cs.
Proof.
  induction cs as [|c cs IH]; simpl; [done|]. unfold is_link_run at 1.
  destruct (ET.has_tag w_r c); simpl; [|done].
  destruct (ET.find c w_t) eqn:F; simpl.
  - by rewrite IH.
  - done.
Qed.

Lemma is_link_run_keeps f r :
  keeps_run f -> is_link_run (f r) = is_link_run r.
Proof.
  intros Hf. destruct (Hf r) as [Ht Hn]. unfold is_link_run.
  rewrite (has_tag_ext _ _ _ Ht). f_equal. apply bool_decide_ext.
  rewrite <- !not_eq_None_Some. by rewrite Hn.
Qed.

Lemma filter_alter_nth_sat P f k l :
  (forall x, P (f x) = P x) ->
  List.filter P (alter_nth_sat P f k l) = alter f k (List.filter P l).
Proof.
  intros HP. revert k. induction l as [|x l IH]; intros k; simpl; [done|].
  destruct (P x) eqn:E.
  - destruct k as [|k]; simpl.
    + by rewrite HP, E.
    + by rewrite E, IH.
  - simpl. by rewrite E, IH.
Qed.

Lemma runs_of_child_alter f k child :
  keeps_run f -> k < length (runs_of_child child) ->
  runs_of_child (alter_in_child f k child) = alter f k (runs_of_child child).
Proof.
  intros Hf. unfold runs_of_child, alter_in_child.
  destruct (ET.has_tag w_r child) eqn:Er.
  - destruct (Hf child) as [Ht Hn]. rewrite (has_tag_ext _ _ _ Ht), Er.
    destruct (ET.find child w_t) eqn:F; simpl; [|lia].
    intros Hk. assert (k = 0) as -> by lia. simpl.
    destruct (ET.find (f child) w_t) eqn:F'; [done|].
    destruct Hn as [Hn _]. discriminate (Hn eq_refl).
  - rewrite !has_tag_with_children, Er.
    destruct (ET.has_tag w_hyperlink child); simpl; [|lia].
    intros _. unfold ET.findall. simpl. rewrite !link_runs_filter.
    apply filter_alter_nth_sat. intros x. by apply is_link_run_keeps.
Qed.

(** Writing through [runs[k]] changes entry [k] of the list collected
    afterwards, and nothing else in it. *)
Lemma collect_runs_in_alter f k cs :
  keeps_run f ->
  collect_runs_in (alter_run_in f k cs) = alter f k (collect_runs_in cs).
Proof.
  intros Hf. revert k. induction cs as [|c cs IH]; intros k; simpl; [done|].
  destruct (Nat.ltb_spec k (length (runs_of_child c))) as [Hk|Hk]; simpl.
  - rewrite runs_of_child_alter by done. by rewrite alter_app_l.
  - rewrite IH. by rewrite alter_app_r_alt.
Qed.

Lemma collect_runs_alter f k para :
  keeps_run f ->
  collect_runs (alter_run f k para) = alter f k (collect_runs para).
Proof. intros Hf. unfold collect_runs. simpl. by apply collect_runs_in_alter. Qed.

Lemma collect_runs_foldl f idxs para :
  keeps_run f ->
  collect_runs (foldl (fun p idx => alter_run f idx p) para idxs)
  = foldl (fun l idx => alter f idx l) (collect_runs para) idxs.
Proof.
  intros Hf. revert para. induction idxs as [|i idxs IH]; intros para; simpl.
  - done.
  - by rewrite IH, collect_runs_alter.
Qed.

(** A write through [runs[k]] leaves the children of the paragraph in
    place: same number, same tags, in the same order. *)
Lemma alter_run_tags f k para :
  keeps_run f ->
  map e_tag (e_children (alter_run f k para)) = map e_tag (e_children para).
Proof.
  intros Hf. unfold alter_run. simpl. generalize (e_children para) as cs.
  intros cs. revert k. induction cs as [|c cs IH]; intros k; simpl; [done|].
  destruct (k <? length (runs_of_child c)); simpl; [|by rewrite IH].
  f_equal. unfold alter_in_child.
  destruct (ET.has_tag w_r c); [apply Hf | done].
Qed.

Lemma foldl_alter_run_tags f idxs para :
  keeps_run f ->
  map e_tag (e_children (foldl (fun p idx => alter_run f idx p) para idxs))
  = map e_tag (e_children para).
Proof.
  intros Hf. revert para. induction idxs as [|i idxs IH]; intros para; simpl.
  - done.
  - by rewrite IH, alter_run_tags.
Qed.

(** Every entry of [runs] is a [w:r] with a [w:t] child. *)
Lemma link_runs_has_t rs : Forall (fun r => ET.find r w_t <> None) (link_runs rs).
Proof.
  induction rs as [|r rs IH]; simpl; [constructor|].
  destruct (ET.find r w_t) eqn:F; [|done].
  constructor; [congruence | done].
Qed.

Lemma collect_runs_in_has_t cs :
  Forall (fun r => ET.find r w_t <> None) (collect_runs_in cs).
Proof.
  induction cs as [|c cs IH]; simpl; [constructor|].
  apply Forall_app. split; [|done]. unfold runs_of_child.
  destruct (ET.has_tag w_r c).
  - destruct (ET.find c w_t) eqn:F; repeat constructor. congruence.
  - destruct (ET.has_tag w_hyperlink c); [apply link_runs_has_t | constructor].
Qed.

Lemma collect_runs_has_t para :
  Forall (fun r => ET.find r w_t <> None) (collect_runs para).
Proof. apply collect_runs_in_has_t. Qed.

End RunFacts.

(** * One replacement, seen on the list of runs *)

Section StepFacts.

Import Bonterms.

Lemma lookup_foldl_alter_seq {A} (f : A -> A) (l : list A) a n k :
  foldl (fun l i => alter f i l) l (seq a n) !! k
  = if decide (a <= k < a + n) then f <$> l !! k else l !! k.
Proof.
  revert l a. induction n as [|n IH]; intros l a; simpl.
  - case_decide; [lia | done].
  - rewrite IH, list_lookup_alter.
    repeat case_decide; try lia; try done. by subst.
Qed.

Lemma find_of_nat s old p :
  Py.find_nat s old = Some p -> Py.find s old = Z.of_nat p.
Proof. unfold Py.find. by intros ->. Qed.

Ltac finish_lookup :=
  unfold update_run_text;
  match goal with
  | |- context [?l !! ?i] => destruct (l !! i); simpl; done
  end.

Lemma replace_step_runs para out old new pos si sc ei ec :
  Py.find_nat (build_full_text (collect_runs para)) old = Some pos ->
  Py.getitem (build_char_map (collect_runs para)) (Z.of_nat pos) = Some (si, sc) ->
  Py.getitem (build_char_map (collect_runs para))
             (Z.of_nat pos + Z.of_nat (length old) - 1) = Some (ei, ec) ->
  is_Some (collect_runs para !! si) -> is_Some (collect_runs para !! ei) ->
  si <= ei ->
  exists para',
    replace_step old new (mkState para out)
    = Continue (mkState para' (out ++ [PrintedReplaced old new])) /\
    collect_runs para' = imap (touch si sc ei ec old new) (collect_runs para) /\
    map e_tag (e_children para') = map e_tag (e_children para).
Proof.
  intros Hfind Hs He [rs Hrs] [re Hre] Hle.
  unfold replace_step. simpl.
  destruct (collect_runs para) as [|r0 runs0] eqn:Hruns; [done|].
  rewrite <- Hruns in *. clear r0 runs0 Hruns.
  rewrite (find_of_nat _ _ _ Hfind).
  destruct (Z.eqb_spec (Z.of_nat pos) (-1)); [lia|].
  rewrite Hs, He. unfold run_at. rewrite Hrs, Hre.
  eexists. split; [reflexivity|]. split; cycle 1.
  { rewrite foldl_alter_run_tags by apply keeps_run_strip.
    destruct (si =? ei).
    - apply alter_run_tags, keeps_run_update.
    - rewrite alter_run_tags by apply keeps_run_update.
      rewrite foldl_alter_run_tags by apply keeps_run_set_run_text.
      apply alter_run_tags, keeps_run_update. }
  rewrite collect_runs_foldl by apply keeps_run_strip.
  apply list_eq. intros k.
  unfold range. rewrite lookup_foldl_alter_seq, list_lookup_imap.
  unfold touch, new_text.
  pose proof (collect_runs_has_t para) as Hall.
  destruct (Nat.eqb_spec si ei) as [->|Hne].
  - rewrite collect_runs_alter, list_lookup_alter by apply keeps_run_update.
    destruct (Nat.leb_spec ei k), (Nat.leb_spec k ei), (Nat.eqb_spec k ei);
      repeat case_decide; try lia; simpl; try done.
    all: try subst k; finish_lookup.
  - rewrite collect_runs_alter by apply keeps_run_update.
    rewrite collect_runs_foldl by apply keeps_run_set_run_text.
    rewrite collect_runs_alter by apply keeps_run_update.
    repeat (rewrite list_lookup_alter || rewrite lookup_foldl_alter_seq).
    destruct (Nat.leb_spec si k), (Nat.leb_spec k ei), (Nat.eqb_spec k ei),
      (Nat.eqb_spec k si), (Nat.ltb_spec si k), (Nat.ltb_spec k ei);
      repeat case_decide; try lia; simpl; try done;
      try subst k; finish_lookup.
Qed.

End StepFacts.

(** * One replacement, seen on the list of texts *)

Section TextFacts.

Import Bonterms.

Lemma imap_same {A} (g : nat -> A -> A) (l : list A) :
  (forall k x, l !! k = Some x -> g k x = x) -> imap g l = l.
Proof.
  intros H. apply list_eq. intros k. rewrite list_lookup_imap.
  destruct (l !! k) eqn:E; simpl; [|done]. by rewrite (H _ _ E).
Qed.

Lemma concat_imap_nil {A} (g : nat -> list A -> list A) (l : list (list A)) :
  (forall k x, l !! k = Some x -> g k x = []) -> concat (imap g l) = [].
Proof.
  revert g. induction l as [|x l IH]; intros g H; [done|].
  rewrite imap_cons. simpl. rewrite (H 0 x eq_refl). simpl.
  apply IH. intros k y Hk. apply (H (S k)). done.
Qed.

Lemma split_two (texts : list str) si ei ti tj :
  si < ei -> texts !! si = Some ti -> texts !! ei = Some tj ->
  exists A M B, texts = A ++ ti :: M ++ tj :: B /\
                length A = si /\ length M = ei - S si.
Proof.
  intros Hlt Hi Hj.
  pose proof (lookup_lt_Some _ _ _ Hi) as Li.
  pose proof (lookup_lt_Some _ _ _ Hj) as Lj.
  assert (Hj' : drop (S si) texts !! (ei - S si) = Some tj).
  { rewrite lookup_drop. rewrite <- Hj. f_equal. lia. }
  exists (take si texts), (take (ei - S si) (drop (S si) texts)),
         (drop (S (ei - S si)) (drop (S si) texts)).
  split; [|split].
  - rewrite (take_drop_middle _ _ _ Hj'). by rewrite (take_drop_middle _ _ _ Hi).
  - rewrite length_take. lia.
  - rewrite length_take, length_drop. lia.
Qed.

(** Where a non-empty match starts and ends. *)
Lemma match_positions (texts : list str) old pos :
  old <> [] -> Py.find_nat (concat texts) old = Some pos ->
  exists si sc ei ec ti tj,
    char_map_from 0 texts !! pos = Some (si, sc) /\
    char_map_from 0 texts !! (pos + length old - 1) = Some (ei, ec) /\
    texts !! si = Some ti /\ texts !! ei = Some tj /\
    sc < length ti /\ ec < length tj /\
    pos = offset texts si + sc /\
    pos + length old - 1 = offset texts ei + ec /\
    si <= ei.
Proof.
  intros Hne Hf. destruct (find_nat_Some _ _ _ Hf) as [Hocc _].
  apply occurs_at_bound in Hocc.
  assert (0 < length old) by (destruct old; [done | simpl; lia]).
  destruct (char_map_is_Some texts pos) as [[si sc] Hs]; [lia|].
  destruct (char_map_is_Some texts (pos + length old - 1)) as [[ei ec] He]; [lia|].
  destruct (char_map_lookup _ _ _ _ Hs) as (ti & Hti & Hsc & Hp).
  destruct (char_map_lookup _ _ _ _ He) as (tj & Htj & Hec & Hq).
  exists si, sc, ei, ec, ti, tj. repeat split; try done.
  destruct (decide (si <= ei)) as [|Hgt]; [done|]. exfalso.
  pose proof (offset_succ _ _ _ Htj) as Hsucc.
  pose proof (offset_mono texts (S ei) si ltac:(lia)). lia.
Qed.

Lemma new_text_result (texts : list str) old new pos si sc ei ec ti tj :
  texts !! si = Some ti -> texts !! ei = Some tj ->
  sc < length ti -> ec < length tj ->
  pos = offset texts si + sc ->
  pos + length old - 1 = offset texts ei + ec ->
  old <> [] -> si <= ei ->
  Py.find_nat (concat texts) old = Some pos ->
  concat (imap (new_text si sc ei ec old new) texts)
  = take pos (concat texts) ++ new ++ drop (pos + length old) (concat texts).
Proof.
  intros Hti Htj Hsc Hec Hp Hq Hne Hle Hf.
  assert (Hlen : 0 < length old) by (destruct old; [done | simpl; lia]).
  destruct (find_nat_Some _ _ _ Hf) as [Hocc Hmin].
  destruct (decide (si = ei)) as [<-|Hneq].
  - (* the match lies within one run *)
    assert (tj = ti) as -> by congruence.
    pose proof (concat_split _ _ _ Hti) as Hfull.
    assert (Hfind : Py.find_nat ti old = Some sc).
    { apply find_nat_first.
      - apply (occurs_at_middle (concat (take si texts)) ti
                                (concat (drop (S si) texts))); [|lia].
        rewrite <- Hfull. rewrite <- offset_eq, <- Hp. done.
      - intros q Hqlt Hq'. apply (Hmin (offset texts si + q)); [lia|].
        rewrite Hfull, offset_eq. by apply occurs_at_embed. }
    rewrite <- (take_drop_middle _ _ _ Hti) at 1.
    rewrite imap_app, imap_cons.
    rewrite (imap_same _ (take si texts)), (imap_same _ (drop (S si) texts)).
    + rewrite length_take_le by (apply lookup_lt_Some in Hti; lia).
      unfold new_text at 1. rewrite Nat.eqb_refl.
      replace (si + 0 =? si) with true by (symmetry; apply Nat.eqb_eq; lia).
      unfold Py.replace1. rewrite Hfind.
      rewrite concat_app, concat_cons, Hfull, Hp, offset_eq.
      rewrite take_app_add, take_app_le by lia.
      rewrite <- Nat.add_assoc, drop_app_add, drop_app_le by lia.
      by rewrite <- !app_assoc.
    + intros k x _. unfold new_text. simpl. rewrite Nat.eqb_refl.
      rewrite length_take_le by (apply lookup_lt_Some in Hti; lia).
      replace (si + S k =? si) with false by (symmetry; apply Nat.eqb_neq; lia).
      done.
    + intros k x Hk. unfold new_text. rewrite Nat.eqb_refl.
      apply lookup_lt_Some in Hk. rewrite length_take in Hk.
      replace (k =? si) with false by (symmetry; apply Nat.eqb_neq; lia).
      done.
  - (* the match spans several runs *)
    destruct (split_two texts si ei ti tj) as (A & M & B & -> & HA & HM);
      [lia | done | done |].
    assert (Hoi : offset (A ++ ti :: M ++ tj :: B) si = length (concat A)).
    { rewrite offset_eq. by rewrite take_app_length'. }
    assert (Hoj : offset (A ++ ti :: M ++ tj :: B) ei
                  = length (concat A) + length ti + length (concat M)).
    { rewrite offset_eq.
      replace (A ++ ti :: M ++ tj :: B) with ((A ++ ti :: M) ++ tj :: B)
        by (by rewrite <- app_assoc).
      rewrite take_app_length' by (rewrite length_app; simpl; lia).
      rewrite concat_app, concat_cons, !length_app. lia. }
    rewrite Hoi in Hp. rewrite Hoj in Hq.
    rewrite imap_app, imap_cons, imap_app, imap_cons.
    rewrite (imap_same _ A), (imap_same _ B).
    + rewrite !concat_app, !concat_cons, !concat_app, !concat_cons.
      rewrite concat_imap_nil.
      * rewrite HA, HM. unfold new_text. simpl.
        replace (si =? ei) with false by (symmetry; apply Nat.eqb_neq; lia).
        replace (si + 0 =? si) with true by (symmetry; apply Nat.eqb_eq; lia).
        replace (si + S (ei - S si + 0) =? si) with false
          by (symmetry; apply Nat.eqb_neq; lia).
        replace (si + S (ei - S si + 0) =? ei) with true
          by (symmetry; apply Nat.eqb_eq; lia).
        replace (si <? si + S (ei - S si + 0)) with true
          by (symmetry; apply Nat.ltb_lt; lia).
        replace (si + S (ei - S si + 0) <? ei) with false
          by (symmetry; apply Nat.ltb_ge; lia).
        simpl. rewrite Hp.
        rewrite take_app_add, take_app_le by lia.
        replace (length (concat A) + sc + length old)
          with (length (concat A) + (length ti + (length (concat M) + (ec + 1))))
          by lia.
        rewrite drop_app_add, drop_app_add, drop_app_add, drop_app_le by lia.
        by rewrite <- !app_assoc.
      * intros k x Hk. unfold new_text. simpl. apply lookup_lt_Some in Hk.
        replace (si =? ei) with false by (symmetry; apply Nat.eqb_neq; lia).
        rewrite HA.
        replace (si + S k =? si) with false by (symmetry; apply Nat.eqb_neq; lia).
        replace (si <? si + S k) with true by (symmetry; apply Nat.ltb_lt; lia).
        replace (si + S k <? ei) with true by (symmetry; apply Nat.ltb_lt; lia).
        done.
    + intros k x _. unfold new_text. simpl. rewrite HA, HM.
      replace (si =? ei) with false by (symmetry; apply Nat.eqb_neq; lia).
      replace (si + S (ei - S si + S k) =? si) with false
        by (symmetry; apply Nat.eqb_neq; lia).
      replace (si + S (ei - S si + S k) <? ei) with false
        by (symmetry; apply Nat.ltb_ge; lia).
      replace (si + S (ei - S si + S k) =? ei) with false
        by (symmetry; apply Nat.eqb_neq; lia).
      by rewrite andb_false_r.
    + intros k x Hk. unfold new_text. apply lookup_lt_Some in Hk.
      replace (si =? ei) with false by (symmetry; apply Nat.eqb_neq; lia).
      replace (k =? si) with false by (symmetry; apply Nat.eqb_neq; lia).
      replace (si <? k) with false by (symmetry; apply Nat.ltb_ge; lia).
      replace (k =? ei) with false by (symmetry; apply Nat.eqb_neq; lia).
      done.
Qed.

End TextFacts.

(** * replace_bracketed_in_para: one pair [(old, new)] *)

Section ReplaceFacts.

Import Bonterms.

Lemma paragraph_text_eq para :
  paragraph_text para = build_full_text (collect_runs para).
Proof. reflexivity. Qed.

Lemma new_text_outside si sc ei ec old new k t :
  si <= ei -> ~ (si <= k <= ei) -> new_text si sc ei ec old new k t = t.
Proof.
  intros Hle Hk. unfold new_text.
  destruct (Nat.eqb_spec si ei), (Nat.eqb_spec k si), (Nat.eqb_spec k ei),
    (Nat.ltb_spec si k), (Nat.ltb_spec k ei); simpl; try done; lia.
Qed.

Lemma run_text_touch si sc ei ec old new k r :
  si <= ei -> ET.find r w_t <> None ->
  run_text (touch si sc ei ec old new k r)
  = new_text si sc ei ec old new k (run_text r).
Proof.
  intros Hle Ht. unfold touch.
  destruct (Nat.leb_spec si k), (Nat.leb_spec k ei); simpl;
    try (rewrite new_text_outside by lia; done).
  by rewrite run_text_strip, run_text_set_run_text.
Qed.

Lemma run_texts_touch si sc ei ec old new runs :
  si <= ei -> Forall (fun r => ET.find r w_t <> None) runs ->
  map run_text (imap (touch si sc ei ec old new) runs)
  = imap (new_text si sc ei ec old new) (map run_text runs).
Proof.
  intros Hle Hall. apply list_eq. intros k.
  rewrite list_lookup_fmap, !list_lookup_imap, list_lookup_fmap.
  destruct (runs !! k) as [r|] eqn:E; simpl; [|done].
  f_equal. apply run_text_touch; [done|].
  by apply (Forall_lookup_1 _ _ _ _ Hall E).
Qed.

Lemma rewritten_touch si sc ei ec old new k r :
  rewritten r (touch si sc ei ec old new k r).
Proof.
  unfold touch. destruct ((si <=? k) && (k <=? ei)); [right; eauto | by left].
Qed.

(** A non-empty [old] that occurs is replaced, and here is what the step
    leaves behind. *)
Lemma replace_step_nonempty para out old new pos :
  old <> [] -> Py.find_nat (paragraph_text para) old = Some pos ->
  exists para' si sc ei ec ti tj,
    replace_step old new (mkState para out)
    = Continue (mkState para' (out ++ [PrintedReplaced old new])) /\
    collect_runs para' = imap (touch si sc ei ec old new) (collect_runs para) /\
    map e_tag (e_children para') = map e_tag (e_children para) /\
    run_texts para !! si = Some ti /\ run_texts para !! ei = Some tj /\
    sc < length ti /\ ec < length tj /\
    pos = offset (run_texts para) si + sc /\
    pos + length old - 1 = offset (run_texts para) ei + ec /\
    si <= ei.
Proof.
  intros Hne Hf.
  destruct (match_positions _ _ _ Hne Hf)
    as (si & sc & ei & ec & ti & tj & Hs & He & Hti & Htj & Hsc & Hec & Hp & Hq & Hle).
  assert (Hlen : 0 < length old) by (destruct old; [done | simpl; lia]).
  destruct (replace_step_runs para out old new pos si sc ei ec)
    as (para' & Hstep & Hruns & Htags); try done.
  - by rewrite getitem_nonneg.
  - replace (Z.of_nat pos + Z.of_nat (length old) - 1)%Z
      with (Z.of_nat (pos + length old - 1)) by lia.
    by rewrite getitem_nonneg.
  - unfold run_texts in Hti. rewrite list_lookup_fmap in Hti.
    destruct (collect_runs para !! si); [eauto | done].
  - unfold run_texts in Htj. rewrite list_lookup_fmap in Htj.
    destruct (collect_runs para !! ei); [eauto | done].
  - exists para', si, sc, ei, ec, ti, tj. repeat split; done.
Qed.

(** When [old] is absent, or the paragraph has no runs, the step changes
    nothing. *)
Lemma replace_step_noop para out old new :
  collect_runs para = [] \/ ~ occurs (paragraph_text para) old ->
  replace_step old new (mkState para out) = Return (mkState para out) \/
  replace_step old new (mkState para out) = Continue (mkState para out).
Proof.
  intros H. unfold replace_step. simpl.
  destruct (collect_runs para) as [|r0 runs0] eqn:Hruns; [by left|].
  rewrite <- Hruns in *. destruct H as [H|H]; [congruence|].
  apply find_absent in H. rewrite paragraph_text_eq in H. rewrite H.
  by right.
Qed.

Lemma replace_noop para out old new :
  collect_runs para = [] \/ ~ occurs (paragraph_text para) old ->
  replace_bracketed_in_para para [(old, new)] out
  = Ok (PyNone, mkState para out).
Proof.
  intros H. unfold replace_bracketed_in_para. simpl.
  by destruct (replace_step_noop para out old new H) as [-> | ->].
Qed.

Lemma occurs_find_nat s old :
  occurs s old -> exists pos, Py.find_nat s old = Some pos.
Proof.
  intros H. destruct (Py.find_nat s old) eqn:F; [eauto|].
  by apply find_nat_None in F.
Qed.

(** The run indices in the character map never decrease. *)
Lemma char_map_mono (texts : list str) p q si sc ei ec :
  char_map_from 0 texts !! p = Some (si, sc) ->
  char_map_from 0 texts !! q = Some (ei, ec) ->
  p <= q -> si <= ei.
Proof.
  intros Hp Hq Hle.
  destruct (char_map_lookup _ _ _ _ Hp) as (ti & Hti & Hsc & Hp').
  destruct (char_map_lookup _ _ _ _ Hq) as (tj & Htj & Hec & Hq').
  destruct (decide (si <= ei)) as [|Hgt]; [done|]. exfalso.
  pose proof (offset_succ _ _ _ Htj).
  pose proof (offset_mono texts (S ei) si ltac:(lia)). lia.
Qed.

Lemma find_nat_empty s : Py.find_nat s [] = Some 0.
Proof. by destruct s. Qed.

(** The second lookup, [char_map[pos + len(old) - 1]], reads an entry at or
    after [pos]: the last character of a non-empty match, or, for the empty
    [old] (found at [0]), index [-1], the last entry of the map. *)
Lemma getitem_end {A} (l : list A) s old pos x :
  Py.find_nat s old = Some pos ->
  Py.getitem l (Z.of_nat pos + Z.of_nat (length old) - 1) = Some x ->
  exists q, pos <= q /\ l !! q = Some x.
Proof.
  intros Hf Hg. destruct old as [|c old].
  - rewrite find_nat_empty in Hf. injection Hf as <-.
    change (Z.of_nat 0 + Z.of_nat (length (@nil ascii)) - 1)%Z with (-1)%Z in Hg.
    unfold Py.getitem in Hg.
    destruct (Z.leb_spec 0 (-1)); [lia|].
    destruct (Z.leb_spec 0 (Z.of_nat (length l) + -1)); [|done].
    eexists. split; [|exact Hg]. lia.
  - exists (pos + length (c :: old) - 1). split; [simpl; lia|].
    rewrite <- getitem_nonneg. rewrite <- Hg. f_equal. simpl. lia.
Qed.

(** Whenever [old] is found and the two lookups succeed, the step replaces:
    this is the loop body past line 412, for any [old]. *)
Lemma replace_step_found para out old new pos si sc ei ec :
  Py.find_nat (paragraph_text para) old = Some pos ->
  Py.getitem (build_char_map (collect_runs para)) (Z.of_nat pos) = Some (si, sc) ->
  Py.getitem (build_char_map (collect_runs para))
             (Z.of_nat pos + Z.of_nat (length old) - 1) = Some (ei, ec) ->
  exists para' ti tj,
    replace_step old new (mkState para out)
    = Continue (mkState para' (out ++ [PrintedReplaced old new])) /\
    collect_runs para' = imap (touch si sc ei ec old new) (collect_runs para) /\
    run_texts para' = imap (new_text si sc ei ec old new) (run_texts para) /\
    run_texts para !! si = Some ti /\ run_texts para !! ei = Some tj /\
    si <= ei /\ pos = offset (run_texts para) si + sc.
Proof.
  intros Hf Hs He.
  pose proof Hs as Hs'. rewrite getitem_nonneg in Hs'.
  destruct (getitem_end _ _ _ _ _ Hf He) as (q & Hq & He').
  unfold build_char_map in Hs', He'. fold (run_texts para) in Hs', He'.
  pose proof (char_map_mono _ _ _ _ _ _ _ Hs' He' Hq) as Hle.
  destruct (char_map_lookup _ _ _ _ Hs') as (ti & Hti & _ & Hp).
  destruct (char_map_lookup _ _ _ _ He') as (tj & Htj & _ & _).
  destruct (replace_step_runs para out old new pos si sc ei ec)
    as (para' & Hstep & Hruns & _); try done.
  - unfold run_texts in Hti. rewrite list_lookup_fmap in Hti.
    destruct (collect_runs para !! si); [eauto | done].
  - unfold run_texts in Htj. rewrite list_lookup_fmap in Htj.
    destruct (collect_runs para !! ei); [eauto | done].
  - exists para', ti, tj. repeat split; try done.
    unfold run_texts at 1. rewrite Hruns.
    apply run_texts_touch; [done | apply collect_runs_has_t].
Qed.

End ReplaceFacts.

(** * Properties of the specification *)

(** C1.  For every paragraph and every non-empty [S] that occurs in the
    concatenation of its run texts (in particular one that occurs exactly
    once), [replace_bracketed_in_para] with [old = S] and [new = R] returns
    normally and leaves a paragraph whose concatenated run text is the
    original with the first occurrence of [S] replaced by [R]: the text
    before the first occurrence and the text after it are kept.  The number
    of runs is unchanged and the runs stay in their order: entry [k] of the
    new list of runs is entry [k] of the old one, untouched or rewritten in
    place, and the children of the paragraph keep their tags and order. *)
Theorem replace_bracketed_first_occurrence
        (para : Element) (S R : str) (out : list printed) :
  S <> [] ->
  occurs (paragraph_text para) S ->
  exists para' before after,
    Bonterms.replace_bracketed_in_para para [(S, R)] out
    = Ok (PyNone, Bonterms.mkState para' (out ++ [PrintedReplaced S R])) /\
    paragraph_text para = before ++ S ++ after /\
    (forall q, q < length before -> ~ occurs_at (paragraph_text para) S q) /\
    paragraph_text para' = before ++ R ++ after /\
    length (Bonterms.collect_runs para') = length (Bonterms.collect_runs para) /\
    (forall k r, Bonterms.collect_runs para !! k = Some r ->
                 exists r', Bonterms.collect_runs para' !! k = Some r' /\
                            rewritten r r') /\
    map e_tag (e_children para') = map e_tag (e_children para).
Proof.
  intros Hne Hocc.
  destruct (occurs_find_nat _ _ Hocc) as [pos Hf].
  destruct (replace_step_nonempty para out S R pos Hne Hf)
    as (para' & si & sc & ei & ec & ti & tj & Hstep & Hruns & Htags
        & Hti & Htj & Hsc & Hec & Hp & Hq & Hle).
  destruct (find_nat_Some _ _ _ Hf) as [Hat Hmin].
  exists para', (take pos (paragraph_text para)),
         (drop (pos + length S) (paragraph_text para)).
  assert (Hpos : pos <= length (paragraph_text para)).
  { apply occurs_at_bound in Hat. lia. }
  repeat split.
  - unfold Bonterms.replace_bracketed_in_para. simpl. by rewrite Hstep.
  - by apply occurs_at_take_drop.
  - intros q Hq'. rewrite length_take in Hq'. apply Hmin. lia.
  - unfold paragraph_text at 1, run_texts. rewrite Hruns.
    rewrite run_texts_touch by (done || apply collect_runs_has_t).
    by apply (new_text_result (run_texts para) S R pos si sc ei ec ti tj).
  - by rewrite Hruns, length_imap.
  - intros k r Hk. exists (touch si sc ei ec S R k r). split.
    + by rewrite Hruns, list_lookup_imap, Hk.
    + apply rewritten_touch.
  - done.
Qed.

Lemma replace_bracketed_first_occurrence_witness :
  s_ "[Customer]" <> [] /\
  occurs (paragraph_text Bonterms.customer_para) (s_ "[Customer]") /\
  exists para' before after,
    Bonterms.replace_bracketed_in_para
      Bonterms.customer_para [(s_ "[Customer]", s_ "{customer_name}")] []
    = Ok (PyNone,
          Bonterms.mkState para'
            ([] ++ [PrintedReplaced (s_ "[Customer]") (s_ "{customer_name}")])) /\
    paragraph_text Bonterms.customer_para = before ++ s_ "[Customer]" ++ after /\
    (forall q, q < length before ->
               ~ occurs_at (paragraph_text Bonterms.customer_para) (s_ "[Customer]") q) /\
    paragraph_text para' = before ++ s_ "{customer_name}" ++ after /\
    length (Bonterms.collect_runs para')
    = length (Bonterms.collect_runs Bonterms.customer_para) /\
    (forall k r, Bonterms.collect_runs Bonterms.customer_para !! k = Some r ->
                 exists r', Bonterms.collect_runs para' !! k = Some r' /\
                            rewritten r r') /\
    map e_tag (e_children para') = map e_tag (e_children Bonterms.customer_para).
Proof.
  split; [by vm_compute|].
  split; [apply contains_occurs; by vm_compute|].
  apply replace_bracketed_first_occurrence.
  - by vm_compute.
  - apply contains_occurs. by vm_compute.
Defined.

(** C2.  Cross-span case.  When the match of [old] starts in run [i] and
    ends in a later run [j], [replace_bracketed_in_para] sets the text of
    run [i] to the part of its text before the match followed by [new],
    sets the text of every run strictly between [i] and [j] to the empty
    string, and sets the text of run [j] to the part of its text after the
    match; the runs outside keep their text.  This is stated twice: on the
    two entries of the character map that the code reads (for any [old]),
    and, for a non-empty [old], on the positions of the first and the last
    character of the match in the concatenated text.  In particular the
    runs ["["], ["Customer"], ["]"] with [old = "[Customer]"] and
    [new = "{customer_name}"] end with the texts ["{customer_name}"], [""],
    [""]. *)
Theorem replace_bracketed_cross_span :
  (forall (para : Element) (old new : str) (out : list printed)
          (pos i sc j ec : nat),
      Py.find_nat (paragraph_text para) old = Some pos ->
      Py.getitem (Bonterms.build_char_map (Bonterms.collect_runs para))
                 (Z.of_nat pos) = Some (i, sc) ->
      Py.getitem (Bonterms.build_char_map (Bonterms.collect_runs para))
                 (Z.of_nat pos + Z.of_nat (length old) - 1) = Some (j, ec) ->
      i < j ->
      exists para' ti tj,
        Bonterms.replace_bracketed_in_para para [(old, new)] out
        = Ok (PyNone, Bonterms.mkState para' (out ++ [PrintedReplaced old new])) /\
        run_texts para !! i = Some ti /\ run_texts para !! j = Some tj /\
        pos = offset (run_texts para) i + sc /\
        run_texts para' !! i = Some (take sc ti ++ new) /\
        (forall k, i < k < j -> run_texts para' !! k = Some []) /\
        run_texts para' !! j = Some (drop (ec + 1) tj) /\
        (forall k, k < i \/ j < k -> run_texts para' !! k = run_texts para !! k)) /\
  (forall (para : Element) (old new : str) (out : list printed)
          (pos i j : nat) (ti tj : str),
      old <> [] ->
      Py.find_nat (paragraph_text para) old = Some pos ->
      run_texts para !! i = Some ti ->
      run_texts para !! j = Some tj ->
      offset (run_texts para) i <= pos < offset (run_texts para) i + length ti ->
      offset (run_texts para) j <= pos + length old - 1
        < offset (run_texts para) j + length tj ->
      i < j ->
      exists para',
        Bonterms.replace_bracketed_in_para para [(old, new)] out
        = Ok (PyNone, Bonterms.mkState para' (out ++ [PrintedReplaced old new])) /\
        run_texts para' !! i
        = Some (take (pos - offset (run_texts para) i) ti ++ new) /\
        (forall k, i < k < j -> run_texts para' !! k = Some []) /\
        run_texts para' !! j
        = Some (drop (pos + length old - offset (run_texts para) j) tj)) /\
  (exists para',
      Bonterms.replace_bracketed_in_para
        Bonterms.customer_para [(s_ "[Customer]", s_ "{customer_name}")] []
      = Ok (PyNone,
            Bonterms.mkState para'
              [PrintedReplaced (s_ "[Customer]") (s_ "{customer_name}")]) /\
      run_texts para' = [s_ "{customer_name}"; s_ ""; s_ ""]).
Proof.
  split; [|split].
  - intros para old new out pos i sc j ec Hf Hs He Hlt.
    destruct (replace_step_found para out old new pos i sc j ec Hf Hs He)
      as (para' & ti & tj & Hstep & _ & Htexts & Hi & Hj & _ & Hp).
    exists para', ti, tj.
    split; [unfold Bonterms.replace_bracketed_in_para; simpl; by rewrite Hstep|].
    do 3 (split; [done|]).
    split; [|split; [|split]].
    + rewrite Htexts, list_lookup_imap, Hi. simpl. unfold new_text.
      replace (i =? j) with false by (symmetry; apply Nat.eqb_neq; lia).
      by rewrite Nat.eqb_refl.
    + intros k Hk. rewrite Htexts, list_lookup_imap.
      destruct (lookup_lt_is_Some_2 (run_texts para) k) as [t Ht].
      { apply lookup_lt_Some in Hj. lia. }
      rewrite Ht. simpl. unfold new_text.
      replace (i =? j) with false by (symmetry; apply Nat.eqb_neq; lia).
      replace (k =? i) with false by (symmetry; apply Nat.eqb_neq; lia).
      replace (i <? k) with true by (symmetry; apply Nat.ltb_lt; lia).
      replace (k <? j) with true by (symmetry; apply Nat.ltb_lt; lia).
      done.
    + rewrite Htexts, list_lookup_imap, Hj. simpl. unfold new_text.
      replace (i =? j) with false by (symmetry; apply Nat.eqb_neq; lia).
      replace (j =? i) with false by (symmetry; apply Nat.eqb_neq; lia).
      replace (i <? j) with true by (symmetry; apply Nat.ltb_lt; lia).
      by rewrite Nat.ltb_irrefl, Nat.eqb_refl.
    + intros k Hk. rewrite Htexts, list_lookup_imap.
      destruct (run_texts para !! k) as [t|]; [|done]. simpl.
      rewrite new_text_outside by lia. done.
  - intros para old new out pos i j ti tj Hne Hf Hi Hj Hpi Hpj Hlt.
    destruct (replace_step_nonempty para out old new pos Hne Hf)
      as (para' & si & sc & ei & ec & ti' & tj' & Hstep & Hruns & _
          & Hti & Htj & Hsc & Hec & Hp & Hq & Hle).
    assert (si = i) as -> by (apply (offset_unique _ _ _ _ _ pos Hti Hi); lia).
    assert (ei = j) as ->
      by (apply (offset_unique _ _ _ _ _ (pos + length old - 1) Htj Hj); lia).
    assert (ti' = ti) as -> by congruence.
    assert (tj' = tj) as -> by congruence.
    assert (Hlen : 0 < length old) by (destruct old; [done | simpl; lia]).
    assert (Htexts : run_texts para'
                     = imap (new_text i sc j ec old new) (run_texts para)).
    { unfold run_texts. rewrite Hruns.
      apply run_texts_touch; [done | apply collect_runs_has_t]. }
    exists para'. split; [|split; [|split]].
    + unfold Bonterms.replace_bracketed_in_para. simpl. by rewrite Hstep.
    + rewrite Htexts, list_lookup_imap, Hi. simpl. unfold new_text.
      replace (i =? j) with false by (symmetry; apply Nat.eqb_neq; lia).
      rewrite Nat.eqb_refl. do 3 f_equal. lia.
    + intros k Hk. rewrite Htexts, list_lookup_imap.
      destruct (lookup_lt_is_Some_2 (run_texts para) k) as [t Ht].
      { apply lookup_lt_Some in Hj. lia. }
      rewrite Ht. simpl. unfold new_text.
      replace (i =? j) with false by (symmetry; apply Nat.eqb_neq; lia).
      replace (k =? i) with false by (symmetry; apply Nat.eqb_neq; lia).
      replace (i <? k) with true by (symmetry; apply Nat.ltb_lt; lia).
      replace (k <? j) with true by (symmetry; apply Nat.ltb_lt; lia).
      done.
    + rewrite Htexts, list_lookup_imap, Hj. simpl. unfold new_text.
      replace (i =? j) with false by (symmetry; apply Nat.eqb_neq; lia).
      replace (j =? i) with false by (symmetry; apply Nat.eqb_neq; lia).
      replace (i <? j) with true by (symmetry; apply Nat.ltb_lt; lia).
      rewrite Nat.ltb_irrefl, Nat.eqb_refl. simpl. do 2 f_equal. lia.
  - eexists. split; by vm_compute.
Qed.

Lemma replace_bracketed_cross_span_witness :
  s_ "[Customer]" <> [] /\
  Py.find_nat (paragraph_text Bonterms.customer_para) (s_ "[Customer]") = Some 0 /\
  run_texts Bonterms.customer_para !! 0 = Some (s_ "[") /\
  run_texts Bonterms.customer_para !! 2 = Some (s_ "]") /\
  exists para',
    Bonterms.replace_bracketed_in_para
      Bonterms.customer_para [(s_ "[Customer]", s_ "{customer_name}")] []
    = Ok (PyNone,
          Bonterms.mkState para'
            ([] ++ [PrintedReplaced (s_ "[Customer]") (s_ "{customer_name}")])) /\
    run_texts para' !! 0
    = Some (take (0 - offset (run_texts Bonterms.customer_para) 0) (s_ "[")
            ++ s_ "{customer_name}") /\
    (forall k, 0 < k < 2 -> run_texts para' !! k = Some []) /\
    run_texts para' !! 2
    = Some (drop (0 + length (s_ "[Customer]")
                  - offset (run_texts Bonterms.customer_para) 2) (s_ "]")).
Proof.
  split; [by vm_compute|]. split; [by vm_compute|].
  split; [by vm_compute|]. split; [by vm_compute|].
  apply (proj1 (proj2 replace_bracketed_cross_span)); try (by vm_compute);
    vm_compute; lia.
Defined.

(** C4 (amended).  For every paragraph and every [S] absent from the
    concatenation of its run texts, and for every paragraph with no runs at
    all, [replace_bracketed_in_para] with [old = S] mutates nothing (the
    paragraph is the same tree, text and formatting), prints nothing,
    raises no error, and returns [None], as it does on every path: the
    function has no boolean result. *)
Theorem replace_bracketed_absent
        (para : Element) (S R : str) (out : list printed) :
  Bonterms.collect_runs para = [] \/ ~ occurs (paragraph_text para) S ->
  Bonterms.replace_bracketed_in_para para [(S, R)] out
  = Ok (PyNone, Bonterms.mkState para out).
Proof. apply replace_noop. Qed.

Lemma replace_bracketed_absent_witness :
  (Bonterms.collect_runs Bonterms.customer_para = [] \/
   ~ occurs (paragraph_text Bonterms.customer_para) (s_ "[Provider]")) /\
  Bonterms.replace_bracketed_in_para
    Bonterms.customer_para [(s_ "[Provider]", s_ "{provider_name}")] []
  = Ok (PyNone, Bonterms.mkState Bonterms.customer_para []).
Proof.
  assert (H : ~ occurs (paragraph_text Bonterms.customer_para) (s_ "[Provider]")).
  { intros H. apply contains_occurs in H. by vm_compute in H. }
  split; [by right|]. apply replace_bracketed_absent. by right.
Defined.

(** C4 as stated fails on the return value: with [S] absent the call does
    not return [False]. *)
Lemma replace_bracketed_absent_not_false :
  ~ occurs (paragraph_text Bonterms.customer_para) (s_ "[Provider]") /\
  Bonterms.replace_bracketed_in_para
    Bonterms.customer_para [(s_ "[Provider]", s_ "{provider_name}")] []
  <> Ok (PyBool false, Bonterms.mkState Bonterms.customer_para []).
Proof.
  split.
  - intros H. apply contains_occurs in H. by vm_compute in H.
  - by vm_compute.
Qed.

(** C8.  When [S] does not occur in the paragraph text that the first call
    leaves, calling [replace_bracketed_in_para] a second time with the same
    [S] and [R] leaves the state of the first call as it is: two calls
    yield what one call yields. *)
Theorem replace_bracketed_idempotent
        (para : Element) (S R : str) (out : list printed)
        (s1 : Bonterms.state) :
  Bonterms.replace_bracketed_in_para para [(S, R)] out = Ok (PyNone, s1) ->
  ~ occurs (paragraph_text (Bonterms.st_elem s1)) S ->
  match Bonterms.replace_bracketed_in_para para [(S, R)] out with
  | Ok (_, s) =>
      Bonterms.replace_bracketed_in_para
        (Bonterms.st_elem s) [(S, R)] (Bonterms.st_out s)
  | Raise e => Raise e
  end
  = Bonterms.replace_bracketed_in_para para [(S, R)] out.
Proof.
  intros H1 Habs. rewrite H1. destruct s1 as [para1 out1]. simpl in *.
  apply replace_noop. by right.
Qed.

Lemma replace_bracketed_idempotent_witness :
  let S := s_ "[Customer]" in
  let R := s_ "{customer_name}" in
  let s1 := Bonterms.mkState
              (Bonterms.para_elem
                 [Bonterms.plain_run "{customer_name}"; Bonterms.plain_run "";
                  Bonterms.plain_run ""])
              [PrintedReplaced S R] in
  Bonterms.replace_bracketed_in_para Bonterms.customer_para [(S, R)] []
  = Ok (PyNone, s1) /\
  ~ occurs (paragraph_text (Bonterms.st_elem s1)) S /\
  match Bonterms.replace_bracketed_in_para Bonterms.customer_para [(S, R)] [] with
  | Ok (_, s) =>
      Bonterms.replace_bracketed_in_para
        (Bonterms.st_elem s) [(S, R)] (Bonterms.st_out s)
  | Raise e => Raise e
  end
  = Bonterms.replace_bracketed_in_para Bonterms.customer_para [(S, R)] [].
Proof.
  intros S R s1.
  assert (H1 : Bonterms.replace_bracketed_in_para Bonterms.customer_para [(S, R)] []
               = Ok (PyNone, s1)) by (by vm_compute).
  assert (H2 : ~ occurs (paragraph_text (Bonterms.st_elem s1)) S).
  { intros H. apply contains_occurs in H. by vm_compute in H. }
  split; [done|]. split; [done|].
  exact (replace_bracketed_idempotent Bonterms.customer_para S R [] s1 H1 H2).
Defined.

(** C10.  In [replace_bracketed_in_para], for every paragraph with at least
    one run and every non-empty [old] found at position [pos] of the
    concatenated text, the two lookups [char_map[pos]] and
    [char_map[pos + len(old) - 1]] are in range.  The non-emptiness of [old]
    is needed: with [old = ""] and every run text empty, [find] returns [0],
    the end index is [-1], the character map is empty, the lookup is out of
    range and the call raises [IndexError]. *)
Theorem char_map_lookups_in_range :
  (forall (para : Element) (old : str) (pos : nat),
      Bonterms.collect_runs para <> [] ->
      old <> [] ->
      Py.find (paragraph_text para) old = Z.of_nat pos ->
      is_Some (Py.getitem (Bonterms.build_char_map (Bonterms.collect_runs para))
                          (Z.of_nat pos)) /\
      is_Some (Py.getitem (Bonterms.build_char_map (Bonterms.collect_runs para))
                          (Z.of_nat pos + Z.of_nat (length old) - 1))) /\
  (forall (para : Element) (new : str) (out : list printed),
      Bonterms.collect_runs para <> [] ->
      Forall (fun t => t = []) (run_texts para) ->
      Py.find (paragraph_text para) [] = 0%Z /\
      Py.getitem (Bonterms.build_char_map (Bonterms.collect_runs para))
                 (0 + Z.of_nat (length (@nil ascii)) - 1) = None /\
      Bonterms.replace_bracketed_in_para para [([], new)] out = Raise IndexError).
Proof.
  split.
  - intros para old pos _ Hne Hfind.
    assert (Hf : Py.find_nat (paragraph_text para) old = Some pos).
    { unfold Py.find in Hfind. destruct (Py.find_nat _ _); [f_equal; lia | lia]. }
    destruct (match_positions _ _ _ Hne Hf)
      as (si & sc & ei & ec & ti & tj & Hs & He & _).
    assert (Hlen : 0 < length old) by (destruct old; [done | simpl; lia]).
    split.
    + rewrite getitem_nonneg. unfold Bonterms.build_char_map. eauto.
    + replace (Z.of_nat pos + Z.of_nat (length old) - 1)%Z
        with (Z.of_nat (pos + length old - 1)) by lia.
      rewrite getitem_nonneg. unfold Bonterms.build_char_map. eauto.
  - intros para new out Hruns Hall.
    assert (Htext : paragraph_text para = []).
    { unfold paragraph_text. induction Hall as [|t ts -> _ IH]; [done|].
      simpl. apply IH. }
    assert (Hmap : Bonterms.build_char_map (Bonterms.collect_runs para) = []).
    { apply length_zero_iff_nil. unfold Bonterms.build_char_map.
      rewrite length_char_map_from. fold (run_texts para).
      fold (paragraph_text para). by rewrite Htext. }
    split; [by rewrite Htext|]. split; [by rewrite Hmap|].
    rewrite paragraph_text_eq in Htext.
    unfold Bonterms.replace_bracketed_in_para, Bonterms.replace_loop,
      Bonterms.replace_step.
    cbn [Bonterms.st_elem].
    destruct (Bonterms.collect_runs para) as [|r0 rs]; [done|].
    by rewrite Hmap, Htext.
Qed.

Lemma char_map_lookups_in_range_witness :
  (Bonterms.collect_runs Bonterms.customer_para <> [] /\
   s_ "[Customer]" <> [] /\
   Py.find (paragraph_text Bonterms.customer_para) (s_ "[Customer]") = Z.of_nat 0 /\
   is_Some (Py.getitem
              (Bonterms.build_char_map (Bonterms.collect_runs Bonterms.customer_para))
              (Z.of_nat 0)) /\
   is_Some (Py.getitem
              (Bonterms.build_char_map (Bonterms.collect_runs Bonterms.customer_para))
              (Z.of_nat 0 + Z.of_nat (length (s_ "[Customer]")) - 1))) /\
  (let para := Bonterms.para_elem [Bonterms.plain_run ""] in
   Bonterms.collect_runs para <> [] /\
   Forall (fun t => t = []) (run_texts para) /\
   Py.find (paragraph_text para) [] = 0%Z /\
   Py.getitem (Bonterms.build_char_map (Bonterms.collect_runs para))
              (0 + Z.of_nat (length (@nil ascii)) - 1) = None /\
   Bonterms.replace_bracketed_in_para para [([], s_ "{x}")] [] = Raise IndexError).
Proof.
  split.
  - split; [by vm_compute|]. split; [by vm_compute|]. split; [by vm_compute|].
    apply (proj1 char_map_lookups_in_range); by vm_compute.
  - intros para.
    assert (H1 : Bonterms.collect_runs para <> []) by (by vm_compute).
    assert (H2 : Forall (fun t => t = []) (run_texts para)).
    { vm_compute. by repeat constructor. }
    split; [done|]. split; [done|].
    exact (proj2 char_map_lookups_in_range para (s_ "{x}") [] H1 H2).
Defined.

(** C3.  The license step when no license file is found.  The last
    statement of [try_apply_license] names [sys.stderr], and the module
    never imports [sys]: instead of logging a warning and returning, the
    call raises [NameError], nothing is written to either stream, and
    [main] stops before any target is processed. *)
Theorem try_apply_license_missing_raises (w : Aspose.world) :
  Aspose.first_license w (Aspose.candidates w) = None ->
  Aspose.try_apply_license w = Raise (NameError "sys") /\
  forall process targets, Aspose.main process targets w = Raise (NameError "sys").
Proof.
  intros H. assert (Ht : Aspose.try_apply_license w = Raise (NameError "sys")).
  { unfold Aspose.try_apply_license. by rewrite H. }
  split; [done|]. intros process targets. unfold Aspose.main. by rewrite Ht.
Qed.

Lemma try_apply_license_missing_raises_witness :
  let w := Aspose.mkWorld [] [] None [] [] in
  Aspose.first_license w (Aspose.candidates w) = None /\
  Aspose.try_apply_license w = Raise (NameError "sys") /\
  forall process targets, Aspose.main process targets w = Raise (NameError "sys").
Proof.
  intros w. split; [by vm_compute|].
  apply (try_apply_license_missing_raises w). by vm_compute.
Defined.

(** * Placeholder formatting *)

Section FormatFacts.

Import Bonterms.

Lemma w_rPr_not_t : w_rPr <> w_t.
Proof. apply String.eqb_neq. by vm_compute. Qed.

Lemma markers_distinct : w_i <> w_iCs /\ w_i <> w_color /\ w_iCs <> w_color.
Proof. repeat split; apply String.eqb_neq; by vm_compute. Qed.

Lemma filter_remove_first_same m l :
  length (List.filter (ET.has_tag m) (ET.remove_first m l))
  = pred (length (List.filter (ET.has_tag m) l)).
Proof.
  induction l as [|x l IH]; simpl; [done|].
  destruct (ET.has_tag m x) eqn:E; simpl; [done|]. by rewrite E.
Qed.

Lemma filter_remove_first_other m m' l :
  m <> m' ->
  List.filter (ET.has_tag m') (ET.remove_first m l) = List.filter (ET.has_tag m') l.
Proof.
  intros Hne. induction l as [|x l IH]; simpl; [done|].
  destruct (ET.has_tag m x) eqn:E; simpl.
  - destruct (ET.has_tag m' x) eqn:E'; [|done].
    apply has_tag_eq in E, E'. congruence.
  - by rewrite IH.
Qed.

Lemma rpr_children_set_run_text s r :
  rpr_children (set_run_text s r) = rpr_children r.
Proof.
  unfold rpr_children, ET.find, set_run_text. simpl.
  rewrite find_alter_first_other; [done | apply w_rPr_not_t | done].
Qed.

Lemma rpr_children_strip r :
  rpr_children (strip_placeholder_format r)
  = ET.remove_first w_color
      (ET.remove_first w_iCs (ET.remove_first w_i (rpr_children r))).
Proof.
  unfold rpr_children, ET.find, strip_placeholder_format. simpl.
  rewrite find_alter_first_same by done.
  by destruct (List.find (ET.has_tag w_rPr) (e_children r)).
Qed.

(** Each of the three markers loses the element that [find] returns. *)
Lemma marker_count_strip m r :
  m ∈ placeholder_markers ->
  marker_count m (strip_placeholder_format r) = pred (marker_count m r).
Proof.
  destruct markers_distinct as (H1 & H2 & H3).
  intros Hm. unfold marker_count. rewrite rpr_children_strip.
  unfold placeholder_markers in Hm.
  apply elem_of_cons in Hm as [->|Hm]; [|apply elem_of_cons in Hm as [->|Hm]];
    [| |apply list_elem_of_singleton in Hm as ->].
  - rewrite !(filter_remove_first_other _ w_i) by done.
    apply filter_remove_first_same.
  - rewrite (filter_remove_first_other _ w_iCs) by done.
    rewrite filter_remove_first_same.
    by rewrite (filter_remove_first_other _ w_iCs).
  - rewrite filter_remove_first_same.
    by rewrite !(filter_remove_first_other _ w_color).
Qed.

Lemma marker_count_touch si sc ei ec old new k r m :
  si <= k <= ei -> m ∈ placeholder_markers ->
  marker_count m (touch si sc ei ec old new k r) = pred (marker_count m r).
Proof.
  intros Hk Hm. unfold touch.
  replace ((si <=? k) && (k <=? ei)) with true.
  - rewrite marker_count_strip by done. unfold marker_count.
    by rewrite rpr_children_set_run_text.
  - symmetry. apply andb_true_iff. split; apply Nat.leb_le; lia.
Qed.

Lemma marker_count_0_find m r :
  marker_count m r = 0 -> List.find (ET.has_tag m) (rpr_children r) = None.
Proof.
  unfold marker_count. induction (rpr_children r) as [|x l IH]; simpl; [done|].
  destruct (ET.has_tag m x); simpl; [lia | done].
Qed.

End FormatFacts.

(** C6.  After a successful replacement, every run touched by the match,
    from the start run through the end run inclusive, has lost one [w:i],
    one [w:iCs] and one [w:color] child of its run properties (the one
    [find] returns); run properties that hold a marker at most once hold
    it no more.  The start and end runs are the run indices of the two
    entries of the character map that the code reads; for a non-empty
    [old] they are the runs that hold the first and the last character of
    the match.  In particular an italic run with the text ["[Fill in]"],
    replaced by ["{effective_date}"], ends with the new text and no italic
    marker, by [replace_bracketed_in_para] and by [replace_cell_text]
    alike. *)
Theorem placeholder_format_removed :
  (forall (para : Element) (old new : str) (out : list printed)
          (pos si sc ei ec : nat),
      Py.find_nat (paragraph_text para) old = Some pos ->
      Py.getitem (Bonterms.build_char_map (Bonterms.collect_runs para))
                 (Z.of_nat pos) = Some (si, sc) ->
      Py.getitem (Bonterms.build_char_map (Bonterms.collect_runs para))
                 (Z.of_nat pos + Z.of_nat (length old) - 1) = Some (ei, ec) ->
      exists para',
        Bonterms.replace_bracketed_in_para para [(old, new)] out
        = Ok (PyNone, Bonterms.mkState para' (out ++ [PrintedReplaced old new])) /\
        forall k r m,
          si <= k <= ei ->
          Bonterms.collect_runs para !! k = Some r ->
          m ∈ placeholder_markers ->
          exists r',
            Bonterms.collect_runs para' !! k = Some r' /\
            marker_count m r' = pred (marker_count m r) /\
            (marker_count m r <= 1 ->
             List.find (ET.has_tag m) (rpr_children r') = None)) /\
  (forall (para : Element) (old new : str) (out : list printed) (pos : nat),
      old <> [] ->
      Py.find_nat (paragraph_text para) old = Some pos ->
      exists para' si ei ti tj,
        Bonterms.replace_bracketed_in_para para [(old, new)] out
        = Ok (PyNone, Bonterms.mkState para' (out ++ [PrintedReplaced old new])) /\
        run_texts para !! si = Some ti /\ run_texts para !! ei = Some tj /\
        offset (run_texts para) si <= pos < offset (run_texts para) si + length ti /\
        offset (run_texts para) ei <= pos + length old - 1
          < offset (run_texts para) ei + length tj /\
        forall k r m,
          si <= k <= ei ->
          Bonterms.collect_runs para !! k = Some r ->
          m ∈ placeholder_markers ->
          exists r',
            Bonterms.collect_runs para' !! k = Some r' /\
            marker_count m r' = pred (marker_count m r) /\
            (marker_count m r <= 1 ->
             List.find (ET.has_tag m) (rpr_children r') = None)) /\
  Bonterms.replace_bracketed_in_para
    Bonterms.fill_in_para [(s_ "[Fill in]", s_ "{effective_date}")] []
  = Ok (PyNone,
        Bonterms.mkState
          (Bonterms.para_elem [Bonterms.run_elem [] "{effective_date}"])
          [PrintedReplaced (s_ "[Fill in]") (s_ "{effective_date}")]) /\
  (exists t,
      Bonterms.replace_cell_text
        (Bonterms.cell_elem [Bonterms.fill_in_para])
        (s_ "[Fill in]") (s_ "{effective_date}") []
      = (PyNone,
         Bonterms.mkState
           (Bonterms.cell_elem
              [Bonterms.para_elem
                 [mkElement Bonterms.w_r [] None [Bonterms.rPr_elem []; t]]])
           [PrintedReplacedCell (s_ "[Fill in]") (s_ "{effective_date}")]) /\
      e_tag t = Bonterms.w_t /\ e_text t = Some (s_ "{effective_date}")).
Proof.
  assert (Hmark : forall si sc ei ec old new para para',
             Bonterms.collect_runs para'
             = imap (touch si sc ei ec old new) (Bonterms.collect_runs para) ->
             forall k r m,
               si <= k <= ei ->
               Bonterms.collect_runs para !! k = Some r ->
               m ∈ placeholder_markers ->
               exists r',
                 Bonterms.collect_runs para' !! k = Some r' /\
                 marker_count m r' = pred (marker_count m r) /\
                 (marker_count m r <= 1 ->
                  List.find (ET.has_tag m) (rpr_children r') = None)).
  { intros si sc ei ec old new para para' Hruns k r m Hk Hr Hm.
    exists (touch si sc ei ec old new k r).
    assert (Hc : marker_count m (touch si sc ei ec old new k r)
                 = pred (marker_count m r)) by (by apply marker_count_touch).
    repeat split.
    - by rewrite Hruns, list_lookup_imap, Hr.
    - done.
    - intros Hone. apply marker_count_0_find. lia. }
  split; [|split; [|split]].
  - intros para old new out pos si sc ei ec Hf Hs He.
    destruct (replace_step_found para out old new pos si sc ei ec Hf Hs He)
      as (para' & ti & tj & Hstep & Hruns & _).
    exists para'. split.
    + unfold Bonterms.replace_bracketed_in_para. simpl. by rewrite Hstep.
    + by apply (Hmark si sc ei ec old new).
  - intros para old new out pos Hne Hf.
    destruct (replace_step_nonempty para out old new pos Hne Hf)
      as (para' & si & sc & ei & ec & ti & tj & Hstep & Hruns & _
          & Hti & Htj & Hsc & Hec & Hp & Hq & Hle).
    exists para', si, ei, ti, tj. repeat split; try done; try lia.
    + unfold Bonterms.replace_bracketed_in_para. simpl. by rewrite Hstep.
    + by apply (Hmark si sc ei ec old new).
  - by vm_compute.
  - eexists. split; [by vm_compute|]. split; by vm_compute.
Qed.

Lemma placeholder_format_removed_witness :
  s_ "[Fill in]" <> [] /\
  Py.find_nat (paragraph_text Bonterms.fill_in_para) (s_ "[Fill in]") = Some 0 /\
  exists para' si ei ti tj,
    Bonterms.replace_bracketed_in_para
      Bonterms.fill_in_para [(s_ "[Fill in]", s_ "{effective_date}")] []
    = Ok (PyNone,
          Bonterms.mkState para'
            ([] ++ [PrintedReplaced (s_ "[Fill in]") (s_ "{effective_date}")])) /\
    run_texts Bonterms.fill_in_para !! si = Some ti /\
    run_texts Bonterms.fill_in_para !! ei = Some tj /\
    offset (run_texts Bonterms.fill_in_para) si <= 0
      < offset (run_texts Bonterms.fill_in_para) si + length ti /\
    offset (run_texts Bonterms.fill_in_para) ei <= 0 + length (s_ "[Fill in]") - 1
      < offset (run_texts Bonterms.fill_in_para) ei + length tj /\
    forall k r m,
      si <= k <= ei ->
      Bonterms.collect_runs Bonterms.fill_in_para !! k = Some r ->
      m ∈ placeholder_markers ->
      exists r',
        Bonterms.collect_runs para' !! k = Some r' /\
        marker_count m r' = pred (marker_count m r) /\
        (marker_count m r <= 1 ->
         List.find (ET.has_tag m) (rpr_children r') = None).
Proof.
  split; [by vm_compute|]. split; [by vm_compute|].
  apply (proj1 (proj2 placeholder_format_removed)); by vm_compute.
Defined.

(** * The flattening steps *)

Section FlattenFacts.

Import Bonterms.

Lemma elem_of_link_runs r rs :
  r ∈ link_runs rs <-> r ∈ rs /\ ET.find r w_t <> None.
Proof.
  induction rs as [|x rs IH]; simpl.
  - split; [by intros ?%elem_of_nil | by intros [?%elem_of_nil _]].
  - destruct (ET.find x w_t) eqn:F.
    + rewrite !elem_of_cons, IH. split.
      * intros [->|[? ?]]; [split; [by left | congruence] | split; [by right | done]].
      * intros [[->|?] ?]; [by left | by right].
    + rewrite IH, elem_of_cons. split.
      * intros [? ?]. split; [by right | done].
      * intros [[->|?] ?]; [congruence | done].
Qed.

Lemma elem_of_runs_of_child r child :
  r ∈ runs_of_child child <->
  e_tag r = w_r /\ ET.find r w_t <> None /\
  (r = child \/ (e_tag child = w_hyperlink /\ r ∈ e_children child)).
Proof.
  unfold runs_of_child.
  destruct (ET.has_tag w_r child) eqn:Er.
  - apply has_tag_eq in Er.
    assert (Hnl : e_tag child <> w_hyperlink)
      by (rewrite Er; apply w_r_not_hyperlink).
    destruct (ET.find child w_t) eqn:F.
    + rewrite list_elem_of_singleton. split.
      * intros ->. repeat split; [done | congruence | by left].
      * intros (_ & _ & [->|[? _]]); done.
    + split; [by intros ?%elem_of_nil|].
      intros (_ & Ht & [->|[? _]]); done.
  - apply has_tag_neq in Er.
    destruct (ET.has_tag w_hyperlink child) eqn:El.
    + apply has_tag_eq in El. unfold ET.findall.
      rewrite elem_of_link_runs, list_elem_of_In, filter_In, <- list_elem_of_In.
      rewrite has_tag_eq. split.
      * intros [[? ?] ?]. repeat split; try done. by right.
      * intros (? & ? & [->|[_ ?]]); done.
    + apply has_tag_neq in El. split; [by intros ?%elem_of_nil|].
      intros (? & _ & [->|[? _]]); done.
Qed.

Lemma elem_of_collect_runs_in r cs :
  r ∈ collect_runs_in cs <-> exists child, child ∈ cs /\ r ∈ runs_of_child child.
Proof.
  induction cs as [|c cs IH]; simpl.
  - split; [by intros ?%elem_of_nil | by intros (? & ?%elem_of_nil & _)].
  - rewrite elem_of_app, IH. split.
    + intros [?|(child & ? & ?)]; [exists c | exists child];
        (split; [|done]); [by left | by right].
    + intros (child & [->|?]%elem_of_cons & ?); [by left | right; eauto].
Qed.

Lemma iter_head tg e : ET.has_tag tg e = true ->
  ET.iter tg e = e :: flat_map (ET.iter tg) (e_children e).
Proof. destruct e as [t a x cs]. simpl. by intros ->. Qed.

Lemma link_runs_sublist cs :
  sublist (link_runs (List.filter (ET.has_tag w_r) cs)) (flat_map (ET.iter w_r) cs).
Proof.
  induction cs as [|c cs IH]; simpl; [constructor|].
  destruct (ET.has_tag w_r c) eqn:E; simpl.
  - rewrite (iter_head _ _ E). simpl.
    destruct (ET.find c w_t).
    + constructor. by apply sublist_inserts_l.
    + constructor. by apply sublist_inserts_l.
  - by apply sublist_inserts_l.
Qed.

Lemma runs_of_child_sublist c : sublist (runs_of_child c) (ET.iter w_r c).
Proof.
  unfold runs_of_child. destruct (ET.has_tag w_r c) eqn:E.
  - rewrite (iter_head _ _ E). destruct (ET.find c w_t).
    + constructor. apply sublist_nil_l.
    + apply sublist_nil_l.
  - destruct (ET.has_tag w_hyperlink c); [|apply sublist_nil_l].
    destruct c as [t a x cs]. simpl in *. rewrite E. simpl.
    apply link_runs_sublist.
Qed.

Lemma collect_runs_in_sublist cs :
  sublist (collect_runs_in cs) (flat_map (ET.iter w_r) cs).
Proof.
  induction cs as [|c cs IH]; simpl; [constructor|].
  apply sublist_app; [apply runs_of_child_sublist | done].
Qed.

Lemma direct_runs_from_snd i cs :
  map snd (direct_runs_from i cs) = List.filter is_link_run cs.
Proof.
  revert i. induction cs as [|c cs IH]; intros i; simpl; [done|].
  unfold is_link_run at 1. destruct (ET.has_tag w_r c); simpl; [|apply IH].
  destruct (ET.find c w_t); simpl; by rewrite IH.
Qed.

Lemma direct_runs_from_lookup i cs j r :
  (j, r) ∈ direct_runs_from i cs -> i <= j /\ cs !! (j - i) = Some r.
Proof.
  revert i. induction cs as [|c cs IH]; intros i; simpl.
  - by intros ?%elem_of_nil.
  - rewrite elem_of_app. intros [H|H].
    + destruct (ET.has_tag w_r c); [|by apply elem_of_nil in H].
      destruct (ET.find c w_t); [|by apply elem_of_nil in H].
      apply list_elem_of_singleton in H. injection H as -> ->.
      split; [lia|]. by rewrite Nat.sub_diag.
    + destruct (IH _ H) as [Hle Hl]. split; [lia|].
      replace (j - i) with (S (j - S i)) by lia. done.
Qed.

Lemma direct_runs_lookup para i r :
  (i, r) ∈ direct_runs para -> e_children para !! i = Some r.
Proof.
  intros H. apply direct_runs_from_lookup in H as [_ H].
  by rewrite Nat.sub_0_r in H.
Qed.

End FlattenFacts.

(** C7 as stated fails: the flattening of [replace_bracketed_in_para] keeps
    a run whose text is empty, and the flattening of
    [append_tag_after_label] leaves out the runs inside a hyperlink. *)
Lemma flatten_differs_from_spec :
  Bonterms.collect_runs (Bonterms.para_elem [Bonterms.plain_run ""])
  <> spec_flatten (Bonterms.para_elem [Bonterms.plain_run ""]) /\
  map snd (Bonterms.direct_runs
             (Bonterms.para_elem
                [Bonterms.hyperlink_elem [Bonterms.plain_run "x"]]))
  <> spec_flatten (Bonterms.para_elem
                     [Bonterms.hyperlink_elem [Bonterms.plain_run "x"]]).
Proof. split; by vm_compute. Qed.

(** C7 (amended).  The flattening step of [replace_bracketed_in_para]
    collects into one list, in document order, the direct-child runs of the
    paragraph together with the runs that are children of a hyperlink child,
    keeping exactly those that have a [w:t] element: a run whose text is
    empty is kept, a run without a text element is skipped.  The flattening
    step of [append_tag_after_label] collects the direct-child runs that
    have a [w:t] element only, each at its position among the children; the
    runs inside a hyperlink are left out. *)
Theorem flatten_collects (para : Element) :
  (forall r,
      r ∈ Bonterms.collect_runs para <->
      e_tag r = Bonterms.w_r /\ ET.find r Bonterms.w_t <> None /\
      (r ∈ e_children para \/
       exists h, h ∈ e_children para /\ e_tag h = Bonterms.w_hyperlink /\
                 r ∈ e_children h)) /\
  sublist (Bonterms.collect_runs para) (ET.iter Bonterms.w_r para) /\
  map snd (Bonterms.direct_runs para)
  = List.filter Bonterms.is_link_run (e_children para) /\
  (forall i r, (i, r) ∈ Bonterms.direct_runs para -> e_children para !! i = Some r).
Proof.
  split; [|split; [|split]].
  - intros r. unfold Bonterms.collect_runs. rewrite elem_of_collect_runs_in. split.
    + intros (child & Hc & Hr). apply elem_of_runs_of_child in Hr
        as (Ht & Hf & [->|[Hl Hin]]); repeat split; try done.
      * by left.
      * right. by exists child.
    + intros (Ht & Hf & [Hin|(h & Hin & Hl & Hr)]).
      * exists r. split; [done|]. apply elem_of_runs_of_child.
        repeat split; try done. by left.
      * exists h. split; [done|]. apply elem_of_runs_of_child.
        repeat split; try done. by right.
  - destruct para as [t a x cs]. unfold Bonterms.collect_runs. simpl.
    apply sublist_inserts_l. apply collect_runs_in_sublist.
  - apply direct_runs_from_snd.
  - intros i r H. apply direct_runs_from_lookup in H as [_ H].
    by rewrite Nat.sub_0_r in H.
Qed.

Lemma flatten_collects_witness :
  (1, Bonterms.plain_run ":") ∈ Bonterms.direct_runs Bonterms.party_para /\
  e_children Bonterms.party_para !! 1 = Some (Bonterms.plain_run ":").
Proof.
  assert (H : (1, Bonterms.plain_run ":") ∈ Bonterms.direct_runs Bonterms.party_para).
  { vm_compute. apply list_elem_of_In. right. by left. }
  split; [done|].
  exact (proj2 (proj2 (proj2 (flatten_collects Bonterms.party_para))) 1 _ H).
Defined.

(** [get_run_texts] is the one function that skips the runs whose text is
    empty, and no function of the script calls it. *)
Example get_run_texts_skips_empty :
  Bonterms.get_run_texts
    (Bonterms.para_elem [Bonterms.plain_run ""; Bonterms.plain_run "x"])
  = [(Bonterms.plain_run "x", s_ "x")].
Proof. by vm_compute. Qed.

(** * append_tag_after_label *)

Section AppendFacts.

Import Bonterms.

(** The loop stops at the first run whose cumulative length reaches
    [label_end]. *)
Lemma last_label_run_found runs count label_end dflt :
  count < label_end ->
  label_end <= count + length (concat (map (fun ir : nat * Element => run_text (snd ir)) runs)) ->
  exists m idx r,
    runs !! m = Some (idx, r) /\
    last_label_run runs count label_end dflt = (idx, r) /\
    count + offset (map (fun ir : nat * Element => run_text (snd ir)) runs) m < label_end /\
    label_end <= count + offset (map (fun ir : nat * Element => run_text (snd ir)) runs) (S m).
Proof.
  revert count. induction runs as [|[i r] runs IH]; intros count Hlt Hle; simpl in *.
  - lia.
  - rewrite length_app in Hle.
    destruct (Nat.leb_spec label_end (count + length (run_text r))) as [Hin|Hout].
    + exists 0, i, r. rewrite offset_0, offset_S, offset_0. repeat split; try done; lia.
    + destruct (IH (count + length (run_text r)) Hout ltac:(lia))
        as (m & idx & r' & Hm & Hlast & Hlo & Hhi).
      exists (S m), idx, r'. rewrite !offset_S. repeat split; try done; lia.
Qed.

Lemma run_text_new_tag_run r template_tag :
  run_text (new_tag_run r template_tag) = s_ " " ++ template_tag.
Proof.
  unfold new_tag_run, run_text, ET.find.
  destruct (List.find (ET.has_tag w_rPr) (e_children r)) as [rpr|] eqn:F.
  - apply find_some in F as [_ F]. apply has_tag_eq in F.
    assert (Hrpr : ET.has_tag w_t rpr = false).
    { apply has_tag_neq. rewrite F. apply w_rPr_not_t. }
    cbn [e_children app List.find]. rewrite has_tag_with_children, Hrpr. done.
  - done.
Qed.

Lemma last_is_Some {A} (l : list A) : l <> [] -> is_Some (last l).
Proof.
  induction l as [|x [|y l] IH]; [done | by eauto |].
  intros _. apply IH. done.
Qed.

End AppendFacts.

(** C5.  For every paragraph whose direct-child run texts concatenate to a
    string containing the (non-empty) label, [append_tag_after_label]
    inserts exactly one new run, whose text is a space followed by the
    template tag, immediately after the run that contains the last
    character of the first occurrence of the label; every child the
    paragraph had is still there, unchanged and in the same order.  In
    particular for the runs ["Party Name"], [":"] with the label
    ["Party Name:"], the run [" {party_1_name}"] is inserted after the [":"]
    run and the two original runs are unmodified. *)
Theorem append_tag_inserts_after_label :
  (forall (para : Element) (label template_tag : str) (out : list printed),
      label <> [] ->
      occurs (direct_text para) label ->
      exists pos m idx r,
        Py.find_nat (direct_text para) label = Some pos /\
        Bonterms.direct_runs para !! m = Some (idx, r) /\
        e_children para !! idx = Some r /\
        offset (direct_texts para) m <= pos + length label - 1
          < offset (direct_texts para) m + length (Bonterms.run_text r) /\
        Bonterms.append_tag_after_label para label template_tag out
        = Ok (PyNone,
              Bonterms.mkState
                (ET.with_children para
                   (take (idx + 1) (e_children para)
                    ++ Bonterms.new_tag_run r template_tag
                    :: drop (idx + 1) (e_children para)))
                (out ++ [PrintedAdded template_tag label])) /\
        e_tag (Bonterms.new_tag_run r template_tag) = Bonterms.w_r /\
        Bonterms.run_text (Bonterms.new_tag_run r template_tag)
        = s_ " " ++ template_tag) /\
  Bonterms.append_tag_after_label
    Bonterms.party_para (s_ "Party Name:") (s_ "{party_1_name}") []
  = Ok (PyNone,
        Bonterms.mkState
          (Bonterms.para_elem
             [Bonterms.plain_run "Party Name"; Bonterms.plain_run ":";
              mkElement Bonterms.w_r [] None
                [mkElement Bonterms.w_t [(Bonterms.xml_space, s_ "preserve")]
                           (Some (s_ " {party_1_name}")) []]])
          [PrintedAdded (s_ "{party_1_name}") (s_ "Party Name:")]).
Proof.
  split; [|by vm_compute].
  intros para label template_tag out Hne Hocc.
  destruct (occurs_find_nat _ _ Hocc) as [pos Hf].
  destruct (find_nat_Some _ _ _ Hf) as [Hat _].
  apply occurs_at_bound in Hat.
  assert (Hlen : 0 < length label) by (destruct label; [done | simpl; lia]).
  destruct (last_label_run_found (Bonterms.direct_runs para) 0 (pos + length label)
              (0, para)) as (m & idx & r & Hm & _ & Hlo & Hhi); [lia | apply Hat |].
  assert (Hruns : Bonterms.direct_runs para <> []).
  { intros E. rewrite E in Hm. done. }
  destruct (last_is_Some _ Hruns) as [dflt Hlast].
  destruct (last_label_run_found (Bonterms.direct_runs para) 0 (pos + length label)
              dflt) as (m' & idx' & r' & Hm' & Hrun & Hlo' & Hhi'); [lia | apply Hat |].
  fold (direct_texts para) in Hlo, Hhi, Hlo', Hhi'.
  assert (Htm : direct_texts para !! m' = Some (Bonterms.run_text r')).
  { unfold direct_texts. by rewrite list_lookup_fmap, Hm'. }
  rewrite (offset_succ _ _ _ Htm) in Hhi'.
  exists pos, m', idx', r'. repeat split; try done; try lia.
  - apply direct_runs_lookup. apply list_elem_of_lookup. eauto.
  - unfold Bonterms.append_tag_after_label.
    fold (direct_texts para). fold (direct_text para).
    rewrite Hlast. unfold Py.contains. rewrite Hf. simpl. by rewrite Hrun.
  - apply run_text_new_tag_run.
Qed.

Lemma append_tag_inserts_after_label_witness :
  s_ "Party Name:" <> [] /\
  occurs (direct_text Bonterms.party_para) (s_ "Party Name:") /\
  exists pos m idx r,
    Py.find_nat (direct_text Bonterms.party_para) (s_ "Party Name:") = Some pos /\
    Bonterms.direct_runs Bonterms.party_para !! m = Some (idx, r) /\
    e_children Bonterms.party_para !! idx = Some r /\
    offset (direct_texts Bonterms.party_para) m
      <= pos + length (s_ "Party Name:") - 1
      < offset (direct_texts Bonterms.party_para) m + length (Bonterms.run_text r) /\
    Bonterms.append_tag_after_label
      Bonterms.party_para (s_ "Party Name:") (s_ "{party_1_name}") []
    = Ok (PyNone,
          Bonterms.mkState
            (ET.with_children Bonterms.party_para
               (take (idx + 1) (e_children Bonterms.party_para)
                ++ Bonterms.new_tag_run r (s_ "{party_1_name}")
                :: drop (idx + 1) (e_children Bonterms.party_para)))
            ([] ++ [PrintedAdded (s_ "{party_1_name}") (s_ "Party Name:")])) /\
    e_tag (Bonterms.new_tag_run r (s_ "{party_1_name}")) = Bonterms.w_r /\
    Bonterms.run_text (Bonterms.new_tag_run r (s_ "{party_1_name}"))
    = s_ " " ++ s_ "{party_1_name}".
Proof.
  split; [by vm_compute|].
  split; [apply contains_occurs; by vm_compute|].
  apply (proj1 append_tag_inserts_after_label).
  - by vm_compute.
  - apply contains_occurs. by vm_compute.
Defined.

(** * replace_cell_text *)

Section CellFacts.

Import Bonterms.

(** [first_path] points at the head of [iter]: the reference [runs[0]]. *)
Lemma first_index_iter tg cs i :
  Forall (fun e =>
            match ET.first_path tg e with
            | Some p => exists r, ET.get_at p e = Some r /\
                                  head (ET.iter tg e) = Some r
            | None => ET.iter tg e = []
            end) cs ->
  match ET.first_index (ET.first_path tg) cs i with
  | Some (j, p) =>
      i <= j /\
      exists c r, cs !! (j - i) = Some c /\ ET.first_path tg c = Some p /\
                  ET.get_at p c = Some r /\
                  head (flat_map (ET.iter tg) cs) = Some r
  | None => flat_map (ET.iter tg) cs = []
  end.
Proof.
  intros H. revert i. induction H as [|c cs Hc _ IH]; intros i; simpl; [done|].
  destruct (ET.first_path tg c) as [p|] eqn:Hp.
  - destruct Hc as (r & Hr & Hh). split; [lia|]. exists c, r.
    rewrite Nat.sub_diag. repeat split; try done.
    destruct (ET.iter tg c); [done|]. simpl in *. done.
  - rewrite Hc. simpl. specialize (IH (S i)).
    destruct (ET.first_index (ET.first_path tg) cs (S i)) as [[j p]|]; [|done].
    destruct IH as (Hle & c' & r & Hc' & Hp' & Hr & Hh). split; [lia|].
    exists c', r. replace (j - i) with (S (j - S i)) by lia. done.
Qed.

Lemma first_path_iter tg e :
  match ET.first_path tg e with
  | Some p => exists r, ET.get_at p e = Some r /\ head (ET.iter tg e) = Some r
  | None => ET.iter tg e = []
  end.
Proof.
  induction e as [t a x cs IH] using Element_children_ind.
  simpl. destruct (ET.has_tag tg (mkElement t a x cs)) eqn:E.
  - simpl. eauto.
  - simpl. pose proof (first_index_iter tg cs 0 IH) as Hgo.
    destruct (ET.first_index (ET.first_path tg) cs 0) as [[j p]|]; [|done].
    destruct Hgo as (_ & c & r & Hc & _ & Hr & Hh). exists r. simpl.
    rewrite Nat.sub_0_r in Hc. by rewrite Hc.
Qed.

(** When the first run is a direct child, it is child [i] and a [w:r]. *)
Lemma first_path_direct para i :
  ET.first_path w_r para = Some [i] ->
  exists r, e_children para !! i = Some r /\ ET.has_tag w_r r = true.
Proof.
  destruct para as [t a x cs]. simpl.
  destruct (ET.has_tag w_r (mkElement t a x cs)); [done|].
  pose proof (first_index_iter w_r cs 0) as Hgo.
  destruct (ET.first_index (ET.first_path w_r) cs 0) as [[j p]|]; [|done].
  intros [= -> ->].
  destruct Hgo as (_ & c & r & Hc & Hp & _).
  { apply Forall_forall. intros e _. apply first_path_iter. }
  rewrite Nat.sub_0_r in Hc. exists c. split; [done|].
  destruct c as [t' a' x' cs']. simpl in Hp.
  destruct (ET.has_tag w_r (mkElement t' a' x' cs')); [done|].
  by destruct (ET.first_index (ET.first_path w_r) cs' 0) as [[? ?]|].
Qed.

Lemma alter_middle {A} (f : A -> A) (l : list A) i x :
  l !! i = Some x -> alter f i l = take i l ++ f x :: drop (S i) l.
Proof.
  revert i. induction l as [|y l IH]; intros i; [done|].
  destruct i as [|i]; simpl.
  - by intros [= ->].
  - intros H. f_equal. by apply IH.
Qed.

Lemma remove_other_runs_away i j l :
  i < j \/ j + length l <= i ->
  remove_other_runs [i] j l = List.filter keep_other l.
Proof.
  revert j. induction l as [|c l IH]; intros j Hj; simpl; [done|].
  simpl in Hj. rewrite bool_decide_false by (intros [= ->]; lia).
  unfold keep_other at 1.
  destruct (ET.has_tag w_r c); simpl; [apply IH; lia|].
  destruct (ET.has_tag w_hyperlink c); simpl; [apply IH; lia|].
  f_equal. apply IH. lia.
Qed.

Lemma remove_other_runs_app fr j A B :
  remove_other_runs fr j (A ++ B)
  = remove_other_runs fr j A ++ remove_other_runs fr (j + length A) B.
Proof.
  revert j. induction A as [|c A IH]; intros j; simpl.
  - by rewrite Nat.add_0_r.
  - replace (j + S (length A)) with (S j + length A) by lia.
    destruct (ET.has_tag w_r c && negb (bool_decide (fr = [j]))); [apply IH|].
    destruct (ET.has_tag w_hyperlink c); [apply IH|].
    simpl. f_equal. apply IH.
Qed.

Lemma has_tag_fill_first_run tg new_text r :
  ET.has_tag tg (fill_first_run new_text r) = ET.has_tag tg r.
Proof. unfold fill_first_run. by destruct (ET.find r w_t). Qed.

(** The paragraph that the first case of the loop builds, when the first
    run is the direct child [i]. *)
Lemma replace_in_cell_para_direct old_text new_text para i r :
  qualifies old_text para = true ->
  ET.first_path w_r para = Some [i] ->
  e_children para !! i = Some r ->
  ET.has_tag w_r r = true ->
  replace_in_cell_para old_text new_text para
  = Some (ET.with_children para
            (List.filter keep_other (take i (e_children para))
             ++ fill_first_run new_text r
             :: List.filter keep_other (drop (S i) (e_children para)))).
Proof.
  intros Hq Hp Hr Htag. unfold qualifies in Hq.
  apply andb_true_iff in Hq as [Hq Hc]. apply andb_true_iff in Hq as [_ Hi].
  unfold replace_in_cell_para.
  destruct (ET.iter w_r para) as [|r0 rs]; [done|].
  rewrite Hc, Hp. simpl. f_equal. unfold ET.with_children. simpl. f_equal.
  assert (Hlen : length (take i (e_children para)) = i).
  { apply length_take_le. apply lookup_lt_Some in Hr. lia. }
  rewrite (alter_middle _ _ _ _ Hr).
  rewrite remove_other_runs_app. simpl. rewrite Hlen.
  rewrite has_tag_fill_first_run, Htag, bool_decide_true by done. simpl.
  rewrite !remove_other_runs_away by lia.
  assert (Hl : ET.has_tag w_hyperlink r = false).
  { apply has_tag_neq. apply has_tag_eq in Htag. rewrite Htag.
    apply w_r_not_hyperlink. }
  by rewrite has_tag_fill_first_run, Hl.
Qed.

Lemma replace_in_cell_para_skip old_text new_text c :
  qualifies old_text c = false -> ET.has_tag w_p c = true ->
  replace_in_cell_para old_text new_text c = None.
Proof.
  unfold qualifies, replace_in_cell_para. intros Hq Hp.
  rewrite Hp in Hq. simpl in Hq.
  destruct (ET.iter w_r c); [done|]. simpl in Hq. by rewrite Hq.
Qed.

Lemma replace_cell_children_first old_text new_text before para para' after :
  Forall (fun c => qualifies old_text c = false) before ->
  ET.has_tag w_p para = true ->
  replace_in_cell_para old_text new_text para = Some para' ->
  replace_cell_children old_text new_text (before ++ para :: after)
  = Some (before ++ para' :: after).
Proof.
  intros Hb Hp Hr. induction Hb as [|c before Hc _ IH]; simpl.
  - by rewrite Hp, Hr.
  - destruct (ET.has_tag w_p c) eqn:E.
    + rewrite (replace_in_cell_para_skip _ _ _ Hc E), IH. done.
    + by rewrite IH.
Qed.

Lemma find_app_last tg l x :
  List.find (ET.has_tag tg) l = None -> ET.has_tag tg x = true ->
  List.find (ET.has_tag tg) (l ++ [x]) = Some x.
Proof.
  intros Hl Hx. induction l as [|c l IH]; simpl in *; [by rewrite Hx|].
  destruct (ET.has_tag tg c); [done | by apply IH].
Qed.

Lemma run_text_fill_first_run new_text r :
  run_text (fill_first_run new_text r) = new_text.
Proof.
  unfold fill_first_run. rewrite run_text_strip. unfold run_text, ET.find.
  destruct (List.find (ET.has_tag w_t) (e_children r)) eqn:F; simpl.
  - rewrite find_alter_first_same by done. by rewrite F.
  - rewrite find_app_last; done.
Qed.

Lemma filter_tag_keep_other tg l :
  tg = w_r \/ tg = w_hyperlink ->
  List.filter (ET.has_tag tg) (List.filter keep_other l) = [].
Proof.
  intros Htg. induction l as [|c l IH]; simpl; [done|].
  unfold keep_other at 1.
  destruct (ET.has_tag w_r c) eqn:Er; simpl; [done|].
  destruct (ET.has_tag w_hyperlink c) eqn:El; simpl; [done|].
  destruct Htg as [-> | ->]; by rewrite ?Er, ?El.
Qed.

End CellFacts.

(** C9 as stated fails on the run count: a cell whose paragraph holds the
    placeholder in its only run has as many runs after the call as
    before. *)
Lemma replace_cell_text_run_count_kept :
  let cell := Bonterms.cell_elem [Bonterms.fill_in_para] in
  let cell' :=
    Bonterms.st_elem
      (snd (Bonterms.replace_cell_text cell (s_ "[Fill in]")
                                       (s_ "{effective_date}") [])) in
  qualifies (s_ "[Fill in]") Bonterms.fill_in_para = true /\
  ~ (length (ET.iter Bonterms.w_r cell') < length (ET.iter Bonterms.w_r cell)).
Proof. split; [by vm_compute|]. vm_compute. lia. Qed.

(** C9 (amended).  For every table cell, let [para] be its first child that
    is a paragraph with at least one run whose text contains [old_text],
    and let the first run of [para] be one of its direct children.
    [replace_cell_text] rewrites that paragraph only: the children of the
    cell before and after it are unchanged.  The first run gets exactly
    [new_text] as its text, whatever the text was and wherever the match
    was, and loses its placeholder formatting; every other direct-child run
    and every hyperlink child is removed, the other children stay in
    order.  The paragraph ends with one direct-child run, so the number of
    direct-child runs does not grow (it drops when there were others), and
    the text of the removed runs and hyperlinks is lost. *)
Theorem replace_cell_text_first_paragraph :
  (forall (cell : Element) (old_text new_text : str) (out : list printed)
          (before after : list Element) (para : Element) (i : nat),
      e_children cell = before ++ para :: after ->
      Forall (fun c => qualifies old_text c = false) before ->
      qualifies old_text para = true ->
      ET.first_path Bonterms.w_r para = Some [i] ->
      exists first_run para',
        e_children para !! i = Some first_run /\
        e_tag first_run = Bonterms.w_r /\
        e_children para'
        = List.filter keep_other (take i (e_children para))
          ++ Bonterms.fill_first_run new_text first_run
          :: List.filter keep_other (drop (S i) (e_children para)) /\
        Bonterms.replace_cell_text cell old_text new_text out
        = (PyNone,
           Bonterms.mkState
             (ET.with_children cell (before ++ para' :: after))
             (out ++ [PrintedReplacedCell (take 40 old_text) new_text])) /\
        Bonterms.run_text (Bonterms.fill_first_run new_text first_run) = new_text /\
        List.filter (ET.has_tag Bonterms.w_r) (e_children para')
        = [Bonterms.fill_first_run new_text first_run] /\
        List.filter (ET.has_tag Bonterms.w_hyperlink) (e_children para') = [] /\
        length (List.filter (ET.has_tag Bonterms.w_r) (e_children para'))
        <= length (List.filter (ET.has_tag Bonterms.w_r) (e_children para))) /\
  Bonterms.replace_cell_text
    Bonterms.key_terms_cell (s_ "[Fill in]") (s_ "{effective_date}") []
  = (PyNone,
     Bonterms.mkState
       (Bonterms.cell_elem
          [ Bonterms.para_elem [Bonterms.plain_run "a"];
            Bonterms.para_elem
              [mkElement Bonterms.w_r [] None
                 [mkElement Bonterms.w_t [(Bonterms.xml_space, s_ "preserve")]
                            (Some (s_ "{effective_date}")) []]];
            Bonterms.fill_in_para ])
       [PrintedReplacedCell (s_ "[Fill in]") (s_ "{effective_date}")]).
Proof.
  split; [|by vm_compute].
  intros cell old_text new_text out before after para i Hcell Hbefore Hq Hpath.
  destruct (first_path_direct para i Hpath) as (first_run & Hr & Htag).
  pose proof (replace_in_cell_para_direct old_text new_text para i first_run
                                          Hq Hpath Hr Htag) as Hpara.
  assert (Hp : ET.has_tag Bonterms.w_p para = true).
  { unfold qualifies in Hq. apply andb_true_iff in Hq as [Hq _].
    by apply andb_true_iff in Hq as [Hq _]. }
  assert (Hruns :
            List.filter (ET.has_tag Bonterms.w_r)
              (List.filter keep_other (take i (e_children para))
               ++ Bonterms.fill_first_run new_text first_run
               :: List.filter keep_other (drop (S i) (e_children para)))
            = [Bonterms.fill_first_run new_text first_run]).
  { rewrite List.filter_app. simpl.
    rewrite has_tag_fill_first_run, Htag.
    rewrite !filter_tag_keep_other by (by left). done. }
  exists first_run,
    (ET.with_children para
       (List.filter keep_other (take i (e_children para))
        ++ Bonterms.fill_first_run new_text first_run
        :: List.filter keep_other (drop (S i) (e_children para)))).
  split; [done|]. split; [by apply has_tag_eq|].
  split; [reflexivity|]. split; [|split; [|split; [|split]]].
  - unfold Bonterms.replace_cell_text. rewrite Hcell.
    by rewrite (replace_cell_children_first _ _ _ _ _ _ Hbefore Hp Hpara).
  - apply run_text_fill_first_run.
  - exact Hruns.
  - simpl. rewrite List.filter_app. simpl.
    rewrite has_tag_fill_first_run.
    replace (ET.has_tag Bonterms.w_hyperlink first_run) with false.
    + rewrite !filter_tag_keep_other by (by right). done.
    + symmetry. apply has_tag_neq. apply has_tag_eq in Htag. rewrite Htag.
      apply w_r_not_hyperlink.
  - simpl. rewrite Hruns. simpl.
    rewrite <- (take_drop_middle _ _ _ Hr), List.filter_app. simpl.
    rewrite Htag, length_app. simpl. lia.
Qed.

Lemma replace_cell_text_first_paragraph_witness :
  let old_text := s_ "[Fill in]" in
  let new_text := s_ "{effective_date}" in
  let before := [Bonterms.para_elem [Bonterms.plain_run "a"]] in
  let para :=
    Bonterms.para_elem
      [Bonterms.plain_run "see "; Bonterms.run_elem [Bonterms.w_i] "[Fill";
       Bonterms.plain_run " in]";
       Bonterms.hyperlink_elem [Bonterms.plain_run "zz"]] in
  let after := [Bonterms.fill_in_para] in
  e_children Bonterms.key_terms_cell = before ++ para :: after /\
  Forall (fun c => qualifies old_text c = false) before /\
  qualifies old_text para = true /\
  ET.first_path Bonterms.w_r para = Some [0] /\
  exists first_run para',
    e_children para !! 0 = Some first_run /\
    e_tag first_run = Bonterms.w_r /\
    e_children para'
    = List.filter keep_other (take 0 (e_children para))
      ++ Bonterms.fill_first_run new_text first_run
      :: List.filter keep_other (drop 1 (e_children para)) /\
    Bonterms.replace_cell_text Bonterms.key_terms_cell old_text new_text []
    = (PyNone,
       Bonterms.mkState
         (ET.with_children Bonterms.key_terms_cell (before ++ para' :: after))
         ([] ++ [PrintedReplacedCell (take 40 old_text) new_text])) /\
    Bonterms.run_text (Bonterms.fill_first_run new_text first_run) = new_text /\
    List.filter (ET.has_tag Bonterms.w_r) (e_children para')
    = [Bonterms.fill_first_run new_text first_run] /\
    List.filter (ET.has_tag Bonterms.w_hyperlink) (e_children para') = [] /\
    length (List.filter (ET.has_tag Bonterms.w_r) (e_children para'))
    <= length (List.filter (ET.has_tag Bonterms.w_r) (e_children para)).
Proof.
  intros old_text new_text before para after.
  split; [by vm_compute|].
  split; [repeat constructor|].
  split; [by vm_compute|].
  split; [by vm_compute|].
  apply (proj1 replace_cell_text_first_paragraph).
  - by vm_compute.
  - repeat constructor.
  - by vm_compute.
  - by vm_compute.
Defined.

(** When the first run of the paragraph sits inside a hyperlink, the run
    that received [new_text] is removed with the hyperlink: the paragraph
    is left without the placeholder and without the tag. *)
Example replace_cell_text_first_run_in_hyperlink :
  Bonterms.replace_cell_text
    (Bonterms.cell_elem [Bonterms.linked_first_para])
    (s_ "[Fill in]") (s_ "{effective_date}") []
  = (PyNone,
     Bonterms.mkState
       (Bonterms.cell_elem [Bonterms.para_elem []])
       [PrintedReplacedCell (s_ "[Fill in]") (s_ "{effective_date}")]).
Proof. by vm_compute. Qed.

(** * Further properties of the rewriter *)

(** * Further properties: replace_bracketed_in_para on a whole dictionary *)

Section DictFacts.

Import Bonterms.

Lemma find_nat_nil_nonempty old : old <> [] -> Py.find_nat [] old = None.
Proof. by destruct old. Qed.

Lemma replace1_nil old new : old <> [] -> Py.replace1 [] old new = [].
Proof. intros H. unfold Py.replace1. by rewrite find_nat_nil_nonempty. Qed.

Lemma replace_in_order_nil replacements :
  Forall (fun kv : str * str => fst kv <> []) replacements ->
  replace_in_order [] replacements = [].
Proof.
  unfold replace_in_order. induction 1 as [|[old new] items Hk _ IH]; simpl; [done|].
  by rewrite replace1_nil.
Qed.

Lemma paragraph_text_no_runs para :
  collect_runs para = [] -> paragraph_text para = [].
Proof. unfold paragraph_text, run_texts. by intros ->. Qed.

(** After [return] the paragraph has no runs, and the loop leaves such a
    state alone whatever the dictionary. *)
Lemma replace_step_return old new s s' :
  replace_step old new s = Return s' -> s' = s /\ collect_runs (st_elem s) = [].
Proof.
  unfold replace_step. destruct (collect_runs (st_elem s)) eqn:E.
  - by intros [= <-].
  - destruct (_ =? _)%Z; [done|].
    repeat (match goal with
            | |- context [match ?x with _ => _ end] => destruct x
            end; try done).
Qed.

(** One pass of the loop for a non-empty key: it never raises, and the
    state it leaves is described by [Py.replace1] on the text. *)
Lemma replace_step_total old new s :
  old <> [] ->
  exists s',
    (replace_step old new s = Continue s' \/
     (replace_step old new s = Return s' /\ s' = s /\
      collect_runs (st_elem s) = [])) /\
    paragraph_text (st_elem s')
    = Py.replace1 (paragraph_text (st_elem s)) old new /\
    length (collect_runs (st_elem s')) = length (collect_runs (st_elem s)) /\
    map e_tag (e_children (st_elem s')) = map e_tag (e_children (st_elem s)) /\
    exists lines, st_out s' = st_out s ++ lines /\ length lines <= 1.
Proof.
  intros Hne. destruct s as [para out]. simpl.
  destruct (collect_runs para) as [|r0 rs] eqn:Hruns.
  { exists (mkState para out). split.
    - right. unfold replace_step. simpl. by rewrite Hruns.
    - simpl. rewrite (paragraph_text_no_runs _ Hruns), replace1_nil by done.
      rewrite ?Hruns. do 3 (split; [done|]).
      exists []. rewrite app_nil_r. split; [done | simpl; lia]. }
  destruct (Py.find_nat (paragraph_text para) old) as [pos|] eqn:Hf.
  - destruct (replace_step_nonempty para out old new pos Hne Hf)
      as (para' & si & sc & ei & ec & ti & tj & Hstep & Hr & Htags
          & Hti & Htj & Hsc & Hec & Hp & Hq & Hle).
    exists (mkState para' (out ++ [PrintedReplaced old new])). split; [by left|].
    simpl. split; [|split; [|split]].
    + unfold Py.replace1. rewrite Hf.
      unfold paragraph_text at 1, run_texts. rewrite Hr.
      rewrite run_texts_touch by (done || apply collect_runs_has_t).
      by apply (new_text_result (run_texts para) old new pos si sc ei ec ti tj).
    + by rewrite Hr, length_imap, Hruns.
    + done.
    + exists [PrintedReplaced old new]. split; [done | simpl; lia].
  - exists (mkState para out). split.
    + left. destruct (replace_step_noop para out old new) as [H|H]; [| |done].
      * right. by apply find_nat_None.
      * apply replace_step_return in H as [_ H]. simpl in H. congruence.
    + simpl. unfold Py.replace1. rewrite Hf, ?Hruns.
      do 3 (split; [done|]).
      exists []. rewrite app_nil_r. split; [done | simpl; lia].
Qed.

Lemma replace_loop_total items s :
  Forall (fun kv : str * str => fst kv <> []) items ->
  exists s',
    replace_loop items s = Ok s' /\
    paragraph_text (st_elem s')
    = replace_in_order (paragraph_text (st_elem s)) items /\
    length (collect_runs (st_elem s')) = length (collect_runs (st_elem s)) /\
    map e_tag (e_children (st_elem s')) = map e_tag (e_children (st_elem s)) /\
    exists lines, st_out s' = st_out s ++ lines /\ length lines <= length items.
Proof.
  intros Hall. revert s.
  induction Hall as [|[old new] items Hk Hall IH]; intros s.
  - exists s. do 4 (split; [done|]).
    exists []. rewrite app_nil_r. split; [done | simpl; lia].
  - simpl in Hk.
    destruct (replace_step_total old new s Hk)
      as (s1 & Hstep & Ht & Hl & Htags & lines & Hout & Hn).
    destruct Hstep as [Hstep | (Hstep & -> & Hnone)].
    + destruct (IH s1) as (s' & Hloop & Ht' & Hl' & Htags' & lines' & Hout' & Hn').
      exists s'. simpl. rewrite Hstep. split; [|split; [|split; [|split]]].
      * done.
      * rewrite Ht'. unfold replace_in_order. simpl. by rewrite Ht.
      * by rewrite Hl'.
      * by rewrite Htags'.
      * exists (lines ++ lines'). rewrite Hout', Hout, <- app_assoc.
        rewrite length_app. split; [done | simpl; lia].
    + exists s. simpl. rewrite Hstep. split; [done|]. split; [|do 2 (split; [done|])].
      * rewrite (paragraph_text_no_runs _ Hnone).
        symmetry. apply (replace_in_order_nil ((old, new) :: items)).
        by constructor.
      * exists []. rewrite app_nil_r. split; [done | simpl; lia].
Qed.

Lemma same_node_refl e : same_node e e.
Proof. by repeat split. Qed.

Lemma same_node_trans e1 e2 e3 : same_node e1 e2 -> same_node e2 e3 -> same_node e1 e3.
Proof. intros (?&?&?) (?&?&?). repeat split; congruence. Qed.

Lemma same_node_alter_run f k para : same_node para (alter_run f k para).
Proof. by repeat split. Qed.

Lemma same_node_foldl_alter_run f idxs para :
  same_node para (foldl (fun p idx => alter_run f idx p) para idxs).
Proof.
  revert para. induction idxs as [|i idxs IH]; intros para; simpl.
  - apply same_node_refl.
  - eapply same_node_trans; [apply (same_node_alter_run f i)|apply IH].
Qed.

Lemma replace_step_same_node old new s s' :
  replace_step old new s = Continue s' -> same_node (st_elem s) (st_elem s').
Proof.
  unfold replace_step. destruct (collect_runs (st_elem s)); [done|].
  destruct (_ =? _)%Z; [intros [= <-]; apply same_node_refl|].
  destruct (Py.getitem _ _) as [[si sc]|]; [|done].
  destruct (Py.getitem _ _) as [[ei ec]|]; [|done].
  destruct (run_at _ _); [|done]. destruct (run_at _ _); [|done].
  intros [= <-]. simpl.
  eapply same_node_trans; [|apply same_node_foldl_alter_run].
  destruct (si =? ei); [apply same_node_alter_run|].
  eapply same_node_trans; [|apply same_node_alter_run].
  eapply same_node_trans; [|apply same_node_foldl_alter_run].
  apply same_node_alter_run.
Qed.

Lemma replace_loop_same_node items s s' :
  replace_loop items s = Ok s' -> same_node (st_elem s) (st_elem s').
Proof.
  revert s. induction items as [|[old new] items IH]; intros s; simpl.
  - intros [= <-]. apply same_node_refl.
  - destruct (replace_step old new s) as [s1|s1|e] eqn:Hstep; [| |done].
    + intros H. eapply same_node_trans; [|by apply IH].
      by apply (replace_step_same_node old new).
    + intros [= <-]. apply replace_step_return in Hstep as [-> _].
      apply same_node_refl.
Qed.

Lemma replace_loop_no_runs items s :
  collect_runs (st_elem s) = [] -> replace_loop items s = Ok s.
Proof.
  intros H. destruct items as [|[old new] items]; [done|].
  simpl. unfold replace_step. by rewrite H.
Qed.

Lemma replace_loop_app items1 items2 s :
  replace_loop (items1 ++ items2) s
  = match replace_loop items1 s with
    | Ok s' => replace_loop items2 s'
    | Raise e => Raise e
    end.
Proof.
  revert s. induction items1 as [|[old new] items1 IH]; intros s; simpl; [done|].
  destruct (replace_step old new s) as [s1|s1|e] eqn:Hstep; [apply IH| |done].
  apply replace_step_return in Hstep as [-> Hnone].
  by rewrite replace_loop_no_runs.
Qed.

End DictFacts.

(** X1.  With a dictionary whose keys are all non-empty,
    [replace_bracketed_in_para] never raises, whatever the paragraph, and
    the concatenated run text it leaves is the original text with the
    entries applied in order, each to the first occurrence of its key in
    the text as the earlier entries left it. *)
Theorem replace_bracketed_dict_text
        (para : Element) (replacements : list (str * str)) (out : list printed) :
  Forall (fun kv : str * str => fst kv <> []) replacements ->
  exists para' out',
    Bonterms.replace_bracketed_in_para para replacements out
    = Ok (PyNone, Bonterms.mkState para' out') /\
    paragraph_text para' = replace_in_order (paragraph_text para) replacements.
Proof.
  intros Hall.
  destruct (replace_loop_total replacements (Bonterms.mkState para out) Hall)
    as ([para' out'] & Hloop & Ht & _).
  exists para', out'. unfold Bonterms.replace_bracketed_in_para.
  rewrite Hloop. by split.
Qed.

Lemma replace_bracketed_dict_text_witness :
  let replacements :=
    [(s_ "[Customer]", s_ "{customer_name}"); (s_ "[Provider]", s_ "{provider_name}")] in
  let para :=
    Bonterms.para_elem
      [Bonterms.plain_run "between [Cust"; Bonterms.plain_run "omer] and [Provider]"] in
  Forall (fun kv : str * str => fst kv <> []) replacements /\
  exists para' out',
    Bonterms.replace_bracketed_in_para para replacements []
    = Ok (PyNone, Bonterms.mkState para' out') /\
    paragraph_text para' = replace_in_order (paragraph_text para) replacements.
Proof.
  intros replacements para.
  assert (H : Forall (fun kv : str * str => fst kv <> []) replacements).
  { repeat constructor; by vm_compute. }
  split; [done|]. exact (replace_bracketed_dict_text para replacements [] H).
Defined.

(** X2.  With a dictionary whose keys are all non-empty,
    [replace_bracketed_in_para] keeps the shape of the paragraph: the
    paragraph element keeps its tag, attributes and text, its children keep
    their number, tags and order, the number of collected runs is what it
    was, and what is printed is appended to standard output, at most one
    line per entry. *)
Theorem replace_bracketed_dict_shape
        (para : Element) (replacements : list (str * str)) (out : list printed) :
  Forall (fun kv : str * str => fst kv <> []) replacements ->
  exists para' lines,
    Bonterms.replace_bracketed_in_para para replacements out
    = Ok (PyNone, Bonterms.mkState para' (out ++ lines)) /\
    same_node para para' /\
    map e_tag (e_children para') = map e_tag (e_children para) /\
    length (Bonterms.collect_runs para') = length (Bonterms.collect_runs para) /\
    length lines <= length replacements.
Proof.
  intros Hall.
  destruct (replace_loop_total replacements (Bonterms.mkState para out) Hall)
    as ([para' out'] & Hloop & _ & Hl & Htags & lines & Hout & Hn).
  simpl in *. subst out'. exists para', lines.
  unfold Bonterms.replace_bracketed_in_para. rewrite Hloop.
  split; [done|]. split; [|done].
  apply (replace_loop_same_node _ _ _ Hloop).
Qed.

Lemma replace_bracketed_dict_shape_witness :
  let replacements :=
    [(s_ "[Customer]", s_ "{customer_name}"); (s_ "[Provider]", s_ "{provider_name}")] in
  Forall (fun kv : str * str => fst kv <> []) replacements /\
  exists para' lines,
    Bonterms.replace_bracketed_in_para Bonterms.customer_para replacements []
    = Ok (PyNone, Bonterms.mkState para' ([] ++ lines)) /\
    same_node Bonterms.customer_para para' /\
    map e_tag (e_children para') = map e_tag (e_children Bonterms.customer_para) /\
    length (Bonterms.collect_runs para')
    = length (Bonterms.collect_runs Bonterms.customer_para) /\
    length lines <= length replacements.
Proof.
  intros replacements.
  assert (H : Forall (fun kv : str * str => fst kv <> []) replacements).
  { repeat constructor; by vm_compute. }
  split; [done|].
  exact (replace_bracketed_dict_shape Bonterms.customer_para replacements [] H).
Defined.

(** X3.  Dictionaries compose: running [replace_bracketed_in_para] with the
    entries of [d1] followed by those of [d2] is running it with [d1] and
    then, on the paragraph and the output that call leaves, with [d2]; an
    exception of the first call is the exception of the whole.  This holds
    for every dictionary, the early [return] on a paragraph without runs
    included. *)
Theorem replace_bracketed_dict_app
        (para : Element) (d1 d2 : list (str * str)) (out : list printed) :
  Bonterms.replace_bracketed_in_para para (d1 ++ d2) out
  = match Bonterms.replace_bracketed_in_para para d1 out with
    | Ok (_, s) =>
        Bonterms.replace_bracketed_in_para
          (Bonterms.st_elem s) d2 (Bonterms.st_out s)
    | Raise e => Raise e
    end.
Proof.
  unfold Bonterms.replace_bracketed_in_para. rewrite replace_loop_app.
  destruct (Bonterms.replace_loop d1 _) as [[para1 out1]|e]; done.
Qed.


(** * Further properties: the character map and the empty key *)

Section EdgeFacts.

Import Bonterms.

Lemma concat_new_text_same (texts : list str) si sc ec old new ti :
  texts !! si = Some ti ->
  concat (imap (new_text si sc si ec old new) texts)
  = concat (take si texts) ++ Py.replace1 ti old new ++ concat (drop (S si) texts).
Proof.
  intros Hti.
  assert (Hlen : length (take si texts) = si).
  { apply length_take_le. apply lookup_lt_Some in Hti. lia. }
  rewrite <- (take_drop_middle _ _ _ Hti) at 1.
  rewrite imap_app, imap_cons.
  rewrite (imap_same _ (take si texts)), (imap_same _ (drop (S si) texts)).
  - rewrite Hlen. unfold new_text at 1. rewrite Nat.eqb_refl.
    replace (si + 0 =? si) with true by (symmetry; apply Nat.eqb_eq; lia).
    by rewrite concat_app, concat_cons.
  - intros k x _. unfold new_text. simpl. rewrite Nat.eqb_refl, Hlen.
    replace (si + S k =? si) with false by (symmetry; apply Nat.eqb_neq; lia).
    done.
  - intros k x Hk. unfold new_text. rewrite Nat.eqb_refl.
    apply lookup_lt_Some in Hk. rewrite length_take in Hk.
    replace (k =? si) with false by (symmetry; apply Nat.eqb_neq; lia).
    done.
Qed.

Lemma concat_new_text_cross (texts : list str) si sc ei ec old new ti tj :
  si < ei -> texts !! si = Some ti -> texts !! ei = Some tj ->
  concat (imap (new_text si sc ei ec old new) texts)
  = concat (take si texts) ++ take sc ti ++ new ++ drop (ec + 1) tj
    ++ concat (drop (S ei) texts).
Proof.
  intros Hlt Hti Htj.
  destruct (split_two texts si ei ti tj Hlt Hti Htj) as (A & M & B & -> & HA & HM).
  assert (Htake : take si (A ++ ti :: M ++ tj :: B) = A)
    by (by rewrite take_app_length').
  assert (Hdrop : drop (S ei) (A ++ ti :: M ++ tj :: B) = B).
  { replace (A ++ ti :: M ++ tj :: B) with ((A ++ ti :: M ++ [tj]) ++ B)
      by (by rewrite <- !app_assoc; simpl; rewrite <- app_assoc).
    rewrite drop_app_length'; [done|].
    rewrite !length_app. simpl. rewrite length_app. simpl. lia. }
  rewrite Htake, Hdrop.
  rewrite imap_app, imap_cons, imap_app, imap_cons.
  rewrite (imap_same _ A), (imap_same _ B).
  - rewrite !concat_app, !concat_cons, !concat_app, !concat_cons.
    rewrite concat_imap_nil.
    + rewrite HA, HM. unfold new_text. simpl.
      replace (si =? ei) with false by (symmetry; apply Nat.eqb_neq; lia).
      replace (si + 0 =? si) with true by (symmetry; apply Nat.eqb_eq; lia).
      replace (si + S (ei - S si + 0) =? si) with false
        by (symmetry; apply Nat.eqb_neq; lia).
      replace (si + S (ei - S si + 0) =? ei) with true
        by (symmetry; apply Nat.eqb_eq; lia).
      replace (si <? si + S (ei - S si + 0)) with true
        by (symmetry; apply Nat.ltb_lt; lia).
      replace (si + S (ei - S si + 0) <? ei) with false
        by (symmetry; apply Nat.ltb_ge; lia).
      simpl. by rewrite <- !app_assoc.
    + intros k x Hk. unfold new_text. simpl. apply lookup_lt_Some in Hk.
      replace (si =? ei) with false by (symmetry; apply Nat.eqb_neq; lia).
      rewrite HA.
      replace (si + S k =? si) with false by (symmetry; apply Nat.eqb_neq; lia).
      replace (si <? si + S k) with true by (symmetry; apply Nat.ltb_lt; lia).
      replace (si + S k <? ei) with true by (symmetry; apply Nat.ltb_lt; lia).
      done.
  - intros k x _. unfold new_text. simpl. rewrite HA, HM.
    replace (si =? ei) with false by (symmetry; apply Nat.eqb_neq; lia).
    replace (si + S (ei - S si + S k) =? si) with false
      by (symmetry; apply Nat.eqb_neq; lia).
    replace (si + S (ei - S si + S k) <? ei) with false
      by (symmetry; apply Nat.ltb_ge; lia).
    replace (si + S (ei - S si + S k) =? ei) with false
      by (symmetry; apply Nat.eqb_neq; lia).
    by rewrite andb_false_r.
  - intros k x Hk. unfold new_text. apply lookup_lt_Some in Hk.
    replace (si =? ei) with false by (symmetry; apply Nat.eqb_neq; lia).
    replace (k =? si) with false by (symmetry; apply Nat.eqb_neq; lia).
    replace (si <? k) with false by (symmetry; apply Nat.ltb_ge; lia).
    replace (k =? ei) with false by (symmetry; apply Nat.eqb_neq; lia).
    done.
Qed.

Lemma getitem_minus1 {A} (l : list A) :
  l <> [] -> Py.getitem l (-1) = l !! (length l - 1).
Proof.
  intros H. assert (0 < length l) by (destruct l; [done | simpl; lia]).
  unfold Py.getitem.
  destruct (Z.leb_spec 0 (-1)); [lia|].
  destruct (Z.leb_spec 0 (Z.of_nat (length l) + -1)); [|lia].
  f_equal. lia.
Qed.

Lemma concat_nil_lookup {A} (l : list (list A)) i t :
  concat l = [] -> l !! i = Some t -> t = [].
Proof.
  intros Hc Hi. rewrite <- (take_drop_middle _ _ _ Hi) in Hc.
  rewrite concat_app, concat_cons in Hc.
  apply app_eq_nil in Hc as [_ Hc]. by apply app_eq_nil in Hc as [Hc _].
Qed.

End EdgeFacts.


(** X4.  The character map indexes the text: it has one entry per
    character of the concatenated text, and entry [p], a pair [(i, j)],
    points at character [j] of the text of run [i], which is character [p]
    of the concatenated text. *)
Theorem char_map_indexes_text (runs : list Element) :
  length (Bonterms.build_char_map runs) = length (Bonterms.build_full_text runs) /\
  forall p i j,
    Bonterms.build_char_map runs !! p = Some (i, j) ->
    exists r c,
      runs !! i = Some r /\
      Bonterms.run_text r !! j = Some c /\
      Bonterms.build_full_text runs !! p = Some c.
Proof.
  split; [apply length_char_map_from|].
  intros p i j H. unfold Bonterms.build_char_map in H.
  destruct (char_map_lookup _ _ _ _ H) as (t & Ht & Hj & Hp).
  rewrite list_lookup_fmap in Ht.
  destruct (runs !! i) as [r|] eqn:Hr; [|done]. simpl in Ht. injection Ht as <-.
  destruct (lookup_lt_is_Some_2 (Bonterms.run_text r) j Hj) as [c Hc].
  exists r, c. repeat split; try done.
  unfold Bonterms.build_full_text.
  rewrite (concat_split (map Bonterms.run_text runs) i (Bonterms.run_text r))
    by (by rewrite list_lookup_fmap, Hr).
  rewrite Hp, offset_eq, lookup_app_r by lia.
  replace (length (concat (take i (map Bonterms.run_text runs))) + j
           - length (concat (take i (map Bonterms.run_text runs)))) with j by lia.
  by rewrite lookup_app_l.
Qed.

Lemma char_map_indexes_text_witness :
  Bonterms.build_char_map (Bonterms.collect_runs Bonterms.customer_para) !! 3
  = Some (1, 2) /\
  exists r c,
    Bonterms.collect_runs Bonterms.customer_para !! 1 = Some r /\
    Bonterms.run_text r !! 2 = Some c /\
    Bonterms.build_full_text (Bonterms.collect_runs Bonterms.customer_para) !! 3
    = Some c.
Proof.
  assert (H : Bonterms.build_char_map (Bonterms.collect_runs Bonterms.customer_para) !! 3
              = Some (1, 2)) by (by vm_compute).
  split; [done|].
  exact (proj2 (char_map_indexes_text _) 3 1 2 H).
Defined.

(** X5.  The empty string as a key.  On a paragraph whose text is not
    empty the call does not raise, and it does not insert [new] at the
    front of the text as [str.replace] would: when at least two runs have
    a non-empty text, the whole text of the paragraph is lost and [new] is
    all that remains; only when a single run holds all the text is [new]
    put in front of it. *)
Theorem replace_bracketed_empty_key
        (para : Element) (new : str) (out : list printed) :
  paragraph_text para <> [] ->
  exists para',
    Bonterms.replace_bracketed_in_para para [([], new)] out
    = Ok (PyNone, Bonterms.mkState para' (out ++ [PrintedReplaced [] new])) /\
    ((exists i j ti tj,
         i < j /\ run_texts para !! i = Some ti /\ ti <> [] /\
         run_texts para !! j = Some tj /\ tj <> []) ->
     paragraph_text para' = new) /\
    ((forall i j ti tj,
         run_texts para !! i = Some ti -> ti <> [] ->
         run_texts para !! j = Some tj -> tj <> [] -> i = j) ->
     paragraph_text para' = new ++ paragraph_text para).
Proof.
  intros Hne.
  set (cm := Bonterms.build_char_map (Bonterms.collect_runs para)).
  assert (Hcm : length cm = length (paragraph_text para))
    by apply length_char_map_from.
  assert (Hpos : 0 < length (paragraph_text para))
    by (destruct (paragraph_text para); [done | simpl; lia]).
  assert (Hcmne : cm <> []) by (intros E; rewrite E in Hcm; simpl in Hcm; lia).
  destruct (lookup_lt_is_Some_2 cm 0) as [[si sc] Hs]; [lia|].
  destruct (lookup_lt_is_Some_2 cm (length cm - 1)) as [[ei ec] He]; [lia|].
  destruct (replace_step_found para out [] new 0 si sc ei ec)
    as (para' & ti & tj & Hstep & _ & Htexts & Hti & Htj & Hle & Hp).
  { apply find_nat_empty. }
  { by rewrite getitem_nonneg. }
  { fold cm. change (Z.of_nat 0 + Z.of_nat (length (@nil ascii)) - 1)%Z with (-1)%Z.
    rewrite getitem_minus1 by done. exact He. }
  destruct (char_map_lookup _ _ _ _ Hs) as (ti' & Hti' & Hsc & _).
  destruct (char_map_lookup _ _ _ _ He) as (tj' & Htj' & Hec & Hq).
  fold (run_texts para) in Hti', Htj', Hq.
  assert (ti' = ti) as -> by congruence. assert (tj' = tj) as -> by congruence.
  (* nothing before the start run and nothing after the end run *)
  assert (Hbefore : concat (take si (run_texts para)) = []).
  { apply length_zero_iff_nil. rewrite <- offset_eq. lia. }
  assert (Hsc0 : sc = 0) by lia. subst sc.
  pose proof (offset_succ _ _ _ Htj) as Hsucc.
  assert (Hsplit : length (paragraph_text para)
                   = offset (run_texts para) (S ei)
                     + length (concat (drop (S ei) (run_texts para)))).
  { unfold paragraph_text. rewrite <- (take_drop (S ei) (run_texts para)) at 1.
    by rewrite concat_app, length_app, offset_eq. }
  assert (Hafter : concat (drop (S ei) (run_texts para)) = []).
  { apply length_zero_iff_nil. lia. }
  assert (Hec' : ec + 1 = length tj) by lia.
  assert (Hfull : paragraph_text para
                  = concat (take si (run_texts para)) ++ ti
                    ++ concat (drop (S si) (run_texts para)))
    by (by apply concat_split).
  assert (Hin : forall i t, run_texts para !! i = Some t -> t <> [] -> si <= i <= ei).
  { intros i t Hi Ht. split.
    - destruct (decide (si <= i)) as [|Hlt]; [done|]. exfalso. apply Ht.
      apply (concat_nil_lookup (take si (run_texts para)) i t Hbefore).
      rewrite lookup_take. case_decide; [done | lia].
    - destruct (decide (i <= ei)) as [|Hgt]; [done|]. exfalso. apply Ht.
      apply (concat_nil_lookup (drop (S ei) (run_texts para)) (i - S ei) t Hafter).
      rewrite lookup_drop. rewrite <- Hi. f_equal. lia. }
  assert (Hti_ne : ti <> []) by (intros ->; simpl in Hsc; lia).
  assert (Htj_ne : tj <> []) by (intros ->; simpl in Hec; lia).
  exists para'. split; [|split].
  - unfold Bonterms.replace_bracketed_in_para. simpl. by rewrite Hstep.
  - intros (i & j & ti0 & tj0 & Hlt & Hi & Hine & Hj & Hjne).
    pose proof (Hin i ti0 Hi Hine). pose proof (Hin j tj0 Hj Hjne).
    unfold paragraph_text at 1. rewrite Htexts.
    rewrite (concat_new_text_cross _ si 0 ei ec [] new ti tj) by (lia || done).
    rewrite Hbefore, Hafter, Hec', drop_all. simpl. by rewrite app_nil_r.
  - intros Huniq.
    assert (si = ei) as <- by (by apply (Huniq si ei ti tj)).
    unfold paragraph_text at 1. rewrite Htexts.
    rewrite (concat_new_text_same _ si 0 ec [] new ti) by done.
    rewrite Hfull, Hbefore. unfold Py.replace1. rewrite find_nat_empty.
    simpl. rewrite drop_0. by rewrite <- app_assoc.
Qed.

Lemma replace_bracketed_empty_key_witness :
  paragraph_text Bonterms.customer_para <> [] /\
  exists para',
    Bonterms.replace_bracketed_in_para Bonterms.customer_para [([], s_ "{x}")] []
    = Ok (PyNone, Bonterms.mkState para' ([] ++ [PrintedReplaced [] (s_ "{x}")])) /\
    ((exists i j ti tj,
         i < j /\ run_texts Bonterms.customer_para !! i = Some ti /\ ti <> [] /\
         run_texts Bonterms.customer_para !! j = Some tj /\ tj <> []) ->
     paragraph_text para' = s_ "{x}") /\
    ((forall i j ti tj,
         run_texts Bonterms.customer_para !! i = Some ti -> ti <> [] ->
         run_texts Bonterms.customer_para !! j = Some tj -> tj <> [] -> i = j) ->
     paragraph_text para' = s_ "{x}" ++ paragraph_text Bonterms.customer_para).
Proof.
  split; [by vm_compute|].
  apply replace_bracketed_empty_key. by vm_compute.
Defined.

(** * More on [append_tag_after_label] *)

Section AppendMore.

Import Bonterms.

Lemma last_label_run_choice runs count label_end dflt :
  last_label_run runs count label_end dflt ∈ runs \/
  last_label_run runs count label_end dflt = dflt.
Proof.
  revert count. induction runs as [|[i r] runs IH]; intros count; simpl.
  - by right.
  - destruct (label_end <=? count + length (run_text r)).
    + left. apply list_elem_of_here.
    + destruct (IH (count + length (run_text r))) as [H|H].
      * left. by apply list_elem_of_further.
      * by right.
Qed.

Lemma last_elem_of {A} (l : list A) x : last l = Some x -> x ∈ l.
Proof.
  intros H. apply last_Some in H as [l' ->].
  apply elem_of_app. right. apply list_elem_of_here.
Qed.

Lemma direct_text_eq para :
  direct_text para
  = concat (map (fun ir : nat * Element => run_text (snd ir)) (direct_runs para)).
Proof. reflexivity. Qed.

Lemma rpr_children_new_tag_run r template_tag :
  rpr_children (new_tag_run r template_tag)
  = ET.remove_first w_bCs (ET.remove_first w_b (rpr_children r)).
Proof.
  unfold rpr_children, new_tag_run, ET.find.
  destruct (List.find (ET.has_tag w_rPr) (e_children r)) as [rpr|] eqn:F.
  - apply find_some in F as [_ F].
    cbn [e_children app List.find]. rewrite has_tag_with_children, F. done.
  - done.
Qed.

(** The two ways a call of [append_tag_after_label] ends. *)
Lemma append_tag_cases para label template_tag out :
  ((direct_runs para = [] \/ ~ occurs (direct_text para) label) /\
   append_tag_after_label para label template_tag out
   = Ok (PyNone, mkState para out)) \/
  (direct_runs para <> [] /\ occurs (direct_text para) label /\
   exists idx r,
     (idx, r) ∈ direct_runs para /\
     append_tag_after_label para label template_tag out
     = Ok (PyNone,
           mkState
             (ET.with_children para
                (take (idx + 1) (e_children para)
                 ++ new_tag_run r template_tag :: drop (idx + 1) (e_children para)))
             (out ++ [PrintedAdded template_tag label]))).
Proof.
  unfold append_tag_after_label.
  destruct (last (direct_runs para)) as [last_direct|] eqn:Hlast.
  - assert (Hne : direct_runs para <> []).
    { intros E. by rewrite E in Hlast. }
    rewrite <- direct_text_eq.
    destruct (Py.contains (direct_text para) label) eqn:Hc; cbn [negb].
    + assert (Hocc : occurs (direct_text para) label) by by apply contains_occurs.
      destruct (Py.find_nat (direct_text para) label) as [at_|] eqn:Hf.
      2:{ by apply find_nat_None in Hf. }
      destruct (last_label_run (direct_runs para) 0
                  (at_ + length label) last_direct) as [idx r] eqn:Hl.
      assert (Hin : (idx, r) ∈ direct_runs para).
      { destruct (last_label_run_choice (direct_runs para) 0
                    (at_ + length label) last_direct) as [H|H];
          rewrite Hl in H; [done|].
        rewrite H. by apply last_elem_of. }
      right. split; [done|]. split; [done|]. by exists idx, r.
    + left. split; [|done]. right.
      intros H. apply contains_occurs in H. congruence.
  - left. split; [|done]. left.
    destruct (direct_runs para) as [|x l] eqn:E; [done|].
    destruct (last_is_Some (x :: l)) as [y Hy]; [done|]. congruence.
Qed.

End AppendMore.

(** X6.  [append_tag_after_label] never raises.  It leaves the paragraph and
    standard output as they are when the paragraph has no direct-child run
    with a [w:t], or when the label does not occur in the text of the
    direct-child runs (a label inside a hyperlink is not seen); otherwise
    it inserts exactly one run, right after a direct-child run, and prints
    one line.  The tag, the attributes and the text of the paragraph are
    never changed. *)
Theorem append_tag_never_raises
        (para : Element) (label template_tag : str) (out : list printed) :
  exists para' lines,
    Bonterms.append_tag_after_label para label template_tag out
    = Ok (PyNone, Bonterms.mkState para' (out ++ lines)) /\
    same_node para para' /\
    (Bonterms.direct_runs para = [] \/ ~ occurs (direct_text para) label ->
     para' = para /\ lines = []) /\
    (Bonterms.direct_runs para <> [] -> occurs (direct_text para) label ->
     exists idx r,
       (idx, r) ∈ Bonterms.direct_runs para /\
       e_children para !! idx = Some r /\
       e_children para'
       = take (idx + 1) (e_children para)
         ++ Bonterms.new_tag_run r template_tag :: drop (idx + 1) (e_children para) /\
       lines = [PrintedAdded template_tag label]).
Proof.
  destruct (append_tag_cases para label template_tag out)
    as [[Hno ->]|(Hne & Hocc & idx & r & Hin & ->)].
  - exists para, []. rewrite app_nil_r. split; [done|]. split; [done|].
    split; [done|]. intros H1 H2. destruct Hno; done.
  - eexists _, [PrintedAdded template_tag label]. split; [reflexivity|].
    split; [done|]. split.
    + intros [E|E]; done.
    + intros _ _. exists idx, r. split; [done|].
      split; [by apply direct_runs_lookup | done].
Qed.

Lemma append_tag_never_raises_witness :
  Bonterms.direct_runs Bonterms.party_para <> [] /\
  Py.contains (direct_text Bonterms.party_para) (s_ "Party Name:") = true /\
  exists para' lines,
    Bonterms.append_tag_after_label
      Bonterms.party_para (s_ "Party Name:") (s_ "{party_1_name}") []
    = Ok (PyNone, Bonterms.mkState para' ([] ++ lines)) /\
    same_node Bonterms.party_para para' /\
    length (e_children para') = 3 /\ lines <> [].
Proof.
  split; [by vm_compute|]. split; [by vm_compute|].
  destruct (append_tag_never_raises
              Bonterms.party_para (s_ "Party Name:") (s_ "{party_1_name}") [])
    as (para' & lines & Hcall & Hsame & _ & Hins).
  exists para', lines. split; [done|]. split; [done|].
  destruct Hins as (idx & r & _ & _ & -> & ->).
  - by vm_compute.
  - apply contains_occurs. by vm_compute.
  - split; [|done]. rewrite length_app. cbn [length].
    rewrite length_take, length_drop.
    change (length (e_children Bonterms.party_para)) with 2. lia.
Defined.

(** X7.  The run that [append_tag_after_label] inserts takes its formatting
    from the run it is put after: its run properties are those of that run
    without the first [w:b] and the first [w:bCs]; every other property
    (italic, colour, font, ...) is kept, in order, and a run without
    [w:rPr] gives a run without formatting.  The new run has the tag [w:r]
    and no attribute, and its last child is a [w:t] holding a space and the
    template tag, marked [xml:space="preserve"]. *)
Theorem new_tag_run_formatting (r : Element) (template_tag : str) :
  rpr_children (Bonterms.new_tag_run r template_tag)
  = ET.remove_first Bonterms.w_bCs
      (ET.remove_first Bonterms.w_b (rpr_children r)) /\
  (forall m, m <> Bonterms.w_b -> m <> Bonterms.w_bCs ->
     List.filter (ET.has_tag m) (rpr_children (Bonterms.new_tag_run r template_tag))
     = List.filter (ET.has_tag m) (rpr_children r)) /\
  marker_count Bonterms.w_b (Bonterms.new_tag_run r template_tag)
  = pred (marker_count Bonterms.w_b r) /\
  marker_count Bonterms.w_bCs (Bonterms.new_tag_run r template_tag)
  = pred (marker_count Bonterms.w_bCs r) /\
  (ET.find (Bonterms.new_tag_run r template_tag) Bonterms.w_rPr = None <->
   ET.find r Bonterms.w_rPr = None) /\
  e_tag (Bonterms.new_tag_run r template_tag) = Bonterms.w_r /\
  e_attrib (Bonterms.new_tag_run r template_tag) = [] /\
  last (e_children (Bonterms.new_tag_run r template_tag))
  = Some (mkElement Bonterms.w_t [(Bonterms.xml_space, s_ "preserve")]
                    (Some (s_ " " ++ template_tag)) []) /\
  length (e_children (Bonterms.new_tag_run r template_tag))
  = match ET.find r Bonterms.w_rPr with Some _ => 2 | None => 1 end.
Proof.
  assert (Hb : Bonterms.w_b <> Bonterms.w_bCs) by done.
  split; [apply rpr_children_new_tag_run|].
  split.
  { intros m H1 H2. rewrite rpr_children_new_tag_run.
    rewrite filter_remove_first_other by done.
    by rewrite filter_remove_first_other. }
  split.
  { unfold marker_count. rewrite rpr_children_new_tag_run.
    rewrite filter_remove_first_other by done.
    apply filter_remove_first_same. }
  split.
  { unfold marker_count. rewrite rpr_children_new_tag_run.
    rewrite filter_remove_first_same.
    by rewrite filter_remove_first_other. }
  unfold Bonterms.new_tag_run, ET.find.
  destruct (List.find (ET.has_tag Bonterms.w_rPr) (e_children r)) as [rpr|] eqn:F.
  - apply find_some in F as [_ F].
    cbn [e_children app List.find]. rewrite has_tag_with_children, F.
    repeat split; done.
  - repeat split; done.
Qed.

(** * More on [replace_cell_text] *)

Section CellMore.

Import Bonterms.

Lemma first_index_lookup {A B} (f : A -> option B) (l : list A) j i p :
  ET.first_index f l j = Some (i, p) ->
  j <= i /\ exists c, l !! (i - j) = Some c /\ f c = Some p.
Proof.
  revert j. induction l as [|c l IH]; intros j; simpl; [done|].
  destruct (f c) as [q|] eqn:F.
  - intros [= <- <-]. split; [lia|]. exists c. by rewrite Nat.sub_diag.
  - intros H. apply IH in H as (Hle & c' & Hc & Hf). split; [lia|].
    exists c'. split; [|done].
    replace (i - j) with (S (i - S j)) by lia. done.
Qed.

Lemma first_path_cons tg e i p :
  ET.first_path tg e = Some (i :: p) ->
  ET.has_tag tg e = false /\
  exists c, e_children e !! i = Some c /\ ET.first_path tg c = Some p.
Proof.
  destruct e as [t a x cs]. simpl.
  destruct (ET.has_tag tg (mkElement t a x cs)); [done|].
  destruct (ET.first_index _ cs 0) as [[j q]|] eqn:F; [|done].
  intros [= <- <-]. split; [done|].
  apply first_index_lookup in F as (_ & c & Hc & Hf).
  rewrite Nat.sub_0_r in Hc. by exists c.
Qed.

Lemma first_path_nil tg e :
  ET.first_path tg e = Some [] <-> ET.has_tag tg e = true.
Proof.
  destruct e as [t a x cs]. simpl.
  destruct (ET.has_tag tg (mkElement t a x cs)).
  - done.
  - destruct (ET.first_index _ cs 0) as [[j q]|]; split; done.
Qed.

Lemma e_tag_alter_at f p e :
  (forall x, e_tag (f x) = e_tag x) -> e_tag (ET.alter_at f p e) = e_tag e.
Proof. intros Hf. destruct p; simpl; [apply Hf | done]. Qed.

Lemma e_tag_fill_first_run new_text r :
  e_tag (fill_first_run new_text r) = e_tag r.
Proof. unfold fill_first_run. by destruct (ET.find r w_t). Qed.

Lemma same_node_alter_at_cons f i p e : same_node e (ET.alter_at f (i :: p) e).
Proof. done. Qed.

Lemma qualifies_first_path old_text para :
  qualifies old_text para = true ->
  exists i p, ET.first_path w_r para = Some (i :: p).
Proof.
  unfold qualifies. intros H.
  apply andb_prop in H as [H Hc]. apply andb_prop in H as [Hp Hi].
  pose proof (first_path_iter w_r para) as F.
  destruct (ET.first_path w_r para) as [[|i p]|] eqn:E.
  - apply first_path_nil in E. apply has_tag_eq in E, Hp.
    rewrite Hp in E. done.
  - by exists i, p.
  - by rewrite F in Hi.
Qed.

(** What [replace_cell_text] does to a paragraph that qualifies, wherever
    its first run sits. *)
Lemma replace_in_cell_para_general old_text new_text para i p :
  qualifies old_text para = true ->
  ET.first_path w_r para = Some (i :: p) ->
  replace_in_cell_para old_text new_text para
  = Some (ET.with_children para
            (remove_other_runs (i :: p) 0
               (alter (ET.alter_at (fill_first_run new_text) p) i
                      (e_children para)))).
Proof.
  unfold qualifies, replace_in_cell_para. intros H E.
  apply andb_prop in H as [H Hc]. apply andb_prop in H as [Hp Hi].
  destruct (ET.iter w_r para) as [|r0 rs]; [done|].
  rewrite Hc, E. done.
Qed.

Lemma keep_other_eq c :
  keep_other c = negb (ET.has_tag w_r c) && negb (ET.has_tag w_hyperlink c).
Proof. reflexivity. Qed.

Lemma remove_other_runs_nested fr j l :
  (forall k, fr <> [k]) ->
  remove_other_runs fr j l = List.filter keep_other l.
Proof.
  intros Hfr. revert j.
  induction l as [|c l IH]; intros j; cbn [remove_other_runs List.filter]; [done|].
  rewrite bool_decide_eq_false_2 by apply Hfr.
  rewrite keep_other_eq.
  destruct (ET.has_tag w_r c); cbn [andb negb]; [apply IH|].
  destruct (ET.has_tag w_hyperlink c); cbn [andb negb]; [apply IH|].
  by rewrite IH.
Qed.

Lemma filter_keep_other_remove fr j l :
  List.filter keep_other (remove_other_runs fr j l) = List.filter keep_other l.
Proof.
  revert j.
  induction l as [|c l IH]; intros j; cbn [remove_other_runs List.filter]; [done|].
  pose proof (keep_other_eq c) as Hk.
  destruct (ET.has_tag w_r c) eqn:Hr; cbn [andb negb] in *.
  - assert (Hh : ET.has_tag w_hyperlink c = false).
    { apply has_tag_neq. apply has_tag_eq in Hr. rewrite Hr.
      apply w_r_not_hyperlink. }
    rewrite Hk, Hh.
    destruct (bool_decide (fr = [j])); cbn [andb negb List.filter];
      rewrite ?Hk; apply IH.
  - destruct (ET.has_tag w_hyperlink c) eqn:Hh; cbn [andb negb] in *; rewrite Hk;
      [apply IH|].
    cbn [List.filter]. rewrite Hk. by rewrite IH.
Qed.

Lemma run_not_hyperlink c :
  ET.has_tag w_r c = true -> ET.has_tag w_hyperlink c = false.
Proof.
  intros Hr. apply has_tag_neq. apply has_tag_eq in Hr. rewrite Hr.
  apply w_r_not_hyperlink.
Qed.

Lemma filter_hyperlink_remove fr j l :
  List.filter (ET.has_tag w_hyperlink) (remove_other_runs fr j l) = [].
Proof.
  revert j.
  induction l as [|c l IH]; intros j; cbn [remove_other_runs List.filter]; [done|].
  destruct (ET.has_tag w_r c) eqn:Hr; cbn [andb negb].
  - pose proof (run_not_hyperlink c Hr) as Hh. rewrite Hh.
    destruct (bool_decide (fr = [j])); cbn [andb negb List.filter];
      rewrite ?Hh; apply IH.
  - destruct (ET.has_tag w_hyperlink c) eqn:Hh; cbn [List.filter]; [apply IH|].
    rewrite Hh. apply IH.
Qed.

Lemma filter_run_keep_other l :
  List.filter (ET.has_tag w_r) (List.filter keep_other l) = [].
Proof. apply filter_tag_keep_other. by left. Qed.

Lemma filter_run_remove fr j l :
  length (List.filter (ET.has_tag w_r) (remove_other_runs fr j l)) <= 1.
Proof.
  revert j.
  induction l as [|c l IH]; intros j; cbn [remove_other_runs List.filter];
    [simpl; lia|].
  destruct (ET.has_tag w_r c) eqn:Hr; cbn [andb negb].
  - pose proof (run_not_hyperlink c Hr) as Hh. rewrite Hh.
    destruct (bool_decide (fr = [j])) eqn:Hd; cbn [andb negb List.filter];
      [|apply IH].
    apply bool_decide_eq_true_1 in Hd. subst fr.
    rewrite Hr. rewrite remove_other_runs_away by lia.
    rewrite filter_run_keep_other. simpl. lia.
  - destruct (ET.has_tag w_hyperlink c) eqn:Hh; cbn [List.filter]; [apply IH|].
    rewrite Hr. apply IH.
Qed.

Lemma map_tag_alter (g : Element -> Element) i (l : list Element) :
  (forall x, e_tag (g x) = e_tag x) ->
  map e_tag (alter g i l) = map e_tag l.
Proof.
  intros Hg. apply list_eq. intros k.
  change (map e_tag) with (fmap (M:=list) e_tag). rewrite !list_lookup_fmap.
  rewrite list_lookup_alter.
  case_decide; [subst|done].
  destruct (l !! k) as [x|]; [|done].
  change (Some (e_tag (g x)) = Some (e_tag x)). by rewrite Hg.
Qed.

Lemma keep_other_ext c c' : e_tag c' = e_tag c -> keep_other c' = keep_other c.
Proof.
  intros H. unfold keep_other.
  by rewrite (has_tag_ext w_r c c' H), (has_tag_ext w_hyperlink c c' H).
Qed.

Lemma map_tag_filter_keep_other (l l' : list Element) :
  map e_tag l' = map e_tag l ->
  map e_tag (List.filter keep_other l') = map e_tag (List.filter keep_other l).
Proof.
  revert l'. induction l as [|c l IH]; intros [|c' l']; simpl; try done.
  intros [= Hc Hl]. rewrite (keep_other_ext c c' Hc).
  destruct (keep_other c); simpl; [rewrite Hc; f_equal|]; by apply IH.
Qed.

(** The loop over the children of the cell, seen from outside: either no
    child qualifies and nothing happens, or the first child that qualifies
    is the only one that changes. *)
Lemma replace_cell_children_none old_text new_text cs :
  Forall (fun c => qualifies old_text c = false) cs ->
  replace_cell_children old_text new_text cs = None.
Proof.
  induction 1 as [|c cs Hc _ IH]; simpl; [done|].
  destruct (ET.has_tag w_p c) eqn:Hp.
  - rewrite replace_in_cell_para_skip by done. by rewrite IH.
  - by rewrite IH.
Qed.

Lemma qualifies_split old_text cs :
  Forall (fun c => qualifies old_text c = false) cs \/
  exists before para after,
    cs = before ++ para :: after /\
    Forall (fun c => qualifies old_text c = false) before /\
    qualifies old_text para = true.
Proof.
  induction cs as [|c cs IH]; [left; constructor|].
  destruct (qualifies old_text c) eqn:Hq.
  - right. exists [], c, cs. split; [done|]. split; [constructor | done].
  - destruct IH as [IH|(before & para & after & -> & Hb & Hp)].
    + left. by constructor.
    + right. exists (c :: before), para, after. split; [done|].
      split; [by constructor | done].
Qed.

Lemma qualifies_is_p old_text c : qualifies old_text c = true -> ET.has_tag w_p c = true.
Proof.
  unfold qualifies. intros H.
  apply andb_prop in H as [H _]. by apply andb_prop in H as [H _].
Qed.

End CellMore.

(** X8.  [replace_cell_text] changes at most one child of the cell.  When no
    child qualifies (a [w:p] with a run and the placeholder in its text) the
    cell and standard output are left as they are.  Otherwise the first
    child that qualifies is the only one rewritten and one line is printed;
    the rewritten paragraph keeps its tag, attributes and text, has no
    hyperlink child and at most one [w:r] child left, and its other children
    keep their tags and their order. *)
Theorem replace_cell_text_one_paragraph
        (cell : Element) (old_text new_text : str) (out : list printed) :
  (Forall (fun c => qualifies old_text c = false) (e_children cell) ->
   Bonterms.replace_cell_text cell old_text new_text out
   = (PyNone, Bonterms.mkState cell out)) /\
  (forall before para after,
      e_children cell = before ++ para :: after ->
      Forall (fun c => qualifies old_text c = false) before ->
      qualifies old_text para = true ->
      exists para',
        Bonterms.replace_cell_text cell old_text new_text out
        = (PyNone,
           Bonterms.mkState
             (ET.with_children cell (before ++ para' :: after))
             (out ++ [PrintedReplacedCell (take 40 old_text) new_text])) /\
        same_node para para' /\
        List.filter (ET.has_tag Bonterms.w_hyperlink) (e_children para') = [] /\
        length (List.filter (ET.has_tag Bonterms.w_r) (e_children para')) <= 1 /\
        map e_tag (List.filter keep_other (e_children para'))
        = map e_tag (List.filter keep_other (e_children para))).
Proof.
  split.
  - intros H. unfold Bonterms.replace_cell_text.
    by rewrite replace_cell_children_none.
  - intros before para after Hcell Hb Hq.
    destruct (qualifies_first_path old_text para Hq) as (i & p & Hfp).
    pose proof (replace_in_cell_para_general old_text new_text para i p Hq Hfp) as Hr.
    eexists. split.
    { unfold Bonterms.replace_cell_text. rewrite Hcell.
      rewrite (replace_cell_children_first old_text new_text before para _ after Hb
                 (qualifies_is_p _ _ Hq) Hr). reflexivity. }
    split; [done|]. cbn [ET.with_children e_children].
    split; [apply filter_hyperlink_remove|].
    split; [apply filter_run_remove|].
    rewrite filter_keep_other_remove.
    apply map_tag_filter_keep_other, map_tag_alter.
    intros x. apply e_tag_alter_at, e_tag_fill_first_run.
Qed.

Lemma replace_cell_text_one_paragraph_witness :
  let before := [Bonterms.para_elem [Bonterms.plain_run "a"]] in
  let para :=
    Bonterms.para_elem
      [Bonterms.plain_run "see "; Bonterms.run_elem [Bonterms.w_i] "[Fill";
       Bonterms.plain_run " in]";
       Bonterms.hyperlink_elem [Bonterms.plain_run "zz"]] in
  let after := [Bonterms.fill_in_para] in
  Forall (fun c => qualifies (s_ "[Fill in]") c = false) before /\
  qualifies (s_ "[Fill in]") para = true /\
  exists para',
    Bonterms.replace_cell_text
      Bonterms.key_terms_cell (s_ "[Fill in]") (s_ "{effective_date}") []
    = (PyNone,
       Bonterms.mkState
         (ET.with_children Bonterms.key_terms_cell (before ++ para' :: after))
         ([] ++ [PrintedReplacedCell (take 40 (s_ "[Fill in]")) (s_ "{effective_date}")])) /\
    same_node para para' /\
    List.filter (ET.has_tag Bonterms.w_hyperlink) (e_children para') = [] /\
    length (List.filter (ET.has_tag Bonterms.w_r) (e_children para')) <= 1 /\
    map e_tag (List.filter keep_other (e_children para'))
    = map e_tag (List.filter keep_other (e_children para)).
Proof.
  intros before para after.
  assert (Hb : Forall (fun c => qualifies (s_ "[Fill in]") c = false) before).
  { repeat constructor. }
  assert (Hq : qualifies (s_ "[Fill in]") para = true) by (by vm_compute).
  split; [done|]. split; [done|].
  exact (proj2 (replace_cell_text_one_paragraph
                  Bonterms.key_terms_cell (s_ "[Fill in]") (s_ "{effective_date}") [])
               before para after eq_refl Hb Hq).
Defined.

(** X9.  When the first run of the paragraph that qualifies sits inside a
    hyperlink, [replace_cell_text] writes the new text into that run and
    then removes the hyperlink with it: the paragraph is left with exactly
    its children that are neither runs nor hyperlinks, the new text is
    written nowhere, and the line that reports the replacement is printed
    all the same. *)
Theorem replace_cell_text_first_run_linked :
  forall (cell : Element) (old_text new_text : str) (out : list printed)
         (before after : list Element) (para h : Element) (i : nat) (p : list nat),
    e_children cell = before ++ para :: after ->
    Forall (fun c => qualifies old_text c = false) before ->
    qualifies old_text para = true ->
    ET.first_path Bonterms.w_r para = Some (i :: p) ->
    e_children para !! i = Some h ->
    ET.has_tag Bonterms.w_hyperlink h = true ->
    Bonterms.replace_cell_text cell old_text new_text out
    = (PyNone,
       Bonterms.mkState
         (ET.with_children cell
            (before
             ++ ET.with_children para (List.filter keep_other (e_children para))
             :: after))
         (out ++ [PrintedReplacedCell (take 40 old_text) new_text])).
Proof.
  intros cell old_text new_text out before after para h i p Hcell Hb Hq Hfp Hi Hh.
  pose proof (replace_in_cell_para_general old_text new_text para i p Hq Hfp) as Hr.
  destruct (first_path_cons _ _ _ _ Hfp) as (_ & c & Hc & Hpc).
  rewrite Hi in Hc. injection Hc as <-.
  assert (Hp : p <> []).
  { intros ->. apply first_path_nil in Hpc.
    apply has_tag_eq in Hpc, Hh. rewrite Hpc in Hh.
    by apply w_r_not_hyperlink. }
  rewrite remove_other_runs_nested in Hr.
  2:{ intros k [= _ E]. done. }
  rewrite (alter_middle _ _ _ _ Hi) in Hr.
  rewrite List.filter_app in Hr. cbn [List.filter] in Hr.
  assert (Hk : keep_other (ET.alter_at (Bonterms.fill_first_run new_text) p h) = false).
  { unfold keep_other.
    rewrite (has_tag_ext Bonterms.w_hyperlink h).
    - rewrite Hh. by rewrite andb_false_r.
    - apply e_tag_alter_at, e_tag_fill_first_run. }
  rewrite Hk in Hr.
  assert (Hsame : List.filter keep_other (take i (e_children para))
                  ++ List.filter keep_other (drop (S i) (e_children para))
                  = List.filter keep_other (e_children para)).
  { rewrite <- (take_drop_middle _ _ _ Hi) at 3.
    rewrite List.filter_app. cbn [List.filter].
    assert (Hk' : keep_other h = false).
    { unfold keep_other. rewrite Hh. by rewrite andb_false_r. }
    by rewrite Hk'. }
  rewrite Hsame in Hr.
  unfold Bonterms.replace_cell_text. rewrite Hcell.
  by rewrite (replace_cell_children_first old_text new_text before para _ after Hb
                (qualifies_is_p _ _ Hq) Hr).
Qed.

Lemma replace_cell_text_first_run_linked_witness :
  let cell := Bonterms.cell_elem [Bonterms.linked_first_para] in
  qualifies (s_ "[Fill in]") Bonterms.linked_first_para = true /\
  ET.first_path Bonterms.w_r Bonterms.linked_first_para = Some [0; 0] /\
  Bonterms.replace_cell_text cell (s_ "[Fill in]") (s_ "{effective_date}") []
  = (PyNone,
     Bonterms.mkState
       (ET.with_children cell
          ([] ++ ET.with_children Bonterms.linked_first_para
                   (List.filter keep_other (e_children Bonterms.linked_first_para))
              :: []))
       ([] ++ [PrintedReplacedCell (take 40 (s_ "[Fill in]")) (s_ "{effective_date}")])).
Proof.
  intros cell.
  assert (Hq : qualifies (s_ "[Fill in]") Bonterms.linked_first_para = true)
    by (by vm_compute).
  assert (Hfp : ET.first_path Bonterms.w_r Bonterms.linked_first_para = Some [0; 0])
    by (by vm_compute).
  split; [done|]. split; [done|].
  exact (replace_cell_text_first_run_linked
           cell (s_ "[Fill in]") (s_ "{effective_date}") [] [] []
           Bonterms.linked_first_para
           (Bonterms.hyperlink_elem [Bonterms.plain_run "[Fill in]"]) 0 [0]
           eq_refl (@List.Forall_nil Element _) Hq Hfp eq_refl eq_refl).
Defined.

(** * The steps on the document *)

Section Loops.

Import Bonterms BontermsDoc.

Context {S : Type} (ext : S -> S -> Prop).
Hypothesis ext_refl : forall s, ext s s.
Hypothesis ext_trans : forall a b c, ext a b -> ext b c -> ext a c.

Lemma for_each_tagged_steady tg body l (s : S) :
  steady ext tg body ->
  exists l' s',
    for_each_tagged tg body l s = DocOk (l', s') /\
    map e_tag l' = map e_tag l /\ ext s s'.
Proof.
  intros Hb. revert s. induction l as [|c l IH]; intros s; simpl.
  - exists [], s. by repeat split.
  - destruct (ET.has_tag tg c) eqn:Ht.
    + destruct (Hb c s Ht) as (c' & s1 & -> & Htag & He).
      destruct (IH s1) as (l' & s' & -> & Htags & He').
      exists (c' :: l'), s'. split; [done|]. split.
      * simpl. by rewrite Htag, Htags.
      * by eapply ext_trans.
    + destruct (IH s) as (l' & s' & -> & Htags & He').
      exists (c :: l'), s'. split; [done|]. split; [|done].
      simpl. by rewrite Htags.
Qed.

Lemma in_children_steady tg tg' body :
  steady ext tg body -> steady ext tg' (in_children tg body).
Proof.
  intros Hb parent s _. unfold in_children.
  destruct (for_each_tagged_steady tg body (e_children parent) s Hb)
    as (l' & s' & -> & _ & He).
  by exists (ET.with_children parent l'), s'.
Qed.

Lemma in_children_tags tg body parent (s : S) parent' s' :
  steady ext tg body ->
  in_children tg body parent s = DocOk (parent', s') ->
  same_node parent parent' /\
  map e_tag (e_children parent') = map e_tag (e_children parent) /\ ext s s'.
Proof.
  intros Hb. unfold in_children.
  destruct (for_each_tagged_steady tg body (e_children parent) s Hb)
    as (l' & s1 & -> & Htags & He).
  intros [= <- <-]. by repeat split.
Qed.

Lemma map_tag_alter_first P (body' : Element) l :
  (forall body, List.find P l = Some body -> e_tag body' = e_tag body) ->
  map e_tag (ET.alter_first P (fun _ => body') l) = map e_tag l.
Proof.
  induction l as [|c l IH]; simpl; [done|].
  destruct (P c); simpl.
  - intros H. by rewrite (H c eq_refl).
  - intros H. by rewrite IH.
Qed.

Lemma on_body_tables_steady table_body root (s : S) :
  steady ext w_tbl table_body ->
  match ET.find root w_body with
  | None => on_body_tables table_body root s = DocRaise (NoneAttributeError "findall")
  | Some _ =>
      exists root' s',
        on_body_tables table_body root s = DocOk (root', s') /\
        same_node root root' /\
        map e_tag (e_children root') = map e_tag (e_children root) /\
        ext s s'
  end.
Proof.
  intros Hb. unfold on_body_tables.
  destruct (ET.find root w_body) as [body|] eqn:Hf; [|done].
  destruct (in_children_steady w_tbl w_body table_body Hb body s)
    as (body' & s' & Hcall & Htag & He).
  { unfold ET.find in Hf. by apply find_some in Hf as [_ Hf]. }
  rewrite Hcall. exists (ET.with_children root
                           (ET.alter_first (ET.has_tag w_body) (fun _ => body')
                                           (e_children root))), s'.
  split; [done|]. split; [done|]. split; [|done].
  cbn [ET.with_children e_children]. apply map_tag_alter_first.
  intros b Hb'. unfold ET.find in Hf. rewrite Hf in Hb'. by injection Hb' as <-.
Qed.

End Loops.

Section DocStepFacts.

Import Bonterms BontermsDoc.

Lemma grows_refl {A} (out : list A) : grows out out.
Proof. exists []. by rewrite app_nil_r. Qed.

Lemma grows_trans {A} (a b c : list A) : grows a b -> grows b c -> grows a c.
Proof. intros [l1 ->] [l2 ->]. exists (l1 ++ l2). by rewrite app_assoc. Qed.

Lemma key_terms_row_steady m :
  steady grows w_tr (fun row out => DocOk (key_terms_row m row out)).
Proof.
  intros row out _. unfold key_terms_row.
  destruct (ET.findall row w_tc) as [|cell0 [|cell1 [|c cs]]];
    try (exists row, out; split; [done|]; split; [done | apply grows_refl]).
  destruct (context_get m _) as [[template_tag expected_placeholder]|];
    [|exists row, out; split; [done|]; split; [done | apply grows_refl]].
  eexists _, _. split; [reflexivity|]. split; [done|]. by eexists.
Qed.

Lemma psa_replacements_keys :
  Forall (fun kv : str * str => fst kv <> []) psa_replacements.
Proof. repeat constructor; by vm_compute. Qed.

Lemma psa_name_para_steady : steady grows w_p psa_name_para.
Proof.
  intros para out _. unfold psa_name_para.
  destruct (_ || _); [|exists para, out; split; [done|]; split; [done | apply grows_refl]].
  unfold replace_bracketed_in_para.
  destruct (replace_loop_total psa_replacements (mkState para []) psa_replacements_keys)
    as (s' & Hloop & _).
  rewrite Hloop. eexists _, _. split; [reflexivity|]. split.
  - apply (replace_loop_same_node _ _ _ Hloop).
  - by eexists.
Qed.

Lemma tag_company_para_steady tag_name children out :
  exists children' out',
    tag_company_para tag_name children out = DocOk (children', out') /\
    grows out out'.
Proof.
  induction children as [|c cs IH]; cbn [tag_company_para].
  - exists [], out. split; [done | apply grows_refl].
  - destruct (is_company_para c).
    + destruct (append_tag_cases c (s_ "Company:") tag_name [])
        as [[_ ->]|(_ & _ & idx & r & _ & ->)].
      * eexists _, _. split; [reflexivity|]. by eexists.
      * eexists _, _. split; [reflexivity|]. by eexists.
    + destruct IH as (cs' & out' & -> & Hg). by exists (c :: cs'), out'.
Qed.

Lemma psa_signature_cell_steady : steady grows w_tc psa_signature_cell.
Proof.
  intros cell out _. unfold psa_signature_cell.
  destruct (signature_party _) as [who|];
    [|exists cell, out; split; [done|]; split; [done | apply grows_refl]].
  destruct (tag_company_para_steady
              match who with
              | Customer => s_ "{customer_name}"
              | Provider => s_ "{provider_name}"
              end (e_children cell) out) as (cs' & out' & -> & Hg).
  by exists (ET.with_children cell cs'), out'.
Qed.

Lemma psa_signature_table_steady : steady grows w_tbl psa_signature_table.
Proof.
  intros tbl out Ht. unfold psa_signature_table.
  destruct (ET.findall tbl w_tr) as [|first_row rows];
    [exists tbl, out; split; [done|]; split; [done | apply grows_refl]|].
  destruct (negb _);
    [exists tbl, out; split; [done|]; split; [done | apply grows_refl]|].
  apply (in_children_steady grows grows_refl grows_trans w_tr w_tbl); [|done].
  apply (in_children_steady grows grows_refl grows_trans w_tc w_tr).
  apply psa_signature_cell_steady.
Qed.

Lemma party_progress_refl s : party_progress s s.
Proof.
  split; [done|]. exists []. rewrite app_nil_r. split; [done|].
  split; [done|]. exists 0. by left.
Qed.

Lemma repeat_app {A} (x : A) n m : repeat x n ++ repeat x m = repeat x (n + m).
Proof. induction n as [|n IH]; simpl; [done | by rewrite IH]. Qed.

Lemma party_progress_trans a b c :
  party_progress a b -> party_progress b c -> party_progress a c.
Proof.
  intros (Hab & l1 & E1 & Z1 & n1 & H1) (Hbc & l2 & E2 & Z2 & n2 & H2).
  split; [lia|]. exists (l1 ++ l2). split; [by rewrite E2, E1, app_assoc|].
  split.
  { intros E. rewrite Z1, Z2 by lia. done. }
  destruct (decide (fst b = fst a)) as [Eb|Nb].
  - rewrite (Z1 Eb). simpl. exists n2. destruct H2 as [H2|[H0 H2]].
    + by left.
    + right. split; [lia | done].
  - assert (Hb : fst b <> 0) by lia.
    destruct H2 as [H2|[H0 H2]]; [|done]. subst l2.
    exists (n1 + n2). destruct H1 as [H1|[H0 H1]]; subst l1.
    + left. apply repeat_app.
    + right. split; [done|]. simpl. by rewrite repeat_app.
Qed.

Lemma nda_signature_para_steady : steady party_progress w_p nda_signature_para.
Proof.
  intros para [party_count out] _. unfold nda_signature_para.
  destruct (Py.contains _ _);
    [|exists para, (party_count, out); split; [done|]; split; [done|];
      apply party_progress_refl].
  destruct (append_tag_cases para (s_ "Party Name:")
              (if party_count + 1 =? 1 then s_ "{party_1_name}" else s_ "{party_2_name}") [])
    as [[_ ->]|(_ & _ & idx & r & _ & ->)].
  - eexists _, _. split; [reflexivity|]. split; [done|].
    split; [simpl; lia|]. exists []. simpl. rewrite app_nil_r.
    split; [done|]. split; [done|]. exists 0. by left.
  - eexists _, _. split; [reflexivity|]. split; [done|].
    split; [simpl; lia|]. eexists. split; [reflexivity|].
    split; [simpl; lia|]. cbn [fst].
    destruct party_count as [|k].
    + exists 0. right. done.
    + exists 1. left. replace (S k + 1 =? 1) with false; [done|].
      symmetry. apply Nat.eqb_neq. lia.
Qed.

End DocStepFacts.

(** What each of the five steps does, by the presence of a [w:body]. *)
Lemma table_steps_outcome (root : Element) (out : list BontermsDoc.doc_line) :
  Forall
    (fun step =>
       match ET.find root BontermsDoc.w_body with
       | None =>
           step root out
           = BontermsDoc.DocRaise (BontermsDoc.NoneAttributeError "findall")
       | Some _ =>
           exists root' lines,
             step root out = BontermsDoc.DocOk (root', out ++ lines) /\
             same_node root root' /\
             map e_tag (e_children root') = map e_tag (e_children root)
       end)
    table_steps.
Proof.
  assert (Hgen : forall table_body,
             steady grows BontermsDoc.w_tbl table_body ->
             match ET.find root BontermsDoc.w_body with
             | None =>
                 BontermsDoc.on_body_tables table_body root out
                 = BontermsDoc.DocRaise (BontermsDoc.NoneAttributeError "findall")
             | Some _ =>
                 exists root' lines,
                   BontermsDoc.on_body_tables table_body root out
                   = BontermsDoc.DocOk (root', out ++ lines) /\
                   same_node root root' /\
                   map e_tag (e_children root') = map e_tag (e_children root)
             end).
  { intros table_body Hb.
    pose proof (on_body_tables_steady grows grows_refl grows_trans
                  table_body root out Hb) as H.
    destruct (ET.find root BontermsDoc.w_body); [|done].
    destruct H as (root' & out' & Hcall & Hn & Ht & lines & ->).
    by exists root', lines. }
  assert (Hkey : forall m,
             steady grows BontermsDoc.w_tbl
               (BontermsDoc.in_children BontermsDoc.w_tr
                  (fun row out =>
                     BontermsDoc.DocOk (BontermsDoc.key_terms_row m row out)))).
  { intros m. apply (in_children_steady grows grows_refl grows_trans).
    apply key_terms_row_steady. }
  repeat apply Forall_cons_2; [ | | | | | constructor].
  - apply (Hgen _ (Hkey BontermsDoc.NDA_CONTEXT_MAP)).
  - unfold BontermsDoc.process_nda_signatures.
    pose proof (on_body_tables_steady party_progress party_progress_refl
                  party_progress_trans
                  (BontermsDoc.in_children BontermsDoc.w_tr
                     (BontermsDoc.in_children Bonterms.w_tc
                        (BontermsDoc.in_children Bonterms.w_p
                           BontermsDoc.nda_signature_para)))
                  root (0, out)) as H.
    destruct (ET.find root BontermsDoc.w_body).
    + destruct H as (root' & [n out'] & -> & Hn & Ht & _ & lines & Hl & _).
      { do 3 apply (in_children_steady party_progress party_progress_refl
                      party_progress_trans).
        apply nda_signature_para_steady. }
      simpl in Hl. subst out'. by exists root', lines.
    + rewrite H; [done|].
      do 3 apply (in_children_steady party_progress party_progress_refl
                    party_progress_trans).
      apply nda_signature_para_steady.
  - apply Hgen.
    do 3 apply (in_children_steady grows grows_refl grows_trans).
    apply psa_name_para_steady.
  - apply (Hgen _ (Hkey BontermsDoc.PSA_CONTEXT_MAP)).
  - apply Hgen. apply psa_signature_table_steady.
Qed.

(** X10.  Every step that walks the tables needs a [w:body]: on a document
    whose root has no [w:body] child each of the five steps raises
    [AttributeError] (the attribute [findall] of [None]), and on every
    other document none of them raises: the step returns, the root keeps
    its tag, attributes and text, its children keep their tags and their
    order, and standard output only grows. *)
Theorem table_steps_need_body (root : Element) (out : list BontermsDoc.doc_line) :
  Forall
    (fun step =>
       match ET.find root BontermsDoc.w_body with
       | None =>
           step root out
           = BontermsDoc.DocRaise (BontermsDoc.NoneAttributeError "findall")
       | Some _ =>
           exists root' lines,
             step root out = BontermsDoc.DocOk (root', out ++ lines) /\
             same_node root root' /\
             map e_tag (e_children root') = map e_tag (e_children root)
       end)
    table_steps.
Proof. exact (table_steps_outcome root out). Qed.

(** X12.  The numbering of the parties.  Whatever the document, the lines
    that [process_nda_signatures] prints are at most one line for
    [{party_1_name}], which then comes first, followed by lines for
    [{party_2_name}] only: the tag of the first party is added at most once,
    and every later paragraph with "Party Name:" gets the tag of the second
    party. *)
Theorem process_nda_signatures_numbering
        (root root' : Element) (out out' : list BontermsDoc.doc_line) :
  BontermsDoc.process_nda_signatures root out = BontermsDoc.DocOk (root', out') ->
  exists n,
    out' = out ++ repeat (party_line "{party_2_name}") n \/
    out' = out ++ party_line "{party_1_name}"
                 :: repeat (party_line "{party_2_name}") n.
Proof.
  unfold BontermsDoc.process_nda_signatures.
  pose proof (on_body_tables_steady party_progress party_progress_refl
                party_progress_trans
                (BontermsDoc.in_children BontermsDoc.w_tr
                   (BontermsDoc.in_children Bonterms.w_tc
                      (BontermsDoc.in_children Bonterms.w_p
                         BontermsDoc.nda_signature_para)))
                root (0, out)) as H.
  destruct (ET.find root BontermsDoc.w_body).
  - destruct H as (r1 & [n o1] & -> & _ & _ & _ & lines & Hl & _ & k & Hk).
    { do 3 apply (in_children_steady party_progress party_progress_refl
                    party_progress_trans).
      apply nda_signature_para_steady. }
    simpl in Hl. intros [= <- <-]. exists k. subst o1.
    destruct Hk as [->|[_ ->]]; [by left | by right].
  - rewrite H; [done|].
    do 3 apply (in_children_steady party_progress party_progress_refl
                  party_progress_trans).
    apply nda_signature_para_steady.
Qed.

Lemma process_nda_signatures_numbering_witness :
  let cell :=
    Bonterms.cell_elem
      [Bonterms.party_para; Bonterms.para_elem [Bonterms.plain_run "Date:"];
       Bonterms.party_para; Bonterms.party_para] in
  let doc :=
    mkElement "document" [] None
      [mkElement BontermsDoc.w_body [] None
         [mkElement BontermsDoc.w_tbl [] None
            [mkElement BontermsDoc.w_tr [] None [cell]]]] in
  exists root' out',
    BontermsDoc.process_nda_signatures doc [] = BontermsDoc.DocOk (root', out') /\
    length out' = 3 /\
    exists n,
      out' = [] ++ repeat (party_line "{party_2_name}") n \/
      out' = [] ++ party_line "{party_1_name}"
                  :: repeat (party_line "{party_2_name}") n.
Proof.
  intros cell doc.
  destruct (BontermsDoc.process_nda_signatures doc []) as [[root' out']|e] eqn:H.
  - exists root', out'. split; [done|]. split.
    + vm_compute in H. by injection H as <- <-.
    + exact (process_nda_signatures_numbering doc root' [] out' H).
  - vm_compute in H. discriminate H.
Defined.

Section RowFacts.

Import Bonterms BontermsDoc.

Lemma filter_length_alter_nth_sat P g k (l : list Element) :
  length (alter_nth_sat P g k l) = length l.
Proof.
  revert k. induction l as [|c l IH]; intros k; simpl; [done|].
  destruct (P c); [destruct k|]; simpl; by rewrite ?IH.
Qed.

Lemma filter_other_alter_nth_sat P g k (l : list Element) :
  (forall x, P x = true -> P (g x) = true) ->
  List.filter (fun c => negb (P c)) (alter_nth_sat P g k l)
  = List.filter (fun c => negb (P c)) l.
Proof.
  intros Hg. revert k. induction l as [|c l IH]; intros k; simpl; [done|].
  destruct (P c) eqn:Hc.
  - destruct k; simpl.
    + by rewrite (Hg c Hc).
    + by rewrite Hc, IH.
  - simpl. by rewrite Hc, IH.
Qed.

Lemma filter_same_alter_nth_sat P g k (l : list Element) :
  (forall x, P x = true -> P (g x) = true) ->
  List.filter P (alter_nth_sat P g k l) = alter g k (List.filter P l).
Proof.
  intros Hg. revert k. induction l as [|c l IH]; intros k; simpl; [done|].
  destruct (P c) eqn:Hc.
  - destruct k; simpl.
    + by rewrite (Hg c Hc).
    + by rewrite Hc, IH.
  - simpl. by rewrite Hc, IH.
Qed.

Lemma replace_cell_text_tag cell old_text new_text out :
  e_tag (st_elem (snd (replace_cell_text cell old_text new_text out))) = e_tag cell.
Proof.
  unfold replace_cell_text. by destruct (replace_cell_children _ _ _).
Qed.

End RowFacts.

(** X11.  One row of a key-terms table.  A row that does not have exactly
    two [w:tc] children, or whose first cell holds a text that, stripped of
    surrounding white space, is no key of the context map, is left as it is
    and nothing is printed.  In the other rows the label cell is untouched
    and the value cell becomes what [replace_cell_text] makes of it, with
    the placeholder of the map as the old text and the template tag as the
    new one.  In every case the row keeps its tag, attributes and text, the
    number of its children, and its children other than [w:tc]. *)
Theorem key_terms_row_cells
        (context_map : list (str * (str * str))) (row : Element)
        (out : list BontermsDoc.doc_line) :
  let row' := fst (BontermsDoc.key_terms_row context_map row out) in
  let out' := snd (BontermsDoc.key_terms_row context_map row out) in
  same_node row row' /\
  length (e_children row') = length (e_children row) /\
  List.filter (fun c => negb (ET.has_tag Bonterms.w_tc c)) (e_children row')
  = List.filter (fun c => negb (ET.has_tag Bonterms.w_tc c)) (e_children row) /\
  head (ET.findall row' Bonterms.w_tc) = head (ET.findall row Bonterms.w_tc) /\
  (length (ET.findall row Bonterms.w_tc) <> 2 -> row' = row /\ out' = out) /\
  (forall label_cell value_cell,
      ET.findall row Bonterms.w_tc = [label_cell; value_cell] ->
      match BontermsDoc.context_get context_map
              (PyText.strip (Bonterms.get_paragraph_text label_cell)) with
      | None => row' = row /\ out' = out
      | Some (template_tag, expected_placeholder) =>
          let st :=
            snd (Bonterms.replace_cell_text
                   value_cell expected_placeholder template_tag []) in
          ET.findall row' Bonterms.w_tc = [label_cell; Bonterms.st_elem st] /\
          out' = out ++ map BontermsDoc.Rewriter (Bonterms.st_out st)
      end).
Proof.
  intros row' out'. subst row' out'. unfold BontermsDoc.key_terms_row.
  destruct (ET.findall row Bonterms.w_tc) as [|cell0 [|cell1 [|c cs]]] eqn:Hcells;
    try (cbn [fst snd]; rewrite ?Hcells;
         split; [done|]; split; [done|]; split; [done|]; split; [done|];
         split; [done|]; intros label_cell value_cell; done).
  destruct (BontermsDoc.context_get context_map _)
    as [[template_tag expected_placeholder]|] eqn:Hget.
  - cbn [fst snd ET.with_children e_children].
    set (st := snd (Bonterms.replace_cell_text cell1
                      expected_placeholder template_tag [])).
    assert (Ht1 : ET.has_tag Bonterms.w_tc cell1 = true).
    { assert (Hin : cell1 ∈ ET.findall row Bonterms.w_tc).
      { rewrite Hcells. apply list_elem_of_further, list_elem_of_here. }
      unfold ET.findall in Hin. apply list_elem_of_In, filter_In in Hin.
      apply Hin. }
    assert (Hg : forall x : Element,
               ET.has_tag Bonterms.w_tc x = true ->
               ET.has_tag Bonterms.w_tc (Bonterms.st_elem st) = true).
    { intros x _. rewrite <- Ht1. apply has_tag_ext.
      apply replace_cell_text_tag. }
    assert (Hf : ET.findall
                   (ET.with_children row
                      (Bonterms.alter_nth_sat (ET.has_tag Bonterms.w_tc)
                         (fun _ => Bonterms.st_elem st) 1 (e_children row)))
                   Bonterms.w_tc
                 = [cell0; Bonterms.st_elem st]).
    { unfold ET.findall in *. cbn [ET.with_children e_children].
      rewrite (filter_same_alter_nth_sat _ _ _ _ Hg), Hcells. done. }
    split; [done|].
    split; [apply filter_length_alter_nth_sat|].
    split; [apply (filter_other_alter_nth_sat _ _ _ _ Hg)|].
    rewrite Hf. split; [done|]. split; [done|].
    intros label_cell value_cell [= <- <-]. by rewrite Hget.
  - cbn [fst snd]. rewrite ?Hcells. do 5 (split; [done|]).
    intros label_cell value_cell [= <- <-]. by rewrite Hget.
Qed.

Lemma key_terms_row_cells_witness :
  let label_cell :=
    Bonterms.cell_elem [Bonterms.para_elem [Bonterms.plain_run " Effective Date "]] in
  let value_cell := Bonterms.cell_elem [Bonterms.fill_in_para] in
  let row := mkElement BontermsDoc.w_tr [] None [label_cell; value_cell] in
  let st :=
    snd (Bonterms.replace_cell_text
           value_cell (s_ "[Fill in]") (s_ "{effective_date}") []) in
  ET.findall row Bonterms.w_tc = [label_cell; value_cell] /\
  BontermsDoc.context_get BontermsDoc.NDA_CONTEXT_MAP
    (PyText.strip (Bonterms.get_paragraph_text label_cell))
  = Some (s_ "{effective_date}", s_ "[Fill in]") /\
  ET.findall (fst (BontermsDoc.key_terms_row BontermsDoc.NDA_CONTEXT_MAP row []))
             Bonterms.w_tc
  = [label_cell; Bonterms.st_elem st] /\
  snd (BontermsDoc.key_terms_row BontermsDoc.NDA_CONTEXT_MAP row [])
  = [] ++ map BontermsDoc.Rewriter (Bonterms.st_out st).
Proof.
  intros label_cell value_cell row st.
  assert (Hget : BontermsDoc.context_get BontermsDoc.NDA_CONTEXT_MAP
                   (PyText.strip (Bonterms.get_paragraph_text label_cell))
                 = Some (s_ "{effective_date}", s_ "[Fill in]")) by (by vm_compute).
  split; [reflexivity|]. split; [exact Hget|].
  pose proof (key_terms_row_cells BontermsDoc.NDA_CONTEXT_MAP row []) as H.
  cbv zeta in H. destruct H as (_ & _ & _ & _ & _ & H).
  specialize (H label_cell value_cell eq_refl). rewrite Hget in H. exact H.
Defined.

Section NameFacts.

Import Bonterms BontermsDoc.

Lemma psa_name_check para :
  Py.contains (get_paragraph_text para) (s_ "[Customer]")
  || Py.contains (get_paragraph_text para) (s_ "[Provider]")
  || Py.contains (get_paragraph_text para) (s_ "[Effective Date]")
  = existsb (fun kv : str * str => Py.contains (get_paragraph_text para) (fst kv))
            psa_replacements.
Proof.
  unfold psa_replacements. cbn [existsb fst].
  by rewrite orb_false_r, orb_assoc.
Qed.

Lemma tag_company_para_none tag_name children out :
  Forall (fun c => is_company_para c = false) children ->
  tag_company_para tag_name children out = DocOk (children, out).
Proof.
  induction 1 as [|c cs Hc _ IH]; cbn [tag_company_para]; [done|].
  by rewrite Hc, IH.
Qed.

Lemma tag_company_para_first tag_name before p after out :
  Forall (fun c => is_company_para c = false) before ->
  is_company_para p = true ->
  tag_company_para tag_name (before ++ p :: after) out
  = match append_tag_after_label p (s_ "Company:") tag_name [] with
    | Ok (_, st) =>
        DocOk (before ++ st_elem st :: after, out ++ map Rewriter (st_out st))
    | Raise e => DocRaise (RewriterError e)
    end.
Proof.
  intros Hb Hp. induction Hb as [|c cs Hc _ IH]; cbn [tag_company_para app].
  - rewrite Hp. destruct (append_tag_after_label _ _ _ _) as [[v st]|e]; done.
  - rewrite Hc, IH.
    destruct (append_tag_after_label _ _ _ _) as [[v st]|e]; done.
Qed.

Lemma with_children_same e : ET.with_children e (e_children e) = e.
Proof. by destruct e. Qed.

Lemma remove_first_split tg l first :
  List.find (ET.has_tag tg) l = Some first ->
  exists before after,
    l = before ++ first :: after /\
    Forall (fun c => ET.has_tag tg c = false) before /\
    ET.remove_first tg l = before ++ after.
Proof.
  induction l as [|c l IH]; simpl; [done|].
  destruct (ET.has_tag tg c) eqn:Hc.
  - intros [= ->]. exists [], l. by repeat split.
  - intros H. destruct (IH H) as (before & after & -> & Hb & Hr).
    exists (c :: before), after. split; [done|]. split; [by constructor|].
    by rewrite Hr.
Qed.

Lemma find_alter_first_const tg (b' : Element) l b :
  List.find (ET.has_tag tg) l = Some b -> e_tag b' = e_tag b ->
  List.find (ET.has_tag tg) (ET.alter_first (ET.has_tag tg) (fun _ => b') l)
  = Some b'.
Proof.
  intros Hf Ht. induction l as [|c l IH]; simpl in *; [done|].
  destruct (ET.has_tag tg c) eqn:Hc.
  - injection Hf as ->. simpl.
    by rewrite (has_tag_ext tg b b' Ht), Hc.
  - simpl. rewrite Hc. by apply IH.
Qed.

Lemma alter_first_frame tg (g : Element -> Element) l :
  (forall x, e_tag (g x) = e_tag x) ->
  length (ET.alter_first (ET.has_tag tg) g l) = length l /\
  List.filter (fun c => negb (ET.has_tag tg c)) (ET.alter_first (ET.has_tag tg) g l)
  = List.filter (fun c => negb (ET.has_tag tg c)) l.
Proof.
  intros Hg. induction l as [|c l [IH1 IH2]]; simpl; [done|].
  destruct (ET.has_tag tg c) eqn:Hc; simpl.
  - by rewrite (has_tag_ext tg c (g c) (Hg c)), Hc.
  - by rewrite Hc, IH1, IH2.
Qed.

End NameFacts.

(** X13.  One paragraph of the Name of Agreement step.  The step never
    raises on a paragraph.  The test that guards the rewriting reads the
    text of every [w:t] below the paragraph; when it finds none of the
    three placeholders the paragraph is left as it is and nothing is
    printed.  When it finds one, the run text of the paragraph becomes the
    old run text with [Customer], [Provider] and [Effective Date] replaced
    in that order, each at its first occurrence; the paragraph keeps its
    tag, attributes and text and the tags of its children, and at most
    three lines are printed. *)
Theorem psa_name_para_text (para : Element) (out : list BontermsDoc.doc_line) :
  exists para' lines,
    BontermsDoc.psa_name_para para out
    = BontermsDoc.DocOk (para', out ++ map BontermsDoc.Rewriter lines) /\
    same_node para para' /\
    map e_tag (e_children para') = map e_tag (e_children para) /\
    length lines <= 3 /\
    (existsb (fun kv : str * str =>
                Py.contains (Bonterms.get_paragraph_text para) (fst kv))
             BontermsDoc.psa_replacements = true ->
     paragraph_text para'
     = replace_in_order (paragraph_text para) BontermsDoc.psa_replacements) /\
    (existsb (fun kv : str * str =>
                Py.contains (Bonterms.get_paragraph_text para) (fst kv))
             BontermsDoc.psa_replacements = false ->
     para' = para /\ lines = []).
Proof.
  unfold BontermsDoc.psa_name_para. rewrite psa_name_check.
  destruct (existsb _ _) eqn:Hc.
  - unfold Bonterms.replace_bracketed_in_para.
    destruct (replace_loop_total BontermsDoc.psa_replacements
                (Bonterms.mkState para []) psa_replacements_keys)
      as ([para' out'] & Hloop & Ht & _ & Htags & lines & Hout & Hn).
    rewrite Hloop. cbn [Bonterms.st_elem Bonterms.st_out app] in Ht, Htags, Hout, Hn.
    subst out'. exists para', lines. split; [done|].
    split; [apply (replace_loop_same_node _ _ _ Hloop)|].
    split; [done|]. split; [exact Hn|]. split; [done|]. done.
  - exists para, []. simpl. rewrite app_nil_r.
    do 2 (split; [done|]). split; [done|]. split; [lia|]. done.
Qed.

Lemma psa_name_para_text_witness :
  let para :=
    Bonterms.para_elem
      [Bonterms.plain_run "between [Cust"; Bonterms.plain_run "omer] and [Provider]"] in
  existsb (fun kv : str * str =>
             Py.contains (Bonterms.get_paragraph_text para) (fst kv))
          BontermsDoc.psa_replacements = true /\
  exists para',
    paragraph_text para' = s_ "between {customer_name} and {provider_name}".
Proof.
  intros para.
  assert (Hc : existsb (fun kv : str * str =>
                          Py.contains (Bonterms.get_paragraph_text para) (fst kv))
                       BontermsDoc.psa_replacements = true) by (by vm_compute).
  split; [done|].
  destruct (psa_name_para_text para []) as (para' & lines & _ & _ & _ & _ & Ht & _).
  exists para'. rewrite (Ht Hc). by vm_compute.
Defined.

(** X14.  One cell of a signature table of the PSA.  The step never raises
    on a cell.  A cell with no paragraph that starts with "Customer:" or
    "Provider:", or with no paragraph that starts with "Company:", is left
    as it is and nothing is printed.  In any other cell exactly one child
    is handed to [append_tag_after_label]: the first paragraph that starts
    with "Company:", with the tag of the party that the first
    "Customer:"/"Provider:" paragraph names; the other children are left
    alone and at most one line is printed. *)
Theorem psa_signature_cell_one_tag (cell : Element) (out : list BontermsDoc.doc_line) :
  (BontermsDoc.signature_party (ET.findall cell Bonterms.w_p) = None \/
   Forall (fun c => BontermsDoc.is_company_para c = false) (e_children cell) ->
   BontermsDoc.psa_signature_cell cell out = BontermsDoc.DocOk (cell, out)) /\
  (forall who before p after,
      BontermsDoc.signature_party (ET.findall cell Bonterms.w_p) = Some who ->
      e_children cell = before ++ p :: after ->
      Forall (fun c => BontermsDoc.is_company_para c = false) before ->
      BontermsDoc.is_company_para p = true ->
      exists p' lines,
        Bonterms.append_tag_after_label p (s_ "Company:") (party_tag who) []
        = Ok (PyNone, Bonterms.mkState p' lines) /\
        length lines <= 1 /\
        BontermsDoc.psa_signature_cell cell out
        = BontermsDoc.DocOk
            (ET.with_children cell (before ++ p' :: after),
             out ++ map BontermsDoc.Rewriter lines)).
Proof.
  split.
  - intros [Hn|Hn]; unfold BontermsDoc.psa_signature_cell.
    + by rewrite Hn.
    + destruct (BontermsDoc.signature_party _); [|done].
      rewrite tag_company_para_none by done. by rewrite with_children_same.
  - intros who before p after Hw Hc Hb Hp.
    unfold BontermsDoc.psa_signature_cell. rewrite Hw, Hc.
    change (match who with
            | BontermsDoc.Customer => s_ "{customer_name}"
            | BontermsDoc.Provider => s_ "{provider_name}"
            end) with (party_tag who).
    rewrite (tag_company_para_first _ _ _ _ _ Hb Hp).
    destruct (append_tag_cases p (s_ "Company:") (party_tag who) [])
      as [[_ ->]|(_ & _ & idx & r & _ & ->)].
    + exists p, []. split; [done|]. split; [simpl; lia | done].
    + eexists _, _. split; [reflexivity|]. split; [simpl; lia | done].
Qed.

Lemma psa_signature_cell_one_tag_witness :
  let header := Bonterms.para_elem [Bonterms.plain_run "Provider:"] in
  let p := Bonterms.para_elem [Bonterms.plain_run " Company:"] in
  let cell := Bonterms.cell_elem [header; p] in
  BontermsDoc.signature_party (ET.findall cell Bonterms.w_p)
  = Some BontermsDoc.Provider /\
  BontermsDoc.is_company_para p = true /\
  exists p' lines,
    Bonterms.append_tag_after_label
      p (s_ "Company:") (party_tag BontermsDoc.Provider) []
    = Ok (PyNone, Bonterms.mkState p' lines) /\
    length lines <= 1 /\
    BontermsDoc.psa_signature_cell cell []
    = BontermsDoc.DocOk
        (ET.with_children cell ([header] ++ p' :: []),
         [] ++ map BontermsDoc.Rewriter lines).
Proof.
  intros header p cell.
  assert (Hw : BontermsDoc.signature_party (ET.findall cell Bonterms.w_p)
               = Some BontermsDoc.Provider) by (by vm_compute).
  assert (Hp : BontermsDoc.is_company_para p = true) by (by vm_compute).
  assert (Hb : Forall (fun c => BontermsDoc.is_company_para c = false) [header]).
  { repeat constructor. }
  split; [done|]. split; [done|].
  exact (proj2 (psa_signature_cell_one_tag cell [])
               BontermsDoc.Provider [header] p [] Hw eq_refl Hb Hp).
Defined.

(** X15.  [remove_first_paragraph] looks at one paragraph only: the first
    [w:p] child of the first [w:body] child of the root.  When the text of
    that paragraph carries the example marker, that paragraph, and nothing
    else, is taken out of the body, and one line with the first 60
    characters of its text is printed.  In every other case (no body, no
    paragraph in the body, no marker in the first paragraph, even if a
    later paragraph has one) the document and standard output are left as
    they are. *)
Theorem remove_first_paragraph_effect
        (upper : str -> str) (root : Element) (out : list BontermsDoc.doc_line) :
  let root' := fst (BontermsDoc.remove_first_paragraph upper root out) in
  let out' := snd (BontermsDoc.remove_first_paragraph upper root out) in
  same_node root root' /\
  (forall body first_p,
      ET.find root BontermsDoc.w_body = Some body ->
      ET.find body Bonterms.w_p = Some first_p ->
      BontermsDoc.has_example_marker upper (Bonterms.get_paragraph_text first_p)
      = true ->
      exists before after body',
        e_children body = before ++ first_p :: after /\
        Forall (fun c => ET.has_tag Bonterms.w_p c = false) before /\
        ET.find root' BontermsDoc.w_body = Some body' /\
        same_node body body' /\
        e_children body' = before ++ after /\
        length (e_children root') = length (e_children root) /\
        List.filter (fun c => negb (ET.has_tag BontermsDoc.w_body c)) (e_children root')
        = List.filter (fun c => negb (ET.has_tag BontermsDoc.w_body c))
                      (e_children root) /\
        out' = out ++ [BontermsDoc.LineRemovedParagraph
                         (take 60 (Bonterms.get_paragraph_text first_p))]) /\
  (ET.find root BontermsDoc.w_body = None -> root' = root /\ out' = out) /\
  (forall body,
      ET.find root BontermsDoc.w_body = Some body ->
      match ET.find body Bonterms.w_p with
      | None => True
      | Some first_p =>
          BontermsDoc.has_example_marker upper (Bonterms.get_paragraph_text first_p)
          = false
      end ->
      root' = root /\ out' = out).
Proof.
  intros root' out'. subst root' out'. unfold BontermsDoc.remove_first_paragraph.
  destruct (ET.find root BontermsDoc.w_body) as [body|] eqn:Hbody.
  2:{ cbn [fst snd]. split; [done|]. split; [done|]. split; [done|]. done. }
  destruct (ET.find body Bonterms.w_p) as [first_p|] eqn:Hp.
  2:{ cbn [fst snd]. split; [done|]. split.
      { intros b fp [= <-]. by rewrite Hp. }
      split; [done|]. intros b [= <-]. by rewrite Hp. }
  destruct (BontermsDoc.has_example_marker upper _) eqn:Hm.
  2:{ cbn [fst snd]. split; [done|]. split.
      { intros b fp [= <-]. rewrite Hp. intros [= <-]. congruence. }
      split; [done|]. intros b [= <-]. by rewrite Hp. }
  cbn [fst snd]. split; [done|]. split.
  - intros b fp [= <-]. rewrite Hp. intros [= <-] _.
    destruct (remove_first_split Bonterms.w_p (e_children body) first_p Hp)
      as (before & after & Hc & Hb & Hr).
    exists before, after,
      (ET.with_children body (ET.remove_first Bonterms.w_p (e_children body))).
    split; [done|]. split; [done|]. split.
    { unfold ET.find in *. cbn [ET.with_children e_children].
      assert (Hfirst : List.find (ET.has_tag BontermsDoc.w_body)
                         (ET.alter_first (ET.has_tag BontermsDoc.w_body)
                            (fun b => ET.with_children b
                                        (ET.remove_first Bonterms.w_p (e_children b)))
                            (e_children root))
                       = (fun b => ET.with_children b
                                     (ET.remove_first Bonterms.w_p (e_children b)))
                           <$> List.find (ET.has_tag BontermsDoc.w_body)
                                         (e_children root)).
      { by apply find_alter_first_same. }
      rewrite Hfirst, Hbody. done. }
    split; [done|]. split; [done|].
    cbn [ET.with_children e_children].
    destruct (alter_first_frame BontermsDoc.w_body
                (fun b => ET.with_children b
                            (ET.remove_first Bonterms.w_p (e_children b)))
                (e_children root)) as [Hl Hf]; [done|].
    split; [done|]. split; [done|]. done.
  - split; [done|]. intros b [= <-]. rewrite Hp, Hm. done.
Qed.

Lemma remove_first_paragraph_effect_witness :
  let note := Bonterms.para_elem [Bonterms.plain_run "[Example: fill in the terms]"] in
  let body :=
    mkElement BontermsDoc.w_body [] None
      [mkElement BontermsDoc.w_tbl [] None []; note; Bonterms.party_para] in
  let root := mkElement "document" [] None [body] in
  let upper := fun s : str => s in
  ET.find root BontermsDoc.w_body = Some body /\
  ET.find body Bonterms.w_p = Some note /\
  BontermsDoc.has_example_marker upper (Bonterms.get_paragraph_text note) = true /\
  exists body',
    ET.find (fst (BontermsDoc.remove_first_paragraph upper root []))
            BontermsDoc.w_body = Some body' /\
    length (e_children body') = 2.
Proof.
  intros note body root upper.
  assert (Hm : BontermsDoc.has_example_marker upper (Bonterms.get_paragraph_text note)
               = true) by (by vm_compute).
  split; [reflexivity|]. split; [reflexivity|]. split; [exact Hm|].
  destruct (proj1 (proj2 (remove_first_paragraph_effect upper root []))
              body note eq_refl eq_refl Hm)
    as (before & after & body' & Hc & _ & Hf & _ & Hb & _).
  exists body'. split; [exact Hf|]. rewrite Hb.
  apply (f_equal length) in Hc. rewrite length_app in *. simpl in Hc. lia.
Defined.

(** * The archive *)

Section ArchiveFacts.

Import Bonterms BontermsDoc.

Lemma dict_get_set_same {V} (d : list (string * V)) k v :
  dict_get (dict_set d k v) k = Some v.
Proof.
  induction d as [|[k0 v0] d IH]; simpl.
  - by rewrite String.eqb_refl.
  - destruct (String.eqb k0 k) eqn:E; simpl; by rewrite E.
Qed.

Lemma dict_get_set_other {V} (d : list (string * V)) k k' v :
  k' <> k -> dict_get (dict_set d k v) k' = dict_get d k'.
Proof.
  intros Hk. induction d as [|[k0 v0] d IH]; simpl.
  - destruct (String.eqb k k') eqn:E; [|done].
    apply String.eqb_eq in E. congruence.
  - destruct (String.eqb k0 k) eqn:E; simpl.
    + apply String.eqb_eq in E. subst k0.
      destruct (String.eqb k k') eqn:E'; [|done].
      apply String.eqb_eq in E'. congruence.
    + by rewrite IH.
Qed.

Lemma dict_set_keys {V} (d : list (string * V)) k v :
  is_Some (dict_get d k) -> map fst (dict_set d k v) = map fst d.
Proof.
  induction d as [|[k0 v0] d IH]; simpl.
  - by intros [? ?].
  - destruct (String.eqb k0 k) eqn:E; simpl; [done|].
    intros H. by rewrite IH.
Qed.

Lemma dict_get_None {V} (d : list (string * V)) k :
  k ∉ map fst d -> dict_get d k = None.
Proof.
  induction d as [|[k0 v0] d IH]; simpl; [done|].
  intros Hn. destruct (String.eqb k0 k) eqn:E.
  - apply String.eqb_eq in E. subst k0. exfalso. apply Hn. apply list_elem_of_here.
  - apply IH. intros H. apply Hn. by apply list_elem_of_further.
Qed.

Context {bytes : Type} (parse_xml : bytes -> option Element)
        (serialize_xml : Element -> bytes).

Lemma clear_header_footer_ok entries filename entries' :
  clear_header_footer bytes parse_xml serialize_xml entries filename = DocOk entries' ->
  map fst entries' = map fst entries /\
  forall k, k <> String.append "word/" filename ->
            dict_get entries' k = dict_get entries k.
Proof.
  unfold clear_header_footer.
  destruct (dict_get entries _) as [data|] eqn:Hg.
  - destruct (parse_xml data) as [root|]; [|done].
    intros [= <-]. split.
    + apply dict_set_keys. exists data. exact Hg.
    + intros k Hk. by apply dict_get_set_other.
  - by intros [= <-].
Qed.

End ArchiveFacts.

(** X16.  [clear_header_footer] on the entries of an archive.  When the
    archive has no entry [word/<filename>] the entries are left as they are.
    When the entry is there and does not parse, the parser's error goes up.
    Otherwise the entry is replaced by the serialization of its root element
    with one empty paragraph as only child; the names of the entries and
    their order are kept and every other entry is untouched.  Clearing again
    changes nothing, as long as the parser reads back what the serializer
    wrote. *)
Theorem clear_header_footer_entries
        {bytes : Type} (parse_xml : bytes -> option Element)
        (serialize_xml : Element -> bytes)
        (entries : list (string * bytes)) (filename : string) :
  let key := String.append "word/" filename in
  let clear := BontermsDoc.clear_header_footer bytes parse_xml serialize_xml in
  match BontermsDoc.dict_get entries key with
  | None => clear entries filename = BontermsDoc.DocOk entries
  | Some data =>
      match parse_xml data with
      | None => clear entries filename = BontermsDoc.DocRaise BontermsDoc.XmlParseError
      | Some root =>
          let cleared := ET.with_children root [BontermsDoc.empty_paragraph] in
          exists entries',
            clear entries filename = BontermsDoc.DocOk entries' /\
            map fst entries' = map fst entries /\
            BontermsDoc.dict_get entries' key = Some (serialize_xml cleared) /\
            (forall k, k <> key ->
                       BontermsDoc.dict_get entries' k = BontermsDoc.dict_get entries k) /\
            (parse_xml (serialize_xml cleared) = Some cleared ->
             clear entries' filename = BontermsDoc.DocOk entries')
      end
  end.
Proof.
  intros key clear. subst clear. unfold BontermsDoc.clear_header_footer.
  fold key. destruct (BontermsDoc.dict_get entries key) as [data|] eqn:Hg; [|done].
  destruct (parse_xml data) as [root|] eqn:Hp; [|done].
  cbn zeta. cbn [ET.with_children e_tag e_attrib e_text e_children app].
  eexists. split; [reflexivity|]. split.
  { apply dict_set_keys. exists data. exact Hg. }
  split; [apply dict_get_set_same|].
  split; [intros k Hk; by apply dict_get_set_other|].
  intros Hround. rewrite dict_get_set_same.
  unfold ET.with_children in Hround |- *.
  cbn [e_tag e_attrib e_text e_children app] in Hround |- *.
  rewrite Hround. cbn [e_tag e_attrib e_text e_children app].
  f_equal. clear Hround.
  induction entries as [|[k0 v0] d IH]; [done|].
  simpl in Hg |- *. destruct (String.eqb k0 key) eqn:E; simpl; rewrite E; [done|].
  f_equal. by apply IH.
Qed.

Lemma clear_header_footer_entries_witness :
  let entries :=
    [("word/document.xml", Bonterms.para_elem []);
     ("word/header2.xml",
      mkElement "hdr" [] None [Bonterms.party_para; Bonterms.fill_in_para])] in
  exists entries',
    BontermsDoc.clear_header_footer Element Some (fun e => e) entries "header2.xml"
    = BontermsDoc.DocOk entries' /\
    map fst entries' = map fst entries /\
    BontermsDoc.clear_header_footer Element Some (fun e => e) entries' "header2.xml"
    = BontermsDoc.DocOk entries'.
Proof.
  intros entries.
  pose proof (clear_header_footer_entries (bytes:=Element) Some (fun e => e)
                entries "header2.xml") as H.
  cbv zeta in H.
  change (BontermsDoc.dict_get entries (String.append "word/" "header2.xml"))
    with (Some (mkElement "hdr" [] None [Bonterms.party_para; Bonterms.fill_in_para]))
    in H.
  cbv beta iota in H.
  destruct H as (entries' & H1 & H2 & _ & _ & H5).
  exists entries'. split; [exact H1|]. split; [exact H2|]. by apply H5.
Defined.

Section ProcessFacts.

Import Bonterms BontermsDoc.

Context (upper : str -> str) {bytes : Type}
        (parse_xml : bytes -> option Element) (serialize_xml : Element -> bytes)
        {FS : Type}
        (read_docx : FS -> string -> option (list (string * bytes)))
        (write_docx : FS -> list (string * bytes) -> string -> FS * bool).

Lemma bind_ok {A B} (m : io FS A) (k : A -> io FS B) w b w' :
  bind FS m k w = (DocOk b, w') ->
  exists a w1, m w = (DocOk a, w1) /\ k a w1 = (DocOk b, w').
Proof.
  unfold bind. destruct (m w) as [[a|e] w1]; [|done]. intros H. by exists a, w1.
Qed.

Lemma bind_raise {A B} (m : io FS A) (k : A -> io FS B) w e w' :
  bind FS m k w = (DocRaise e, w') ->
  m w = (DocRaise e, w') \/
  exists a w1, m w = (DocOk a, w1) /\ k a w1 = (DocRaise e, w').
Proof.
  unfold bind. destruct (m w) as [[a|e1] w1].
  - intros H. right. by exists a, w1.
  - intros [= <- <-]. by left.
Qed.

(** A computation that leaves the file system and standard error alone and
    only adds to standard output. *)
Lemma quiet_bind {A B} (m : io FS A) (k : A -> io FS B) :
  quiet m -> (forall a, quiet (k a)) -> quiet (bind FS m k).
Proof.
  intros Hm Hk w r w'. unfold bind.
  destruct (m w) as [[a|e] w1] eqn:E.
  - intros H. destruct (Hm _ _ _ E) as (F1 & E1 & G1).
    destruct (Hk a _ _ _ H) as (F2 & E2 & G2).
    split; [congruence|]. split; [congruence|]. by eapply grows_trans.
  - intros [= <- <-]. by apply (Hm _ _ _ E).
Qed.

Lemma quiet_print line : quiet (print FS line).
Proof.
  intros w r w' [= <- <-]. simpl. split; [done|]. split; [done|]. by eexists.
Qed.

Lemma quiet_read path : quiet (read bytes FS read_docx path).
Proof.
  intros w r w'. unfold read. destruct (read_docx _ _); intros [= <- <-];
    (split; [done|]; split; [done|]; apply grows_refl).
Qed.

Lemma quiet_lookup entries key : quiet (lookup bytes FS entries key).
Proof.
  intros w r w'. unfold lookup, ret, raise. destruct (dict_get _ _); intros [= <- <-];
    (split; [done|]; split; [done|]; apply grows_refl).
Qed.

Lemma quiet_parse data : quiet (parse bytes parse_xml FS data).
Proof.
  intros w r w'. unfold parse, ret, raise. destruct (parse_xml _); intros [= <- <-];
    (split; [done|]; split; [done|]; apply grows_refl).
Qed.

Lemma quiet_lift {A} (x : doc_result A) : quiet (lift FS x).
Proof.
  intros w r w' [= <- <-]. split; [done|]. split; [done|]. apply grows_refl.
Qed.

Lemma quiet_run_step step doc_xml :
  (forall d out d' out', step d out = DocOk (d', out') -> grows out out') ->
  quiet (run_step FS step doc_xml).
Proof.
  intros Hs w r w'. unfold run_step.
  destruct (step doc_xml (stdout w)) as [[d' out']|e] eqn:E; intros [= <- <-].
  - simpl. split; [done|]. split; [done|]. by apply (Hs _ _ _ _ E).
  - split; [done|]. split; [done|]. apply grows_refl.
Qed.

Lemma table_step_grows step :
  step ∈ table_steps ->
  forall d out d' out',
    step d out = DocOk (d', out') -> same_node d d' /\ grows out out'.
Proof.
  intros Hin d out d' out' H.
  pose proof (table_steps_outcome d out) as Hall.
  rewrite List.Forall_forall in Hall.
  apply list_elem_of_In in Hin. specialize (Hall step Hin).
  destruct (ET.find d w_body).
  - destruct Hall as (r & lines & E & Hn & _). rewrite E in H.
    injection H as <- <-. split; [done|]. by exists lines.
  - rewrite Hall in H. done.
Qed.

Lemma remove_first_paragraph_grows d out :
  same_node d (fst (remove_first_paragraph upper d out)) /\
  grows out (snd (remove_first_paragraph upper d out)).
Proof.
  unfold remove_first_paragraph.
  destruct (ET.find d w_body) as [body|]; [|split; [done | apply grows_refl]].
  destruct (ET.find body w_p) as [p|]; [|split; [done | apply grows_refl]].
  destruct (has_example_marker upper _); [|split; [done | apply grows_refl]].
  split; [done|]. by eexists.
Qed.

Lemma follows_refl (w : world FS) : follows w w.
Proof. split; [done|]. split; [done|]. apply grows_refl. Qed.

Lemma step_quiet {A B} (m : io FS A) (k : A -> io FS B) w0 w r w' :
  quiet m -> follows w0 w -> bind FS m k w = (r, w') ->
  (follows w0 w' /\ exists e, r = DocRaise e) \/
  exists a w1, m w = (DocOk a, w1) /\ follows w0 w1 /\ k a w1 = (r, w').
Proof.
  intros Hm (F0 & E0 & G0). unfold bind.
  destruct (m w) as [[a|e] w1] eqn:E; destruct (Hm _ _ _ E) as (F1 & E1 & G1).
  - intros H. right. exists a, w1. split; [done|]. split; [|done].
    split; [congruence|]. split; [congruence|]. by eapply grows_trans.
  - intros [= <- <-]. left. split; [|by exists e].
    split; [congruence|]. split; [congruence|]. by eapply grows_trans.
Qed.

Lemma early_outcome source dest (w w' : world FS) r :
  follows w w' -> (exists e, r = DocRaise e) ->
  archive_outcome read_docx write_docx source dest w r w'.
Proof.
  intros (F & E & G) He. split; [done|]. split; [done|]. left. by split.
Qed.

Lemma read_ok path w entries w1 :
  read bytes FS read_docx path w = (DocOk entries, w1) ->
  read_docx (files w) path = Some entries.
Proof. unfold read. destruct (read_docx _ _); [|done]. by intros [= <- <-]. Qed.

Lemma lookup_ok entries key w data w1 :
  lookup bytes FS entries key w = (DocOk data, w1) ->
  dict_get entries key = Some data.
Proof.
  unfold lookup, ret, raise. destruct (dict_get _ _); [|done]. by intros [= <- <-].
Qed.

Lemma lift_ok {A} (x : doc_result A) w a w1 :
  lift FS x w = (DocOk a, w1) -> x = DocOk a.
Proof. by intros [= <- <-]. Qed.

Lemma table_steps_members :
  process_nda_key_terms ∈ table_steps /\ process_nda_signatures ∈ table_steps /\
  process_psa_name_of_agreement ∈ table_steps /\
  process_psa_key_terms ∈ table_steps /\ process_psa_signatures ∈ table_steps.
Proof.
  unfold table_steps. split; [apply list_elem_of_here|].
  split; [apply list_elem_of_further, list_elem_of_here|].
  split; [do 2 apply list_elem_of_further; apply list_elem_of_here|].
  split; [do 3 apply list_elem_of_further; apply list_elem_of_here|].
  do 4 apply list_elem_of_further. apply list_elem_of_here.
Qed.

Lemma quiet_table_step step doc_xml :
  step ∈ table_steps -> quiet (run_step FS step doc_xml).
Proof.
  intros Hin. apply quiet_run_step. intros d out d' out' H.
  by apply (table_step_grows step Hin d out d' out').
Qed.

Lemma quiet_remove_first doc_xml :
  quiet (run_step FS (fun d out => DocOk (remove_first_paragraph upper d out)) doc_xml).
Proof.
  apply quiet_run_step. intros d out d' out' [= E].
  pose proof (remove_first_paragraph_grows d out) as [_ H].
  by rewrite E in H.
Qed.

(** The end of both functions: the document is stored and the archive
    written. *)
Lemma write_outcome source dest (w wn : world FS) entries entries3 doc_xml r w' :
  follows w wn ->
  read_docx (files w) source = Some entries ->
  is_Some (dict_get entries "word/document.xml") ->
  map fst entries3 = map fst entries ->
  (forall k, k ∉ rewritten_names -> dict_get entries3 k = dict_get entries k) ->
  is_Some (dict_get entries3 "word/document.xml") ->
  bind FS (write bytes FS write_docx
             (dict_set entries3 "word/document.xml" (serialize_xml doc_xml)) dest)
       (fun _ => print FS (LineWritten dest)) wn = (r, w') ->
  archive_outcome read_docx write_docx source dest w r w'.
Proof.
  intros (F & E & G) Hread Hdoc Hkeys Hframe Hdoc3. unfold bind, write, print.
  rewrite F.
  destruct (write_docx (files w) _ dest) as [fs returned] eqn:Hw.
  assert (Hk : map fst (dict_set entries3 "word/document.xml" (serialize_xml doc_xml))
               = map fst entries).
  { rewrite dict_set_keys by done. done. }
  assert (Hf : forall k, k ∉ rewritten_names ->
                 dict_get (dict_set entries3 "word/document.xml"
                                    (serialize_xml doc_xml)) k
                 = dict_get entries k).
  { intros k Hn. rewrite dict_get_set_other; [by apply Hframe|].
    intros ->. apply Hn. apply list_elem_of_here. }
  destruct returned; intros [= <- <-]; cbn [files stdout stderr].
  - split; [done|]. split.
    { destruct G as [l ->]. exists (l ++ [LineWritten dest]). by rewrite app_assoc. }
    right.
    exists entries, (dict_set entries3 "word/document.xml" (serialize_xml doc_xml)), true.
    by repeat split.
  - split; [done|]. split; [done|].
    right.
    exists entries, (dict_set entries3 "word/document.xml" (serialize_xml doc_xml)), false.
    by repeat split.
Qed.

(** The three calls of [clear_header_footer]. *)
Lemma cleared_entries entries e1 e2 e3 :
  clear_header_footer bytes parse_xml serialize_xml entries "header2.xml" = DocOk e1 ->
  clear_header_footer bytes parse_xml serialize_xml e1 "footer1.xml" = DocOk e2 ->
  clear_header_footer bytes parse_xml serialize_xml e2 "footer2.xml" = DocOk e3 ->
  map fst e3 = map fst entries /\
  (forall k, k ∉ rewritten_names -> dict_get e3 k = dict_get entries k) /\
  dict_get e3 "word/document.xml" = dict_get entries "word/document.xml".
Proof.
  intros H1 H2 H3.
  apply clear_header_footer_ok in H1 as [K1 F1].
  apply clear_header_footer_ok in H2 as [K2 F2].
  apply clear_header_footer_ok in H3 as [K3 F3].
  split; [congruence|]. split.
  - intros k Hk. rewrite F3, F2, F1; [done|..];
      intros ->; apply Hk; unfold rewritten_names;
      repeat (apply list_elem_of_here || apply list_elem_of_further).
  - rewrite F3, F2, F1; done.
Qed.

Lemma process_nda_outcome source dest w r w' :
  process_nda upper bytes parse_xml serialize_xml FS read_docx write_docx
              source dest w = (r, w') ->
  archive_outcome read_docx write_docx source dest w r w'.
Proof.
  unfold process_nda. intros H.
  destruct (step_quiet _ _ w w _ _ (quiet_print _) (follows_refl w) H)
    as [[Q He]|(? & w1 & _ & Q1 & H1)]; [by apply early_outcome|]. clear H.
  destruct (step_quiet _ _ w w1 _ _ (quiet_read _) Q1 H1)
    as [[Q He]|(entries & w2 & Er & Q2 & H2)]; [by apply early_outcome|]. clear H1.
  apply read_ok in Er. rewrite (proj1 Q1) in Er.
  destruct (step_quiet _ _ w w2 _ _ (quiet_lookup _ _) Q2 H2)
    as [[Q He]|(data & w3 & El & Q3 & H3)]; [by apply early_outcome|]. clear H2.
  apply lookup_ok in El.
  destruct (step_quiet _ _ w w3 _ _ (quiet_parse _) Q3 H3)
    as [[Q He]|(doc & w4 & _ & Q4 & H4)]; [by apply early_outcome|]. clear H3.
  destruct (step_quiet _ _ w w4 _ _ (quiet_remove_first _) Q4 H4)
    as [[Q He]|(doc1 & w5 & _ & Q5 & H5)]; [by apply early_outcome|]. clear H4.
  destruct (step_quiet _ _ w w5 _ _ (quiet_lift _) Q5 H5)
    as [[Q He]|(e1 & w6 & C1 & Q6 & H6)]; [by apply early_outcome|]. clear H5.
  destruct (step_quiet _ _ w w6 _ _ (quiet_lift _) Q6 H6)
    as [[Q He]|(e2 & w7 & C2 & Q7 & H7)]; [by apply early_outcome|]. clear H6.
  destruct (step_quiet _ _ w w7 _ _ (quiet_lift _) Q7 H7)
    as [[Q He]|(e3 & w8 & C3 & Q8 & H8)]; [by apply early_outcome|]. clear H7.
  apply lift_ok in C1, C2, C3.
  destruct (cleared_entries _ _ _ _ C1 C2 C3) as (Hk & Hf & Hd).
  destruct (step_quiet _ _ w w8 _ _ (quiet_print _) Q8 H8)
    as [[Q He]|(? & w9 & _ & Q9 & H9)]; [by apply early_outcome|]. clear H8.
  destruct (step_quiet _ _ w w9 _ _
              (quiet_table_step process_nda_key_terms _ (proj1 table_steps_members)) Q9 H9)
    as [[Q He]|(doc2 & w10 & _ & Q10 & H10)]; [by apply early_outcome|]. clear H9.
  destruct (step_quiet _ _ w w10 _ _
              (quiet_table_step process_nda_signatures _ (proj1 (proj2 table_steps_members))) Q10 H10)
    as [[Q He]|(doc3 & w11 & _ & Q11 & H11)]; [by apply early_outcome|]. clear H10.
  assert (Hd1 : is_Some (dict_get entries "word/document.xml"))
    by (exists data; exact El).
  assert (Hd3 : is_Some (dict_get e3 "word/document.xml"))
    by (rewrite Hd; exact Hd1).
  exact (write_outcome source dest w w11 entries e3 doc3 r w' Q11 Er Hd1 Hk Hf Hd3 H11).
Qed.

Lemma process_psa_outcome source dest w r w' :
  process_psa upper bytes parse_xml serialize_xml FS read_docx write_docx
              source dest w = (r, w') ->
  archive_outcome read_docx write_docx source dest w r w'.
Proof.
  unfold process_psa. intros H.
  destruct (step_quiet _ _ w w _ _ (quiet_print _) (follows_refl w) H)
    as [[Q He]|(? & w1 & _ & Q1 & H1)]; [by apply early_outcome|]. clear H.
  destruct (step_quiet _ _ w w1 _ _ (quiet_read _) Q1 H1)
    as [[Q He]|(entries & w2 & Er & Q2 & H2)]; [by apply early_outcome|]. clear H1.
  apply read_ok in Er. rewrite (proj1 Q1) in Er.
  destruct (step_quiet _ _ w w2 _ _ (quiet_lookup _ _) Q2 H2)
    as [[Q He]|(data & w3 & El & Q3 & H3)]; [by apply early_outcome|]. clear H2.
  apply lookup_ok in El.
  destruct (step_quiet _ _ w w3 _ _ (quiet_parse _) Q3 H3)
    as [[Q He]|(doc & w4 & _ & Q4 & H4)]; [by apply early_outcome|]. clear H3.
  destruct (step_quiet _ _ w w4 _ _ (quiet_remove_first _) Q4 H4)
    as [[Q He]|(doc1 & w5 & _ & Q5 & H5)]; [by apply early_outcome|]. clear H4.
  destruct (step_quiet _ _ w w5 _ _ (quiet_lift _) Q5 H5)
    as [[Q He]|(e1 & w6 & C1 & Q6 & H6)]; [by apply early_outcome|]. clear H5.
  destruct (step_quiet _ _ w w6 _ _ (quiet_lift _) Q6 H6)
    as [[Q He]|(e2 & w7 & C2 & Q7 & H7)]; [by apply early_outcome|]. clear H6.
  destruct (step_quiet _ _ w w7 _ _ (quiet_lift _) Q7 H7)
    as [[Q He]|(e3 & w8 & C3 & Q8 & H8)]; [by apply early_outcome|]. clear H7.
  apply lift_ok in C1, C2, C3.
  destruct (cleared_entries _ _ _ _ C1 C2 C3) as (Hk & Hf & Hd).
  destruct (step_quiet _ _ w w8 _ _ (quiet_print _) Q8 H8)
    as [[Q He]|(? & w9 & _ & Q9 & H9)]; [by apply early_outcome|]. clear H8.
  destruct (step_quiet _ _ w w9 _ _
              (quiet_table_step process_psa_name_of_agreement _
                 (proj1 (proj2 (proj2 table_steps_members))))
              Q9 H9)
    as [[Q He]|(doc2 & w10 & _ & Q10 & H10)]; [by apply early_outcome|]. clear H9.
  destruct (step_quiet _ _ w w10 _ _
              (quiet_table_step process_psa_key_terms _
                 (proj1 (proj2 (proj2 (proj2 table_steps_members))))) Q10 H10)
    as [[Q He]|(doc3 & w11 & _ & Q11 & H11)]; [by apply early_outcome|]. clear H10.
  destruct (step_quiet _ _ w w11 _ _
              (quiet_table_step process_psa_signatures _
                 (proj2 (proj2 (proj2 (proj2 table_steps_members))))) Q11 H11)
    as [[Q He]|(doc4 & w12 & _ & Q12 & H12)]; [by apply early_outcome|]. clear H11.
  assert (Hd1 : is_Some (dict_get entries "word/document.xml"))
    by (exists data; exact El).
  assert (Hd3 : is_Some (dict_get e3 "word/document.xml"))
    by (rewrite Hd; exact Hd1).
  exact (write_outcome source dest w w12 entries e3 doc4 r w' Q12 Er Hd1 Hk Hf Hd3 H12).
Qed.

End ProcessFacts.

(** X17.  [process_nda] and [process_psa] write the archive once, at the
    end.  Standard error is never touched and standard output only grows.
    If a step raises before the archive is written (the source cannot be
    read, [word/document.xml] is missing or ill-formed, a header or footer
    is ill-formed, the document has no body) the file system is as it was.
    Otherwise [write_docx] is called once, on the destination, with entries
    that have the names of the source archive in the same order and the
    same bytes for every entry other than [word/document.xml],
    [word/header2.xml], [word/footer1.xml] and [word/footer2.xml]; the
    function returns exactly when that call returns. *)
Theorem process_writes_once
        (upper : str -> str) {bytes : Type}
        (parse_xml : bytes -> option Element) (serialize_xml : Element -> bytes)
        {FS : Type}
        (read_docx : FS -> string -> option (list (string * bytes)))
        (write_docx : FS -> list (string * bytes) -> string -> FS * bool)
        (source dest : string)
        (w : BontermsDoc.world FS) (r : BontermsDoc.doc_result unit)
        (w' : BontermsDoc.world FS) :
  BontermsDoc.process_nda upper bytes parse_xml serialize_xml FS read_docx write_docx
                          source dest w = (r, w') \/
  BontermsDoc.process_psa upper bytes parse_xml serialize_xml FS read_docx write_docx
                          source dest w = (r, w') ->
  archive_outcome read_docx write_docx source dest w r w'.
Proof.
  intros [H|H].
  - by apply (process_nda_outcome upper parse_xml serialize_xml).
  - by apply (process_psa_outcome upper parse_xml serialize_xml).
Qed.

Lemma process_writes_once_witness :
  let doc :=
    mkElement "document" [] None
      [mkElement BontermsDoc.w_body [] None [Bonterms.party_para]] in
  let archive := [("word/document.xml", doc); ("word/styles.xml", doc)] in
  let read_docx := fun (fs : list (string * list (string * Element))) path =>
                     BontermsDoc.dict_get fs path in
  let write_docx := fun (fs : list (string * list (string * Element))) entries path =>
                      (BontermsDoc.dict_set fs path entries, true) in
  let w := BontermsDoc.mkWorld [("in.docx", archive)] [] [] in
  let run :=
    BontermsDoc.process_nda (fun s => s) Element Some (fun e => e) _
                            read_docx write_docx "in.docx" "out.docx" w in
  fst run = BontermsDoc.DocOk tt /\
  archive_outcome read_docx write_docx "in.docx" "out.docx" w (fst run) (snd run).
Proof.
  intros doc archive read_docx write_docx w run.
  split; [by vm_compute|].
  apply (process_writes_once (fun s => s) Some (fun e => e) read_docx write_docx
           "in.docx" "out.docx" w (fst run) (snd run)).
  left. apply surjective_pairing.
Defined.

(** X18.  An archive without [word/document.xml].  Both functions raise
    [KeyError] for that name as soon as the archive has been read: the
    first line has been printed, nothing else is, and the file system is as
    it was. *)
Theorem process_missing_document
        (upper : str -> str) {bytes : Type}
        (parse_xml : bytes -> option Element) (serialize_xml : Element -> bytes)
        {FS : Type}
        (read_docx : FS -> string -> option (list (string * bytes)))
        (write_docx : FS -> list (string * bytes) -> string -> FS * bool)
        (source dest : string) (w : BontermsDoc.world FS)
        (entries : list (string * bytes)) :
  read_docx (BontermsDoc.files w) source = Some entries ->
  "word/document.xml" ∉ map fst entries ->
  BontermsDoc.process_nda upper bytes parse_xml serialize_xml FS read_docx write_docx
                          source dest w
  = (BontermsDoc.DocRaise (BontermsDoc.MissingKey "word/document.xml"),
     BontermsDoc.mkWorld
       (BontermsDoc.files w)
       (BontermsDoc.stdout w ++ [BontermsDoc.LineProcessing "NDA" source])
       (BontermsDoc.stderr w)) /\
  BontermsDoc.process_psa upper bytes parse_xml serialize_xml FS read_docx write_docx
                          source dest w
  = (BontermsDoc.DocRaise (BontermsDoc.MissingKey "word/document.xml"),
     BontermsDoc.mkWorld
       (BontermsDoc.files w)
       (BontermsDoc.stdout w ++ [BontermsDoc.LineProcessing "PSA" source])
       (BontermsDoc.stderr w)).
Proof.
  intros Hread Hno.
  assert (Hget : BontermsDoc.dict_get entries "word/document.xml" = None).
  { by apply dict_get_None. }
  unfold BontermsDoc.process_nda, BontermsDoc.process_psa, BontermsDoc.bind,
    BontermsDoc.print, BontermsDoc.read, BontermsDoc.lookup, BontermsDoc.raise.
  cbn [BontermsDoc.files BontermsDoc.stdout BontermsDoc.stderr].
  rewrite Hread, Hget. done.
Qed.

Lemma process_missing_document_witness :
  let archive := [("word/styles.xml", Bonterms.para_elem [])] in
  let read_docx := fun (fs : list (string * list (string * Element))) path =>
                     BontermsDoc.dict_get fs path in
  let write_docx := fun (fs : list (string * list (string * Element))) entries path =>
                      (BontermsDoc.dict_set fs path entries, true) in
  let w := BontermsDoc.mkWorld [("in.docx", archive)] [] [] in
  BontermsDoc.process_nda (fun s => s) Element Some (fun e => e) _
                          read_docx write_docx "in.docx" "out.docx" w
  = (BontermsDoc.DocRaise (BontermsDoc.MissingKey "word/document.xml"),
     BontermsDoc.mkWorld
       (BontermsDoc.files w)
       (BontermsDoc.stdout w ++ [BontermsDoc.LineProcessing "NDA" "in.docx"])
       (BontermsDoc.stderr w)).
Proof.
  intros archive read_docx write_docx w.
  apply (process_missing_document (fun s => s) Some (fun e => e) read_docx write_docx
           "in.docx" "out.docx" w archive).
  - reflexivity.
  - simpl. intros H. apply list_elem_of_singleton in H. discriminate H.
Defined.

(** X19.  [main] needs both sources before it does anything.  When the NDA
    source or the PSA source does not exist, [main] exits with status 1
    after one line on standard error; nothing is printed to standard
    output and the file system is as it was, even if the other source is
    there.  When both exist, standard error is never written to, and the
    two documents are processed one after the other: [main] returns only
    if the NDA template and then the PSA template have been written, and
    when the PSA fails the NDA template has been written already. *)
Theorem main_needs_both_sources
        (upper : str -> str) {bytes : Type}
        (parse_xml : bytes -> option Element) (serialize_xml : Element -> bytes)
        {FS : Type}
        (read_docx : FS -> string -> option (list (string * bytes)))
        (write_docx : FS -> list (string * bytes) -> string -> FS * bool)
        (path_exists : FS -> string -> bool) (nda_dest psa_dest : string)
        (w : BontermsDoc.world FS) (r : BontermsDoc.doc_result unit)
        (w' : BontermsDoc.world FS) :
  BontermsDoc.main upper bytes parse_xml serialize_xml FS read_docx write_docx
                   path_exists nda_dest psa_dest w = (r, w') ->
  (path_exists (BontermsDoc.files w) BontermsDoc.nda_source
   && path_exists (BontermsDoc.files w) BontermsDoc.psa_source = false ->
   r = BontermsDoc.DocRaise (BontermsDoc.SystemExit 1) /\
   BontermsDoc.files w' = BontermsDoc.files w /\
   BontermsDoc.stdout w' = BontermsDoc.stdout w /\
   exists line, BontermsDoc.stderr w' = BontermsDoc.stderr w ++ [line]) /\
  (path_exists (BontermsDoc.files w) BontermsDoc.nda_source
   && path_exists (BontermsDoc.files w) BontermsDoc.psa_source = true ->
   BontermsDoc.stderr w' = BontermsDoc.stderr w /\
   grows (BontermsDoc.stdout w) (BontermsDoc.stdout w') /\
   exists r1 w1,
     archive_outcome read_docx write_docx BontermsDoc.nda_source nda_dest w r1 w1 /\
     match r1 with
     | BontermsDoc.DocRaise e => r = BontermsDoc.DocRaise e /\ w' = w1
     | BontermsDoc.DocOk _ =>
         exists r2 w2,
           archive_outcome read_docx write_docx BontermsDoc.psa_source psa_dest
                           w1 r2 w2 /\
           match r2 with
           | BontermsDoc.DocRaise e => r = BontermsDoc.DocRaise e /\ w' = w2
           | BontermsDoc.DocOk _ =>
               r = BontermsDoc.DocOk tt /\
               BontermsDoc.files w' = BontermsDoc.files w2 /\
               BontermsDoc.stdout w'
               = BontermsDoc.stdout w2
                 ++ [BontermsDoc.LineDone; BontermsDoc.LinePath nda_dest;
                     BontermsDoc.LinePath psa_dest]
           end
     end).
Proof.
  unfold BontermsDoc.main.
  destruct (path_exists (BontermsDoc.files w) BontermsDoc.nda_source) eqn:Hn;
    cbn [negb andb].
  2:{ intros [= <- <-]. split; [|done]. intros _.
      split; [done|]. split; [done|]. split; [done|]. by eexists. }
  destruct (path_exists (BontermsDoc.files w) BontermsDoc.psa_source) eqn:Hp;
    cbn [negb].
  2:{ intros [= <- <-]. split; [|done]. intros _.
      split; [done|]. split; [done|]. split; [done|]. by eexists. }
  intros H. split; [done|]. intros _.
  unfold BontermsDoc.bind at 1 in H.
  destruct (BontermsDoc.process_nda _ _ _ _ _ _ _ _ _ w) as [[[]|e1] w1] eqn:E1.
  2:{ injection H as <- <-.
      pose proof (process_nda_outcome upper parse_xml serialize_xml
                    read_docx write_docx _ _ _ _ _ E1) as O1.
      split; [apply O1|]. split; [apply O1|].
      exists (BontermsDoc.DocRaise e1), w1. by split. }
  pose proof (process_nda_outcome upper parse_xml serialize_xml
                read_docx write_docx _ _ _ _ _ E1) as O1.
  unfold BontermsDoc.bind at 1 in H.
  destruct (BontermsDoc.process_psa _ _ _ _ _ _ _ _ _ w1) as [[[]|e2] w2] eqn:E2.
  2:{ injection H as <- <-.
      pose proof (process_psa_outcome upper parse_xml serialize_xml
                    read_docx write_docx _ _ _ _ _ E2) as O2.
      split; [rewrite (proj1 O2); apply O1|].
      split; [eapply grows_trans; [apply O1 | apply O2]|].
      exists (BontermsDoc.DocOk tt), w1. split; [done|].
      exists (BontermsDoc.DocRaise e2), w2. by split. }
  pose proof (process_psa_outcome upper parse_xml serialize_xml
                read_docx write_docx _ _ _ _ _ E2) as O2.
  unfold BontermsDoc.bind, BontermsDoc.print in H.
  cbn [BontermsDoc.files BontermsDoc.stdout BontermsDoc.stderr] in H.
  injection H as <- <-. cbn [BontermsDoc.files BontermsDoc.stdout BontermsDoc.stderr].
  split; [rewrite (proj1 O2); apply O1|].
  split.
  { eapply grows_trans; [apply O1|]. eapply grows_trans; [apply O2|].
    eexists. rewrite <- !app_assoc. reflexivity. }
  exists (BontermsDoc.DocOk tt), w1. split; [done|].
  exists (BontermsDoc.DocOk tt), w2. split; [done|].
  split; [done|]. split; [done|]. by rewrite <- !app_assoc.
Qed.

Lemma main_needs_both_sources_witness :
  let read_docx := fun (fs : list (string * list (string * Element))) path =>
                     BontermsDoc.dict_get fs path in
  let write_docx := fun (fs : list (string * list (string * Element))) entries path =>
                      (BontermsDoc.dict_set fs path entries, true) in
  let path_exists := fun (fs : list (string * list (string * Element))) path =>
                       bool_decide (is_Some (BontermsDoc.dict_get fs path)) in
  let w := BontermsDoc.mkWorld [(BontermsDoc.nda_source, [])] [] [] in
  let run :=
    BontermsDoc.main (fun s => s) Element Some (fun e => e) _
                     read_docx write_docx path_exists "nda.docx" "psa.docx" w in
  fst run = BontermsDoc.DocRaise (BontermsDoc.SystemExit 1) /\
  BontermsDoc.files (snd run) = BontermsDoc.files w /\
  BontermsDoc.stdout (snd run) = BontermsDoc.stdout w /\
  exists line, BontermsDoc.stderr (snd run) = BontermsDoc.stderr w ++ [line].
Proof.
  intros read_docx write_docx path_exists w run.
  apply (proj1 (main_needs_both_sources
                  (fun s => s) Some (fun e => e) read_docx write_docx path_exists
                  "nda.docx" "psa.docx" w (fst run) (snd run)
                  (surjective_pairing run))).
  by vm_compute.
Defined.

(** * The license step when a license is found *)

Section LicenseFacts.

Import Aspose.


End LicenseFacts.



(** * [get_run_texts] and [tag] *)

Section MiscFacts.

Import Bonterms.

Lemma run_texts_of_list (l : list Element) :
  let pairs :=
    flat_map (fun r =>
                match ET.find r w_t with
                | Some t_elem =>
                    match e_text t_elem with
                    | Some (c :: s) => [(r, c :: s)]
                    | _ => []
                    end
                | None => []
                end) l in
  map fst pairs = List.filter has_text l /\
  Forall (fun rt : Element * str => snd rt = run_text (fst rt) /\ snd rt <> []) pairs /\
  concat (map snd pairs) = concat (map run_text l).
Proof.
  induction l as [|r l IH]; cbn zeta in *.
  - by repeat split.
  - destruct IH as (IH1 & IH2 & IH3).
    cbn [flat_map List.filter map concat].
    destruct (ET.find r w_t) as [t|] eqn:Ft.
    + destruct (e_text t) as [[|c s]|] eqn:Et.
      * assert (Hr : run_text r = []).
        { unfold run_text, text_or_empty. by rewrite Ft, Et. }
        assert (Hh : has_text r = false) by (unfold has_text; by rewrite Hr).
        rewrite Hr, Hh. by repeat split.
      * assert (Hr : run_text r = c :: s).
        { unfold run_text, text_or_empty. by rewrite Ft, Et. }
        assert (Hh : has_text r = true) by (unfold has_text; by rewrite Hr).
        rewrite Hr, Hh. cbn [app map concat fst snd].
        split; [by rewrite IH1|]. split; [|by rewrite IH3].
        constructor; [|done]. cbn [fst snd]. by rewrite Hr.
      * assert (Hr : run_text r = []).
        { unfold run_text, text_or_empty. by rewrite Ft, Et. }
        assert (Hh : has_text r = false) by (unfold has_text; by rewrite Hr).
        rewrite Hr, Hh. by repeat split.
    + assert (Hr : run_text r = []).
      { unfold run_text. by rewrite Ft. }
      assert (Hh : has_text r = false) by (unfold has_text; by rewrite Hr).
      rewrite Hr, Hh. by repeat split.
Qed.

Lemma NSMAP_get_elem m ns uri :
  NSMAP_get m ns = Some uri -> (ns, uri) ∈ m.
Proof.
  induction m as [|[k v] m IH]; simpl; [done|].
  destruct (String.eqb k ns) eqn:E.
  - intros [= <-]. apply String.eqb_eq in E. subst k. apply list_elem_of_here.
  - intros H. apply list_elem_of_further. by apply IH.
Qed.

Lemma NSMAP_get_None m ns :
  NSMAP_get m ns = None <-> ns ∉ map fst m.
Proof.
  induction m as [|[k v] m IH]; simpl.
  - split; [intros _ H; by apply elem_of_nil in H | done].
  - destruct (String.eqb k ns) eqn:E.
    + apply String.eqb_eq in E. subst k. split; [done|].
      intros H. exfalso. apply H. apply list_elem_of_here.
    + apply String.eqb_neq in E. rewrite IH. split.
      * intros H H'. apply elem_of_cons in H' as [->|H']; done.
      * intros H H'. apply H. by apply list_elem_of_further.
Qed.

End MiscFacts.

(** X21.  [get_run_texts] loses no text.  The runs it returns are the runs
    at or below the paragraph, in document order, whose first [w:t] has a
    non-empty text, each paired with that text; the texts it returns,
    concatenated, are the first-[w:t] texts of all the runs at or below the
    paragraph, concatenated. *)
Theorem get_run_texts_keeps_text (para : Element) :
  map fst (Bonterms.get_run_texts para)
  = List.filter has_text (ET.iter Bonterms.w_r para) /\
  Forall (fun rt : Element * str =>
            snd rt = Bonterms.run_text (fst rt) /\ snd rt <> [])
         (Bonterms.get_run_texts para) /\
  concat (map snd (Bonterms.get_run_texts para))
  = concat (map Bonterms.run_text (ET.iter Bonterms.w_r para)).
Proof. apply (run_texts_of_list (ET.iter Bonterms.w_r para)). Qed.

(** X22.  [tag] is unambiguous and partial.  For the five prefixes of
    [NSMAP] it returns the Clark-notation name, and two calls that return
    the same name were given the same prefix and the same local name; for
    any other prefix, the prefixes that are only registered with
    ElementTree included, it raises [KeyError]. *)
Theorem tag_unambiguous (ns1 ns2 local1 local2 : string) :
  (ns1 ∉ map fst Bonterms.NSMAP ->
   Bonterms.tag ns1 local1 = Raise (KeyError ns1)) /\
  (forall t,
      Bonterms.tag ns1 local1 = Ok t -> Bonterms.tag ns2 local2 = Ok t ->
      ns1 = ns2 /\ local1 = local2).
Proof.
  split.
  - intros H. unfold Bonterms.tag. apply NSMAP_get_None in H. by rewrite H.
  - intros t. unfold Bonterms.tag.
    destruct (Bonterms.NSMAP_get Bonterms.NSMAP ns1) as [u1|] eqn:E1; [|done].
    destruct (Bonterms.NSMAP_get Bonterms.NSMAP ns2) as [u2|] eqn:E2; [|done].
    apply NSMAP_get_elem in E1, E2. intros [= <-] [= H].
    unfold Bonterms.NSMAP in E1, E2.
    repeat (apply elem_of_cons in E1 as [E1|E1]);
      [..|by apply elem_of_nil in E1];
      injection E1 as -> ->;
      (repeat (apply elem_of_cons in E2 as [E2|E2]);
       [..|by apply elem_of_nil in E2]);
      injection E2 as -> ->; simpl in H;
      first [ discriminate H | (split; [reflexivity|]; by injection H) ].
Qed.

Lemma tag_unambiguous_witness :
  ("wp" ∉ map fst Bonterms.NSMAP) /\
  Bonterms.tag "wp" "inline" = Raise (KeyError "wp").
Proof.
  assert (H : "wp" ∉ map fst Bonterms.NSMAP).
  { intros H. simpl in H.
    repeat (apply elem_of_cons in H as [H|H]; [discriminate H|]).
    by apply elem_of_nil in H. }
  split; [exact H|].
  exact (proj1 (tag_unambiguous "wp" "w" "inline" "p") H).
Defined.
